(** * Areal / categorical allocation: the three scripts over exact rationals

    The repository holds three pandas scripts:
    - [M.O.F-to-DA-Projections.py]            (module [Script1]),
    - [MOF-Projections-to-DA-Dissagregation.py] (module [Script2]),
    - [3 Different Mapping Approaches.py]       (module [Approaches]).

    A data frame is a list of records, one record type per stage.  A float64
    cell is a value of [fval]: an exact rational, one of the two infinities, or
    NaN.  NaN and the infinities are modelled as pandas has them (division by
    zero, cells missing after a left merge, sums and maxima that skip NaN,
    groups whose key is NaN being dropped).  The arithmetic of [fval] is
    exact: it gives the number that float64 rounds.  What is concluded from it
    about a value the scripts compute with a division or a product is
    therefore a formula or a comparison within a tolerance, never an equality
    to the last bit.  Module [Float64] has the rounded operations of IEEE 754
    binary64, and approach 2 is evaluated with them where the last bit is the
    point. *)

From Stdlib Require Import List String Ascii Bool ZArith QArith Qabs Lia Lqa.
From Stdlib Require Import Floats.SpecFloat.
Import ListNotations.

Local Open Scope string_scope.
Local Open Scope Q_scope.

(* ================================================================== *)
(** * Frame: the pandas operations the scripts use *)
(* ================================================================== *)

Module Frame.

(** ** Cells *)

Inductive fval : Type :=
| Fin (q : Q)
| PInf
| NInf
| NaN.

Definition Qsgn (q : Q) : comparison := q ?= 0.

Definition fneg (a : fval) : fval :=
  match a with
  | Fin x => Fin (- x)
  | PInf => NInf
  | NInf => PInf
  | NaN => NaN
  end.

(** the sum, the product and the quotient are exact; [Float64] rounds them *)
Definition fadd (a b : fval) : fval :=
  match a, b with
  | NaN, _ | _, NaN => NaN
  | Fin x, Fin y => Fin (x + y)
  | PInf, NInf | NInf, PInf => NaN
  | PInf, _ | _, PInf => PInf
  | NInf, _ | _, NInf => NInf
  end.

Definition fsub (a b : fval) : fval := fadd a (fneg b).

(** an infinity times a finite number: the sign decides, zero gives NaN *)
Definition inf_scale (pos : bool) (y : Q) : fval :=
  match Qsgn y with
  | Eq => NaN
  | Gt => if pos then PInf else NInf
  | Lt => if pos then NInf else PInf
  end.

Definition fmul (a b : fval) : fval :=
  match a, b with
  | NaN, _ | _, NaN => NaN
  | Fin x, Fin y => Fin (x * y)
  | PInf, Fin y | Fin y, PInf => inf_scale true y
  | NInf, Fin y | Fin y, NInf => inf_scale false y
  | PInf, PInf | NInf, NInf => PInf
  | PInf, NInf | NInf, PInf => NInf
  end.

(** float division never raises: x/0 is an infinity of the sign of x, 0/0 is
    NaN (the sign of a zero is not modelled) *)
Definition fdiv (a b : fval) : fval :=
  match a, b with
  | NaN, _ | _, NaN => NaN
  | Fin x, Fin y =>
      match Qsgn y with
      | Eq => match Qsgn x with Eq => NaN | Gt => PInf | Lt => NInf end
      | _ => Fin (x / y)
      end
  | Fin _, (PInf | NInf) => Fin 0
  | PInf, Fin y => match Qsgn y with Lt => NInf | _ => PInf end
  | NInf, Fin y => match Qsgn y with Lt => PInf | _ => NInf end
  | (PInf | NInf), (PInf | NInf) => NaN
  end.

Definition fabs (a : fval) : fval :=
  match a with
  | Fin x => Fin (Qabs x)
  | PInf | NInf => PInf
  | NaN => NaN
  end.

(** comparisons with NaN are False *)
Definition fltb (a b : fval) : bool :=
  match a, b with
  | NaN, _ | _, NaN => false
  | Fin x, Fin y => match x ?= y with Lt => true | _ => false end
  | NInf, (Fin _ | PInf) => true
  | Fin _, PInf => true
  | _, _ => false
  end.

(** [v] is the finite number [q] *)
Definition is_fin (v : fval) (q : Q) : Prop :=
  match v with Fin x => x == q | _ => False end.

(** the number in a cell, 0 for a cell that holds none *)
Definition finpart (v : fval) : Q :=
  match v with Fin x => x | _ => 0 end.

(** [a == b] on two cells: NaN equals nothing *)
Definition feqb (a b : fval) : bool :=
  match a, b with
  | Fin x, Fin y => Qeq_bool x y
  | PInf, PInf | NInf, NInf => true
  | _, _ => false
  end.

(** a cell of an optional column: NaN when missing *)
Definition of_option (o : option Q) : fval :=
  match o with Some q => Fin q | None => NaN end.

(** ** Reductions *)

Definition qsum (l : list Q) : Q := fold_right Qplus 0 l.

(** [Series.sum()] and [groupby(...).sum()]: NaN cells are skipped, the empty
    sum is 0 *)
Definition nansum (l : list fval) : fval :=
  fold_right (fun v acc => match v with NaN => acc | _ => fadd v acc end) (Fin 0) l.

Definition fmax (a b : fval) : fval := if fltb a b then b else a.

(** [Series.max()]: NaN cells are skipped, NaN when nothing is left *)
Definition nanmax (l : list fval) : fval :=
  fold_right (fun v acc =>
                match v, acc with
                | NaN, _ => acc
                | _, NaN => v
                | _, _ => fmax v acc
                end) NaN l.

(** [np.isclose(a, b, atol=atol)], with numpy's default [rtol = 1e-5] and
    [equal_nan = False]: finite values by [|a - b| <= atol + rtol * |b|],
    infinities only when equal *)
Definition rtol_default : Q := 1 # 100000.

Definition isclose (a b : fval) (atol : Q) : bool :=
  match a, b with
  | Fin x, Fin y => Qle_bool (Qabs (x - y)) (atol + rtol_default * Qabs y)
  | PInf, PInf | NInf, NInf => true
  | _, _ => false
  end.

(** ** Keys *)

Class Key (K : Type) : Type := {
  keqb : K -> K -> bool;
  kleb : K -> K -> bool;
  keqb_spec : forall a b : K, reflect (a = b) (keqb a b)
}.

#[export] Instance Key_string : Key string :=
  {| keqb := String.eqb; kleb := String.leb; keqb_spec := String.eqb_spec |}.

#[export] Instance Key_Z : Key Z :=
  {| keqb := Z.eqb; kleb := Z.leb; keqb_spec := Z.eqb_spec |}.

Definition prod_eqb {A B} `{Key A} `{Key B} (x y : A * B) : bool :=
  keqb (fst x) (fst y) && keqb (snd x) (snd y).

(** tuples sort lexicographically *)
Definition prod_leb {A B} `{Key A} `{Key B} (x y : A * B) : bool :=
  if keqb (fst x) (fst y) then kleb (snd x) (snd y) else kleb (fst x) (fst y).

Definition prod_eqb_spec {A B} `{Key A} `{Key B} (x y : A * B) :
  reflect (x = y) (prod_eqb x y).
Proof.
  destruct x as [a b], y as [c d]. unfold prod_eqb. simpl.
  destruct (keqb_spec a c) as [->|Hac]; simpl.
  - destruct (keqb_spec b d) as [->|Hbd]; constructor; congruence.
  - constructor; congruence.
Defined.

#[export] Instance Key_prod {A B} `{Key A} `{Key B} : Key (A * B) :=
  {| keqb := prod_eqb; kleb := prod_leb; keqb_spec := prod_eqb_spec |}.

Definition option_eqb {A} `{Key A} (x y : option A) : bool :=
  match x, y with
  | Some a, Some b => keqb a b
  | None, None => true
  | _, _ => false
  end.

Definition option_leb {A} `{Key A} (x y : option A) : bool :=
  match x, y with
  | Some a, Some b => kleb a b
  | Some _, None => true
  | None, Some _ => false
  | None, None => true
  end.

Definition option_eqb_spec {A} `{Key A} (x y : option A) :
  reflect (x = y) (option_eqb x y).
Proof.
  destruct x as [a|], y as [b|]; simpl; try (constructor; congruence).
  destruct (keqb_spec a b) as [->|Hab]; constructor; congruence.
Defined.

(** rows compared cell by cell, a missing cell equal to a missing cell, as
    [drop_duplicates] does *)
#[export] Instance Key_option {A} `{Key A} : Key (option A) :=
  {| keqb := option_eqb; kleb := option_leb; keqb_spec := option_eqb_spec |}.

(** a key cell that may be NaN; two NaN keys are never the same group *)
Definition okeqb {K} `{Key K} (a : option K) (b : K) : bool :=
  match a with Some x => keqb x b | None => false end.

(** the key cell is present and is one of [ks] *)
Definition key_in {K} `{Key K} (o : option K) (ks : list K) : bool :=
  match o with Some k => existsb (keqb k) ks | None => false end.

(** ** Lists of keys *)

(** [Series.unique()]: distinct values in order of first appearance *)
Fixpoint unique {K} `{Key K} (l : list K) : list K :=
  match l with
  | [] => []
  | x :: t => x :: filter (fun y => negb (keqb x y)) (unique t)
  end.

Fixpoint insert_key {K} `{Key K} (x : K) (l : list K) : list K :=
  match l with
  | [] => [x]
  | y :: t => if kleb x y then x :: l else y :: insert_key x t
  end.

Definition sort_keys {K} `{Key K} (l : list K) : list K :=
  fold_right insert_key [] l.

(** keep the rows whose optional cell is present *)
Fixpoint somes {A} (l : list (option A)) : list A :=
  match l with
  | [] => []
  | Some x :: t => x :: somes t
  | None :: t => somes t
  end.

(** ** groupby *)

Section GroupBy.
Context {R K : Type} `{Key K}.
Variable key : R -> option K.

  (** the groups of [df.groupby(cols)]: rows with a NaN in a key column are
      dropped, the group keys come out sorted *)
Definition group_keys (rows : list R) : list K :=
    sort_keys (unique (somes (map key rows))).

Definition group_rows (rows : list R) (k : K) : list R :=
    filter (fun r => okeqb (key r) k) rows.

  (** [df.groupby(cols)[col].sum()] *)
Definition groupby_sum (val : R -> fval) (rows : list R) : list (K * fval) :=
    map (fun k => (k, nansum (map val (group_rows rows k)))) (group_keys rows).

  (** [df.groupby(cols).size()] *)
Definition groupby_size (rows : list R) : list (K * nat) :=
    map (fun k => (k, List.length (group_rows rows k))) (group_keys rows).
End GroupBy.

(** ** merge *)

Section Merge.
Context {L R K : Type} `{Key K}.
Variable lkey : L -> option K.
Variable rkey : R -> K.

Definition matches (right : list R) (l : L) : list R :=
    filter (fun r => okeqb (lkey l) (rkey r)) right.

  (** [left.merge(right, how='left')]: every left row once per matching right
      row, in left order; a left row without a match is kept once, with the
      right columns missing *)
Definition merge_left (left : list L) (right : list R) : list (L * option R) :=
    flat_map (fun l =>
                match matches right l with
                | [] => [(l, None)]
                | ms => map (fun r => (l, Some r)) ms
                end) left.

  (** [left.merge(right)] / [how='inner']: only the matching pairs *)
Definition merge_inner (left : list L) (right : list R) : list (L * R) :=
    flat_map (fun l => map (fun r => (l, r)) (matches right l)) left.
End Merge.

(** ** Control *)

(** a script either runs to its end or stops at the exception it raises *)
Inductive error : Type :=
| AssertionError (msg : string)
| ValueError (msg : string).

Inductive result (A : Type) : Type :=
| Ok (a : A)
| Raise (e : error).
Arguments Ok {A} a.
Arguments Raise {A} e.

(** [assert c, msg] followed by the rest of the script *)
Definition assert_ {A} (c : bool) (msg : string) (k : result A) : result A :=
  if c then k else Raise (AssertionError msg).

(** [pd.concat(frames)] refuses an empty list of frames *)
Definition concat_frames {A} (frames : list (list A)) : result (list A) :=
  match frames with
  | [] => Raise (ValueError "No objects to concatenate")
  | _ => Ok (List.concat frames)
  end.

Definition bind {A B} (r : result A) (k : A -> result B) : result B :=
  match r with
  | Ok a => k a
  | Raise e => Raise e
  end.

End Frame.

(* ================================================================== *)
(** * Float64: the arithmetic of a float64 column *)
(* ================================================================== *)

Module Float64.
Import Frame.









End Float64.

(* ================================================================== *)
(** * Script1: M.O.F-to-DA-Projections.py *)
(* ================================================================== *)

Module Script1.
Import Frame.

(** ** Constants *)

Definition DA_BORDER_DAs : list (string * list (string * Q)) :=
  [ ("35190009", [("Durham", 125 # 1000); ("York", 875 # 1000)]);
    ("35190965", [("Durham", 28 # 1000); ("York", 972 # 1000)]) ].

Definition map_single_year_to_custom_group (age : Z) : string :=
  if ((0 <=? age) && (age <=? 17))%Z then "0-17"
  else if ((18 <=? age) && (age <=? 44))%Z then "18-44"
  else if ((45 <=? age) && (age <=? 64))%Z then "45-64"
  else if ((65 <=? age) && (age <=? 84))%Z then "65-84"
  else if (age >=? 85)%Z then "85+"
  else "Unknown".

(** ** Frames *)

(** [df_proj], sheet Projection_cleaned.  [p_Age_numeric] is
    [safe_age_to_int] of the AgeGroup cell: the integer, or NaN where [int]
    raises. *)
Record proj_row : Type := {
  p_YEAR : Z;
  p_REGION_NAME : string;
  p_Age_numeric : option Z;
  p_Sex : string;
  p_Pop : Q
}.

(** [df_proj_agg] *)
Record agg_row : Type := {
  a_YEAR : Z;
  a_REGION_NAME : string;
  a_Sex : string;
  a_AgeGroup_custom : string;
  a_Pop : fval
}.

(** [df_da], sheet DA x Age x Sex; from step 8 on with [DA_prefix] and
    [Region], which this record carries as empty strings before *)
Record da_row : Type := {
  DA_UID : string;
  AgeGroup : string;
  Sex : string;
  Pop : Q;
  DA_prefix : string;
  Region : string
}.

(** [df_da_clean] from step 11 on *)
Record share_row : Type := {
  s_da : da_row;
  RegionPop : fval;
  DA_Share : fval
}.

(** [df_year], and so [df_projected] *)
Record year_row : Type := {
  y_DA_UID : string;
  y_Sex : string;
  y_AgeGroup : string;
  y_Region : string;
  y_Region_proj_name : option string;
  y_YEAR : option Z;
  y_Projected_Pop : fval
}.

(** [proj_check] *)
Record check_row : Type := {
  c_YEAR : Z;
  c_Region_proj_name : string;
  c_Sex : string;
  c_AgeGroup : string;
  c_Projected_Pop : fval;
  c_Pop : fval;
  c_Difference : fval
}.

(** ** Step 4: sex codes *)

Definition replace_W (s : string) : string := if s =? "W" then "F" else s.

Definition is_M_or_F (s : string) : bool := (s =? "M") || (s =? "F").

Definition clean_proj (df_proj : list proj_row) : list proj_row :=
  filter (fun r => is_M_or_F (p_Sex r))
    (map (fun r => {| p_YEAR := p_YEAR r; p_REGION_NAME := p_REGION_NAME r;
                      p_Age_numeric := p_Age_numeric r;
                      p_Sex := replace_W (p_Sex r); p_Pop := p_Pop r |}) df_proj).

Definition clean_da (df_da : list da_row) : list da_row :=
  filter (fun r => is_M_or_F (Sex r)) df_da.

(** ** Step 5: projection by custom age group *)

(** rows without a numeric age are dropped; the others carry their group *)
Definition with_custom_group (df_proj : list proj_row) : list (proj_row * string) :=
  flat_map (fun r => match p_Age_numeric r with
                     | Some age => [(r, map_single_year_to_custom_group age)]
                     | None => []
                     end) df_proj.

Definition agg_key (r : proj_row * string) : option (Z * string * string * string) :=
  Some (p_YEAR (fst r), p_REGION_NAME (fst r), p_Sex (fst r), snd r).

Definition df_proj_agg_of (df_proj : list proj_row) : list agg_row :=
  map (fun kv => let '(y, reg, sex, ag) := fst kv in
                 {| a_YEAR := y; a_REGION_NAME := reg; a_Sex := sex;
                    a_AgeGroup_custom := ag; a_Pop := snd kv |})
    (groupby_sum agg_key (fun r => Fin (p_Pop (fst r))) (with_custom_group df_proj)).

(** ** Step 8: region of a DA *)

Section Borders.
Variable borders : list (string * list (string * Q)).

Fixpoint lookup {V} (k : string) (d : list (string * V)) : option V :=
  match d with
  | [] => None
  | (k', v) :: t => if k =? k' then Some v else lookup k t
  end.

Definition in_dict {V} (k : string) (d : list (string * V)) : bool :=
  match lookup k d with Some _ => true | None => false end.

Definition assign_region (da_uid prefix : string) : string :=
  if in_dict da_uid borders then "Border"
  else if prefix =? "3519" then "York"
  else if prefix =? "3518" then "Durham"
  else "Unknown".

Definition with_region (df_da : list da_row) : list da_row :=
  map (fun r => let prefix := substring 0 4 (DA_UID r) in
                {| DA_UID := DA_UID r; AgeGroup := AgeGroup r; Sex := Sex r;
                   Pop := Pop r; DA_prefix := prefix;
                   Region := assign_region (DA_UID r) prefix |}) df_da.

(** ** Step 9: border DAs split by the fixed proportions *)

(** the rows that replace one border row.  [DA_BORDER_DAs[da_uid]] cannot
    miss for a row that step 8 marked Border; the loop meets no other row (the
    lookup would be a KeyError there, and gives no row here) *)
Definition split_row (row : da_row) : list da_row :=
  match lookup (DA_UID row) borders with
  | Some props =>
      map (fun rp => {| DA_UID := DA_UID row; AgeGroup := AgeGroup row;
                        Sex := Sex row; Pop := Pop row * snd rp;
                        DA_prefix := DA_prefix row; Region := fst rp |}) props
  | None => []
  end.

Definition df_border_split (df_da : list da_row) : list da_row :=
  flat_map split_row (filter (fun r => Region r =? "Border") df_da).

Definition df_da_no_border (df_da : list da_row) : list da_row :=
  filter (fun r => negb (Region r =? "Border")) df_da.

Definition df_da_clean_of (df_da : list da_row) : list da_row :=
  df_da_no_border df_da ++ df_border_split df_da.

End Borders.

(** ** Step 10: population per DA before and after the split *)

Definition pop_by_da (df : list da_row) : list (string * fval) :=
  groupby_sum (fun r => Some (DA_UID r)) (fun r => Fin (Pop r)) df.

Definition series_get {K} `{Key K} (s : list (K * fval)) (k : K) : option fval :=
  match filter (fun kv => keqb k (fst kv)) s with
  | kv :: _ => Some (snd kv)
  | [] => None
  end.

(** [a - b] on two indexed series: the index is the sorted union, a label
    missing on either side gives NaN *)
Definition series_sub {K} `{Key K} (a b : list (K * fval)) : list (K * fval) :=
  map (fun k => (k, match series_get a k, series_get b k with
                    | Some x, Some y => fsub x y
                    | _, _ => NaN
                    end))
      (sort_keys (unique (map fst a ++ map fst b))).

Definition pop_diff_of (df_da df_da_clean : list da_row) : fval :=
  nansum (map (fun kv => fabs (snd kv))
              (series_sub (pop_by_da df_da) (pop_by_da df_da_clean))).

(** the population of the rows of one DA, as [pop_by_da] sums it *)
Definition da_pop (uid : string) (df : list da_row) : Q :=
  qsum (map Pop (group_rows (fun r => Some (DA_UID r)) df uid)).

(** the rows marked Border are rows of DAs of the table, as step 8 leaves it *)
Definition marked (borders : list (string * list (string * Q))) (df : list da_row) : Prop :=
  forall r, In r df -> Region r = "Border" ->
            exists props, lookup (DA_UID r) borders = Some props.

(** ** Step 11: shares within (Region, AgeGroup, Sex) *)

Definition stratum_key (r : da_row) : option (string * string * string) :=
  Some (Region r, AgeGroup r, Sex r).

Definition pop_region_age_sex (df_da_clean : list da_row)
  : list (string * string * string * fval) :=
  groupby_sum stratum_key (fun r => Fin (Pop r)) df_da_clean.

Definition with_shares (df_da_clean : list da_row) : list share_row :=
  map (fun lr => let region_pop := match snd lr with
                                   | Some kv => snd kv
                                   | None => NaN
                                   end in
                 {| s_da := fst lr; RegionPop := region_pop;
                    DA_Share := fdiv (Fin (Pop (fst lr))) region_pop |})
      (merge_left stratum_key fst df_da_clean (pop_region_age_sex df_da_clean)).

(** the same frame row by row, without the merge: [StratumTotal] is the
    population of a stratum of [df_da_clean] *)
Definition stratum_of (r : da_row) : string * string * string :=
  (Region r, AgeGroup r, Sex r).

Definition StratumTotal (df_da_clean : list da_row) (k : string * string * string) : Q :=
  qsum (map Pop (group_rows stratum_key df_da_clean k)).

Definition share_row_of (df_da_clean : list da_row) (r : da_row) : share_row :=
  {| s_da := r;
     RegionPop := Fin (StratumTotal df_da_clean (stratum_of r));
     DA_Share := fdiv (Fin (Pop r)) (Fin (StratumTotal df_da_clean (stratum_of r))) |}.

(** ** Step 12: shares per stratum should sum to 1 (a printed warning) *)

Definition shares_sum (df : list share_row) : list (string * string * string * fval) :=
  groupby_sum (fun r => stratum_key (s_da r)) DA_Share df.

Definition WithinTolerance (v : fval) : bool := isclose v (Fin 1) (1 # 1000).

(** the rows of the warning; nothing is printed when this is empty *)
Definition shares_warning (df : list share_row) : list (string * string * string * fval) :=
  filter (fun kv => negb (WithinTolerance (snd kv))) (shares_sum df).

(** ** Step 14: shares times the regional projection, year by year *)

Definition region_map_proj (region : string) : option string :=
  if region =? "York" then Some "York Region Public Health Services"
  else if region =? "Durham" then Some "Durham Region Health Department"
  else None.

Definition Region_proj_name (r : share_row) : option string :=
  region_map_proj (Region (s_da r)).

Definition share_join_key (r : share_row) : option (string * string * string) :=
  match Region_proj_name r with
  | Some n => Some (n, Sex (s_da r), AgeGroup (s_da r))
  | None => None
  end.

Definition proj_join_key (t : agg_row) : string * string * string :=
  (a_REGION_NAME t, a_Sex t, a_AgeGroup_custom t).

(** one row of [df_year]: a share row and its match in the projection, if any
    ([Pop_y] is the regional projected population) *)
Definition year_row_of (r : share_row) (o : option agg_row) : year_row :=
  let Pop_y := match o with Some t => a_Pop t | None => NaN end in
  {| y_DA_UID := DA_UID (s_da r); y_Sex := Sex (s_da r);
     y_AgeGroup := AgeGroup (s_da r); y_Region := Region (s_da r);
     y_Region_proj_name := Region_proj_name r;
     y_YEAR := option_map a_YEAR o;
     y_Projected_Pop := fmul (DA_Share r) Pop_y |}.

Definition df_year_of (df_da_clean : list share_row) (df_proj_year : list agg_row)
  : list year_row :=
  map (fun lr => year_row_of (fst lr) (snd lr))
      (merge_left share_join_key proj_join_key df_da_clean df_proj_year).

Definition result_rows_of (df_da_clean : list share_row) (df_proj_agg : list agg_row)
  : list (list year_row) :=
  map (fun year =>
         df_year_of df_da_clean
           (filter (fun t => (a_YEAR t =? year)%Z) df_proj_agg))
      (unique (map a_YEAR df_proj_agg)).

Definition df_projected_of (df_da_clean : list share_row) (df_proj_agg : list agg_row)
  : result (list year_row) :=
  concat_frames (result_rows_of df_da_clean df_proj_agg).

(** ** Step 15: final check against the regional totals *)

Definition check_key (r : year_row) : option (Z * string * string * string) :=
  match y_YEAR r, y_Region_proj_name r with
  | Some y, Some n => Some (y, n, y_Sex r, y_AgeGroup r)
  | _, _ => None
  end.

Definition agg_check_key (t : agg_row) : Z * string * string * string :=
  (a_YEAR t, a_REGION_NAME t, a_Sex t, a_AgeGroup_custom t).

Definition proj_check_of (df_projected : list year_row) (df_proj_agg : list agg_row)
  : list check_row :=
  map (fun lr =>
         let '(y, n, sex, ag) := fst (fst lr) in
         let projected := snd (fst lr) in
         let pop := match snd lr with Some t => a_Pop t | None => NaN end in
         {| c_YEAR := y; c_Region_proj_name := n; c_Sex := sex; c_AgeGroup := ag;
            c_Projected_Pop := projected; c_Pop := pop;
            c_Difference := fsub projected pop |})
      (merge_left (fun kv => Some (fst kv)) agg_check_key
                  (groupby_sum check_key y_Projected_Pop df_projected)
                  df_proj_agg).

Definition max_diff_of (proj_check : list check_row) : fval :=
  nanmax (map (fun c => fabs (c_Difference c)) proj_check).

(** ** The script *)

Record output : Type := {
  df_projected : list year_row;
  printed_shares_warning : list (string * string * string * fval);
  proj_check : list check_row
}.

Definition run (borders : list (string * list (string * Q)))
           (df_proj0 : list proj_row) (df_da0 : list da_row) : result output :=
  let df_proj := clean_proj df_proj0 in
  let df_da := clean_da df_da0 in
  let df_proj_agg := df_proj_agg_of df_proj in
  let df_da := with_region borders df_da in
  let df_da_clean := df_da_clean_of borders df_da in
  assert_ (fltb (pop_diff_of df_da df_da_clean) (Fin (1 # 100000)))
          "Population total changed after splitting border DAs!"
    (let df_da_clean := with_shares df_da_clean in
     bind (df_projected_of df_da_clean df_proj_agg) (fun df_projected =>
     let proj_check := proj_check_of df_projected df_proj_agg in
     assert_ (fltb (max_diff_of proj_check) (Fin (1 # 100)))
             "Large differences found - check calculations."
       (Ok {| df_projected := df_projected;
              printed_shares_warning := shares_warning df_da_clean;
              proj_check := proj_check |}))).

Definition main : list proj_row -> list da_row -> result output :=
  run DA_BORDER_DAs.

End Script1.

(* ================================================================== *)
(** * Script2: MOF-Projections-to-DA-Dissagregation.py *)
(* ================================================================== *)

Module Script2.
Import Frame.

Definition map_single_year_to_custom_group (age : Z) : string :=
  if ((0 <=? age) && (age <=? 17))%Z then "0-17"
  else if ((18 <=? age) && (age <=? 44))%Z then "18-44"
  else if ((45 <=? age) && (age <=? 64))%Z then "45-64"
  else if ((65 <=? age) && (age <=? 84))%Z then "65-84"
  else if (age >=? 85)%Z then "85+"
  else "Unknown".

(** ** Frames *)

(** [df_proj] as it stands after step 5, age groups as labels *)
Record proj_row : Type := {
  p_Year : Z;
  p_REGION_NAME : string;
  p_AgeGroup : string;
  p_Sex : string;
  p_Pop : fval
}.

(** [df_da] after step 4 *)
Record da_row : Type := {
  DA_UID : string;
  AgeGroup : string;
  Sex : string;
  Pop : Q
}.

(** [df_da] from the region assignment on *)
Record region_row : Type := {
  r_da : da_row;
  REGION_NAME : string
}.

(** [df_da] with the baseline, the census total and the proportion *)
Record prop_row : Type := {
  q_da : region_row;
  Baseline_Region_Pop : fval;
  True_Region_Pop_2021 : fval;
  Prop_DA_in_Region_2021 : fval
}.

(** [df_combined] *)
Record combined_row : Type := {
  c_proj : proj_row;
  c_Region_Short : option string;
  c_DA_UID : option string;
  c_Prop_DA_in_Region_2021 : fval;
  c_Projected_Pop : fval
}.

(** ** Target age groups and the projection by group *)

Definition target_age_groups : list string :=
  ["0-17"; "18-44"; "45-64"; "65-84"; "85+"].

Definition isin (s : string) (l : list string) : bool :=
  existsb (fun x => s =? x) l.

Definition proj_key (r : proj_row) : option (Z * string * string * string) :=
  Some (p_Year r, p_REGION_NAME r, p_AgeGroup r, p_Sex r).

Definition df_proj_grouped (df_proj : list proj_row) : list proj_row :=
  map (fun kv => let '(y, reg, ag, sex) := fst kv in
                 {| p_Year := y; p_REGION_NAME := reg; p_AgeGroup := ag;
                    p_Sex := sex; p_Pop := snd kv |})
      (groupby_sum proj_key p_Pop
         (filter (fun r => isin (p_AgeGroup r) target_age_groups) df_proj)).

(** ** Region of a DA: by prefix only *)

Definition durham_prefix : string := "3518".
Definition york_prefix : string := "3519".

Definition assign_region_by_da (da_uid : string) : option string :=
  if prefix durham_prefix da_uid then Some "Durham"
  else if prefix york_prefix da_uid then Some "York"
  else None.

(** rows without an assigned region are removed *)
Definition with_region (df_da : list da_row) : list region_row :=
  flat_map (fun r => match assign_region_by_da (DA_UID r) with
                     | Some reg => [{| r_da := r; REGION_NAME := reg |}]
                     | None => []
                     end) df_da.

(** ** Baseline totals, census totals, proportions *)

Definition stratum_key (r : region_row) : option (string * string * string) :=
  Some (REGION_NAME r, AgeGroup (r_da r), Sex (r_da r)).

Definition baseline_region_totals (df_da : list region_row)
  : list (string * string * string * fval) :=
  groupby_sum stratum_key (fun r => Fin (Pop (r_da r))) df_da.

Definition region_age_sex_2021 : list (string * string * string * Q) :=
  [ ("Durham", "0-17", "M", 64230);   ("Durham", "0-17", "F", 61275);
    ("Durham", "18-44", "M", 112090); ("Durham", "18-44", "F", 115440);
    ("Durham", "45-64", "M", 92015);  ("Durham", "45-64", "F", 98190);
    ("Durham", "65-84", "M", 44930);  ("Durham", "65-84", "F", 52505);
    ("Durham", "85+", "M", 5085);     ("Durham", "85+", "F", 8560);
    ("York", "0-17", "M", 137415);    ("York", "0-17", "F", 129640);
    ("York", "18-44", "M", 178575);   ("York", "18-44", "F", 184805);
    ("York", "45-64", "M", 164490);   ("York", "45-64", "F", 179230);
    ("York", "65-84", "M", 82165);    ("York", "65-84", "F", 92990);
    ("York", "85+", "M", 9590);       ("York", "85+", "F", 14435) ].

Definition short_region_name (s : string) : string :=
  if s =? "Durham Region Health Department" then "Durham"
  else if s =? "York Region Public Health Services" then "York"
  else s.

Definition with_props (df_da : list region_row) : list prop_row :=
  let merged := merge_inner stratum_key fst df_da (baseline_region_totals df_da) in
  let renamed :=
    map (fun lr => ({| r_da := r_da (fst lr);
                       REGION_NAME := short_region_name (REGION_NAME (fst lr)) |},
                    snd (snd lr))) merged in
  map (fun lr =>
         let true_pop := match snd lr with
                         | Some kv => Fin (snd kv)
                         | None => NaN
                         end in
         {| q_da := fst (fst lr); Baseline_Region_Pop := snd (fst lr);
            True_Region_Pop_2021 := true_pop;
            Prop_DA_in_Region_2021 := fdiv (Fin (Pop (r_da (fst (fst lr))))) true_pop |})
      (merge_left (fun lb => stratum_key (fst lb)) fst renamed region_age_sex_2021).

(** ** Proportions times the regional projection *)

Definition region_name_map (s : string) : option string :=
  if s =? "Durham Region Health Department" then Some "Durham"
  else if s =? "York Region Public Health Services" then Some "York"
  else None.

Definition proj_join_key (r : proj_row) : option (string * string * string) :=
  match region_name_map (p_REGION_NAME r) with
  | Some short => Some (short, p_AgeGroup r, p_Sex r)
  | None => None
  end.

Definition da_join_key (r : prop_row) : string * string * string :=
  (REGION_NAME (q_da r), AgeGroup (r_da (q_da r)), Sex (r_da (q_da r))).

(** one row of [df_combined]: a projection row and its match among the DAs,
    if any *)
Definition combined_row_of (p : proj_row) (o : option prop_row) : combined_row :=
  let prop := match o with
              | Some d => Prop_DA_in_Region_2021 d
              | None => NaN
              end in
  {| c_proj := p;
     c_Region_Short := region_name_map (p_REGION_NAME p);
     c_DA_UID := option_map (fun d => DA_UID (r_da (q_da d))) o;
     c_Prop_DA_in_Region_2021 := prop;
     c_Projected_Pop := fmul (p_Pop p) prop |}.

Definition df_combined_of (df_proj : list proj_row) (df_da : list prop_row)
  : list combined_row :=
  map (fun lr => combined_row_of (fst lr) (snd lr))
      (merge_left proj_join_key da_join_key
         (filter (fun r => isin (p_AgeGroup r) target_age_groups) df_proj) df_da).

(** ** Step 5, "Validate totals": the sums are computed and left at that *)

Definition region_age_sex_year_totals2 (df_combined : list combined_row)
  : list (Z * string * string * string * fval) :=
  groupby_sum (fun r => proj_key (c_proj r)) c_Projected_Pop df_combined.

(** ** The same frames, row by row

    What the two merges of [with_props] give for one row, written without
    the merges: the census total of a stratum, and the finished row. *)

Definition census_total (k : string * string * string) : fval :=
  match hd_error (filter (fun kv => keqb k (fst kv)) region_age_sex_2021) with
  | Some kv => Fin (snd kv)
  | None => NaN
  end.

Definition stratum_of (r : region_row) : string * string * string :=
  (REGION_NAME r, AgeGroup (r_da r), Sex (r_da r)).

Definition prop_row_of (df_da : list region_row) (r : region_row) : prop_row :=
  let r' := {| r_da := r_da r; REGION_NAME := short_region_name (REGION_NAME r) |} in
  {| q_da := r';
     Baseline_Region_Pop :=
       nansum (map (fun x => Fin (Pop (r_da x)))
                   (group_rows stratum_key df_da (stratum_of r)));
     True_Region_Pop_2021 := census_total (stratum_of r');
     Prop_DA_in_Region_2021 := fdiv (Fin (Pop (r_da r))) (census_total (stratum_of r')) |}.

(** the population of a stratum of [df_da], and the sum of the proportions of
    its rows (the script computes neither; they are what a check of the
    proportions would compare) *)
Definition StratumTotal (df_da : list region_row) (k : string * string * string) : Q :=
  qsum (map (fun r => Pop (r_da r)) (group_rows stratum_key df_da k)).

Definition props_sum (df_da : list prop_row) (k : string * string * string) : fval :=
  nansum (map Prop_DA_in_Region_2021
              (group_rows (fun q => stratum_key (q_da q)) df_da k)).

(** the group of a projection row in the sums of step 5 *)
Definition year_stratum (r : proj_row) : Z * string * string * string :=
  (p_Year r, p_REGION_NAME r, p_AgeGroup r, p_Sex r).

(** the rows that one projection row gives in [df_combined] *)
Definition rows_for (D : list prop_row) (p : proj_row) : list combined_row :=
  match matches proj_join_key da_join_key D p with
  | [] => [combined_row_of p None]
  | ms => map (fun d => combined_row_of p (Some d)) ms
  end.

(** ** The script *)

Record output : Type := {
  df_combined : list combined_row;
  totals2 : list (Z * string * string * string * fval)
}.

Definition main (df_proj0 : list proj_row) (df_da0 : list da_row) : result output :=
  let df_proj := df_proj_grouped df_proj0 in
  let df_da := with_props (with_region df_da0) in
  let df_combined := df_combined_of df_proj df_da in
  Ok {| df_combined := df_combined;
        totals2 := region_age_sex_year_totals2 df_combined |}.

End Script2.

(* ================================================================== *)
(** * Approaches: 3 Different Mapping Approaches.py *)
(* ================================================================== *)

Module Approaches.
Import Frame.

(** ** Frames *)

(** [onmarg_df], sheet OnMarg2021: one quintile per dimension, NaN where the
    index was not computed for the DA *)
Record onmarg_row : Type := {
  DAUID : string;
  households_dwellings_q_DA21 : option Z;
  material_resources_q_DA21 : option Z;
  age_labourforce_q_DA21 : option Z;
  racialized_NC_pop_q_DA21 : option Z
}.

(** [da_fsa_df], DA_FSA_Proportions.csv *)
Record da_fsa_row : Type := {
  DAuid : string;
  FSA : option string;
  Proportion : option Q;
  DominantFSA : option string
}.

(** [pop_df], data.csv *)
Record pop_row : Type := {
  DA_UID : string;
  Sum_of_Pop : option Q
}.

(** [final_df]: population and dominant FSA present *)
Record final_row : Type := {
  f_onmarg : onmarg_row;
  f_Sum_of_Pop : Q;
  f_DominantFSA : string
}.

(** [prop_df] of approach 3 *)
Record alloc_row : Type := {
  l_onmarg : onmarg_row;
  l_Sum_of_Pop : fval;
  l_FSA : option string;
  l_Proportion : fval;
  Allocated_Population : fval
}.

(** a row of [da_analysis] *)
Record count_row : Type := {
  n_DominantFSA : string;
  n_Quintile : Z;
  DA_Count : nat;
  Total_DAs : nat;
  DA_Proportion : fval;
  DA_Percentage : fval
}.

(** a row of [pop_analysis]; [a_Pop] is the column [Sum of Pop] in approach 2
    and [Allocated_Population] in approach 3 *)
Record pop_analysis_row : Type := {
  a_FSA : string;
  a_Quintile : Z;
  a_Pop : fval;
  Total_Population : fval;
  Pop_Percentage : fval
}.

(** ** Dimensions *)

Definition dimensions : list string :=
  [ "households_dwellings_q_DA21"; "material_resources_q_DA21";
    "age_labourforce_q_DA21"; "racialized_NC_pop_q_DA21" ].

Definition dimension_names : list string :=
  [ "Residential_Instability"; "Material_Deprivation";
    "Dependency"; "Ethnic_Concentration" ].

(** [df[dim_col]] on a row *)
Definition column (dim_col : string) (r : onmarg_row) : option Z :=
  if dim_col =? "households_dwellings_q_DA21" then households_dwellings_q_DA21 r
  else if dim_col =? "material_resources_q_DA21" then material_resources_q_DA21 r
  else if dim_col =? "age_labourforce_q_DA21" then age_labourforce_q_DA21 r
  else if dim_col =? "racialized_NC_pop_q_DA21" then racialized_NC_pop_q_DA21 r
  else None.

(** ** Steps 3 and 4: population and dominant FSA of each DA *)

Definition onmarg_with_pop (onmarg_df : list onmarg_row) (pop_df : list pop_row)
  : list (onmarg_row * Q) :=
  flat_map (fun lr => match snd lr with
                      | Some p => match Sum_of_Pop p with
                                  | Some v => [(fst lr, v)]
                                  | None => []
                                  end
                      | None => []
                      end)
           (merge_left (fun r => Some (DAUID r)) DA_UID onmarg_df pop_df).

Definition da_to_dominant_fsa (da_fsa_df : list da_fsa_row)
  : list (string * option string) :=
  unique (map (fun r => (DAuid r, DominantFSA r)) da_fsa_df).

Definition final_df_of (onmarg_df : list onmarg_row) (da_fsa_df : list da_fsa_row)
           (pop_df : list pop_row) : list final_row :=
  flat_map (fun lr => match snd lr with
                      | Some (_, Some fsa) =>
                          [{| f_onmarg := fst (fst lr); f_Sum_of_Pop := snd (fst lr);
                              f_DominantFSA := fsa |}]
                      | _ => []
                      end)
           (merge_left (fun r => Some (DAUID (fst r))) fst
                       (onmarg_with_pop onmarg_df pop_df)
                       (da_to_dominant_fsa da_fsa_df)).

(** ** Approach 1: DA counts by quintile *)

Definition fsa_quintile_key (dim_col : string) (r : final_row) : option (string * Z) :=
  match column dim_col (f_onmarg r) with
  | Some q => Some (f_DominantFSA r, q)
  | None => None
  end.

Definition fsa_key (r : final_row) : option string := Some (f_DominantFSA r).

Definition of_nat (n : nat) : fval := Fin (inject_Z (Z.of_nat n)).

Definition da_analysis_of (dim_col : string) (df : list final_row) : list count_row :=
  let da_counts := groupby_size (fsa_quintile_key dim_col) df in
  let fsa_totals := groupby_size fsa_key df in
  map (fun lr =>
         let proportion := fdiv (of_nat (snd (fst lr))) (of_nat (snd (snd lr))) in
         {| n_DominantFSA := fst (fst (fst lr)); n_Quintile := snd (fst (fst lr));
            DA_Count := snd (fst lr); Total_DAs := snd (snd lr);
            DA_Proportion := proportion;
            DA_Percentage := fmul proportion (Fin 100) |})
      (merge_inner (fun c => Some (fst (fst c))) fst da_counts fsa_totals).

(** the loop over [enumerate(dimensions)] with [dimension_names[i]]; the
    script passes two lists of four names *)
Definition calculate_da_counts_approach (df : list final_row)
           (dimensions dimension_names : list string)
  : list (string * list count_row) :=
  map (fun dn => (snd dn, da_analysis_of (fst dn) df))
      (combine dimensions dimension_names).

(** ** Approach 2: population by quintile within the dominant FSA *)

Definition pop_analysis_rows (pop_by_quintile : list (string * Z * fval))
           (fsa_pop_totals : list (string * fval)) : list pop_analysis_row :=
  map (fun lr =>
         {| a_FSA := fst (fst (fst lr)); a_Quintile := snd (fst (fst lr));
            a_Pop := snd (fst lr); Total_Population := snd (snd lr);
            Pop_Percentage := fmul (fdiv (snd (fst lr)) (snd (snd lr))) (Fin 100) |})
      (merge_inner (fun c => Some (fst (fst c))) fst pop_by_quintile fsa_pop_totals).

Definition dominant_pop_analysis (dim_col : string) (df : list final_row)
  : list pop_analysis_row :=
  pop_analysis_rows
    (groupby_sum (fsa_quintile_key dim_col) (fun r => Fin (f_Sum_of_Pop r)) df)
    (groupby_sum fsa_key (fun r => Fin (f_Sum_of_Pop r)) df).

Definition calculate_dominant_pop_approach (df : list final_row)
           (dimensions dimension_names : list string)
  : list (string * list pop_analysis_row) :=
  map (fun dn => (snd dn, dominant_pop_analysis (fst dn) df))
      (combine dimensions dimension_names).

(** ** Approach 3: proportional allocation across FSAs *)

Definition prop_df_of (onmarg_df : list onmarg_row) (pop_df : list pop_row)
           (da_fsa_df : list da_fsa_row) : list alloc_row :=
  let base_df := merge_inner (fun r => Some (DAUID r)) DA_UID onmarg_df pop_df in
  map (fun lr =>
         let pop := of_option (Sum_of_Pop (snd (fst lr))) in
         let proportion := of_option (Proportion (snd lr)) in
         {| l_onmarg := fst (fst lr); l_Sum_of_Pop := pop; l_FSA := FSA (snd lr);
            l_Proportion := proportion;
            Allocated_Population := fmul pop proportion |})
      (merge_inner (fun b => Some (DAUID (fst b))) DAuid base_df da_fsa_df).

Definition alloc_quintile_key (dim_col : string) (r : alloc_row) : option (string * Z) :=
  match l_FSA r, column dim_col (l_onmarg r) with
  | Some f, Some q => Some (f, q)
  | _, _ => None
  end.

Definition proportional_analysis (dim_col : string) (prop_df : list alloc_row)
  : list pop_analysis_row :=
  pop_analysis_rows
    (groupby_sum (alloc_quintile_key dim_col) Allocated_Population prop_df)
    (groupby_sum l_FSA Allocated_Population prop_df).

Definition calculate_proportional_approach (onmarg_df : list onmarg_row)
           (pop_df : list pop_row) (da_fsa_df : list da_fsa_row)
           (dimensions dimension_names : list string)
  : list (string * list pop_analysis_row) * list alloc_row :=
  let prop_df := prop_df_of onmarg_df pop_df da_fsa_df in
  (map (fun dn => (snd dn, proportional_analysis (fst dn) prop_df))
       (combine dimensions dimension_names),
   prop_df).

(** ** The analysis frames, group by group

    The row that the merge of the two groupbys gives for one (FSA, quintile)
    group, written without the merge. *)

Definition count_row_of (dim_col : string) (df : list final_row) (k : string * Z)
  : count_row :=
  let count := List.length (group_rows (fsa_quintile_key dim_col) df k) in
  let total := List.length (group_rows fsa_key df (fst k)) in
  {| n_DominantFSA := fst k; n_Quintile := snd k;
     DA_Count := count; Total_DAs := total;
     DA_Proportion := fdiv (of_nat count) (of_nat total);
     DA_Percentage := fmul (fdiv (of_nat count) (of_nat total)) (Fin 100) |}.

Definition pop_analysis_row_of {R} (fkey : R -> option string)
           (fqkey : R -> option (string * Z)) (val : R -> fval) (rows : list R)
           (k : string * Z) : pop_analysis_row :=
  let pop := nansum (map val (group_rows fqkey rows k)) in
  let total := nansum (map val (group_rows fkey rows (fst k))) in
  {| a_FSA := fst k; a_Quintile := snd k; a_Pop := pop; Total_Population := total;
     Pop_Percentage := fmul (fdiv pop total) (Fin 100) |}.

(** the keys of the groups of one FSA *)
Definition keys_of {R} (fqkey : R -> option (string * Z)) (rows : list R) (f : string)
  : list (string * Z) :=
  filter (fun k => keqb (fst k) f) (group_keys fqkey rows).



(** ** Validation printed after approaches 2 and 3 *)

(** [result.groupby(fsa)['Pop_Percentage'].sum()]: should be about 100 *)
Definition pct_sums (result : list pop_analysis_row) : list (string * fval) :=
  groupby_sum (fun r => Some (a_FSA r)) Pop_Percentage result.


(** ** Validation printed after approach 1 *)

(** [result.groupby('DominantFSA')['DA_Count'].sum()] *)
Definition total_das_check (result : list count_row) : list (string * nat) :=
  map (fun f => (f, list_sum (map DA_Count
                                  (group_rows (fun r => Some (n_DominantFSA r)) result f))))
      (group_keys (fun r => Some (n_DominantFSA r)) result).

(** [result.groupby('DominantFSA')['Total_DAs'].first()] *)
Definition total_das_original (result : list count_row) : list (string * nat) :=
  map (fun f => (f, match group_rows (fun r => Some (n_DominantFSA r)) result f with
                    | r :: _ => Total_DAs r
                    | [] => 0%nat
                    end))
      (group_keys (fun r => Some (n_DominantFSA r)) result).

(** [(total_das_check == total_das_original).all()]: the two series have the
    same index *)
Definition da_count_validation (result : list count_row) : bool :=
  forallb (fun p => Nat.eqb (snd (fst p)) (snd (snd p)))
          (combine (total_das_check result) (total_das_original result)).

(** ** Totals printed by approach 3 *)



(** ** Approach 2 and its validation in binary64 *)





End Approaches.

(* ================================================================== *)
(** * Small inputs used to evaluate the scripts *)
(* ================================================================== *)

Module Examples.
Import Frame.

Definition da1 (uid ag sex : string) (pop : Q) : Script1.da_row :=
  {| Script1.DA_UID := uid; Script1.AgeGroup := ag; Script1.Sex := sex;
     Script1.Pop := pop; Script1.DA_prefix := ""; Script1.Region := "" |}.

Definition proj1 (year : Z) (region : string) (age : Z) (sex : string) (pop : Q)
  : Script1.proj_row :=
  {| Script1.p_YEAR := year; Script1.p_REGION_NAME := region;
     Script1.p_Age_numeric := Some age; Script1.p_Sex := sex; Script1.p_Pop := pop |}.

(** two DAs, A = 35180001 with 60 and B = 35180002 with 40, in Durham,
    boys 0-17 *)
Definition two_units : list Script1.da_row :=
  [ da1 "35180001" "0-17" "M" 60; da1 "35180002" "0-17" "M" 40 ].

(** Durham, boys 0-17, year 2030: 200 aged 5 and 300 aged 12, 500 in all *)
Definition target_500 : list Script1.proj_row :=
  [ proj1 2030 "Durham Region Health Department" 5 "M" 200;
    proj1 2030 "Durham Region Health Department" 12 "M" 300 ].

(** a Durham DA and a York DA; the year 2030 is projected for Durham only *)
Definition durham_and_york : list Script1.da_row :=
  [ da1 "35180001" "0-17" "M" 60; da1 "35190002" "0-17" "M" 40 ].

(** a DA without population, alone in its stratum *)
Definition empty_stratum : list Script1.da_row :=
  [ da1 "35180001" "0-17" "M" 0 ].

(** the second script: one Durham DA with 100 boys 0-17, and the regional
    projection of 500 boys 0-17 for 2030 *)
Definition one_durham_da : list Script2.da_row :=
  [ {| Script2.DA_UID := "35180001"; Script2.AgeGroup := "0-17";
       Script2.Sex := "M"; Script2.Pop := 100 |} ].

Definition durham_500 : list Script2.proj_row :=
  [ {| Script2.p_Year := 2030;
       Script2.p_REGION_NAME := "Durham Region Health Department";
       Script2.p_AgeGroup := "0-17"; Script2.p_Sex := "M";
       Script2.p_Pop := Fin 500 |} ].

(** the three approaches: DAs of one FSA *)
Definition final1 (uid : string) (quintile : option Z) (pop : Q) (fsa : string)
  : Approaches.final_row :=
  {| Approaches.f_onmarg :=
       {| Approaches.DAUID := uid;
          Approaches.households_dwellings_q_DA21 := quintile;
          Approaches.material_resources_q_DA21 := quintile;
          Approaches.age_labourforce_q_DA21 := quintile;
          Approaches.racialized_NC_pop_q_DA21 := quintile |};
     Approaches.f_Sum_of_Pop := pop;
     Approaches.f_DominantFSA := fsa |}.

(** an FSA whose two DAs have no population *)
Definition empty_fsa : list Approaches.final_row :=
  [ final1 "35180001" (Some 1%Z) 0 "L1A"; final1 "35180002" (Some 2%Z) 0 "L1A" ].

(** an FSA with unequal DAs, 10 and 30 in quintile 1, 20 and 20 in quintile 2 *)
Definition unequal_units : list Approaches.final_row :=
  [ final1 "35180001" (Some 1%Z) 10 "L1A"; final1 "35180002" (Some 1%Z) 30 "L1A";
    final1 "35180003" (Some 2%Z) 20 "L1A"; final1 "35180004" (Some 2%Z) 20 "L1A" ].

(** an FSA with populations 10 and 30 in two quintiles *)
Definition two_quintiles : list Approaches.final_row :=
  [ final1 "35180001" (Some 1%Z) 10 "L1A"; final1 "35180002" (Some 2%Z) 30 "L1A" ].

(** the three source frames: two DAs with 10 and 30 people; the first lies
    in two FSAs, three quarters in its dominant one *)
Definition onmarg1 (uid : string) (quintile : option Z) : Approaches.onmarg_row :=
  {| Approaches.DAUID := uid;
     Approaches.households_dwellings_q_DA21 := quintile;
     Approaches.material_resources_q_DA21 := quintile;
     Approaches.age_labourforce_q_DA21 := quintile;
     Approaches.racialized_NC_pop_q_DA21 := quintile |}.

Definition onmarg_two : list Approaches.onmarg_row :=
  [ onmarg1 "35180001" (Some 1%Z); onmarg1 "35180002" (Some 2%Z) ].

Definition pop_two : list Approaches.pop_row :=
  [ {| Approaches.DA_UID := "35180001"; Approaches.Sum_of_Pop := Some 10 |};
    {| Approaches.DA_UID := "35180002"; Approaches.Sum_of_Pop := Some 30 |} ].

Definition da_fsa_two : list Approaches.da_fsa_row :=
  [ {| Approaches.DAuid := "35180001"; Approaches.FSA := Some "L1A";
       Approaches.Proportion := Some (3 # 4); Approaches.DominantFSA := Some "L1A" |};
    {| Approaches.DAuid := "35180001"; Approaches.FSA := Some "L1B";
       Approaches.Proportion := Some (1 # 4); Approaches.DominantFSA := Some "L1A" |};
    {| Approaches.DAuid := "35180002"; Approaches.FSA := Some "L1A";
       Approaches.Proportion := Some 1; Approaches.DominantFSA := Some "L1A" |} ].



End Examples.

(* ================================================================== *)
(** * Facts about the frame operations *)
(* ================================================================== *)

Module FrameFacts.
Import Frame.

Section Keys.
Context {K : Type} `{Key K}.

Lemma keqb_eq (a b : K) : keqb a b = true <-> a = b.
Proof. destruct (keqb_spec a b); split; congruence. Qed.

Lemma keqb_refl (a : K) : keqb a a = true.
Proof. now apply keqb_eq. Qed.

Lemma keqb_neq (a b : K) : keqb a b = false <-> a <> b.
Proof. destruct (keqb_spec a b); split; congruence. Qed.

Lemma okeqb_eq (a : option K) (b : K) : okeqb a b = true <-> a = Some b.
Proof.
  destruct a as [x|]; simpl.
  - rewrite keqb_eq. split; congruence.
  - split; discriminate.
Qed.

Lemma In_unique (x : K) (l : list K) : In x (unique l) <-> In x l.
Proof.
  induction l as [|y t IH]; simpl; [tauto|].
  rewrite filter_In, IH.
  destruct (keqb_spec y x) as [->|Hne]; simpl; intuition congruence.
Qed.

Lemma NoDup_unique (l : list K) : NoDup (unique l).
Proof.
  induction l as [|y t IH]; simpl; constructor.
  - rewrite filter_In, keqb_refl. simpl. intros [_ Hf]. discriminate.
  - now apply NoDup_filter.
Qed.

Lemma In_insert_key (x y : K) (l : list K) :
  In x (insert_key y l) <-> x = y \/ In x l.
Proof.
  induction l as [|z t IH]; simpl.
  - intuition congruence.
  - destruct (kleb y z); simpl; rewrite ?IH; intuition congruence.
Qed.

Lemma In_sort_keys (x : K) (l : list K) : In x (sort_keys l) <-> In x l.
Proof.
  induction l as [|y t IH]; simpl; [tauto|].
  rewrite In_insert_key, IH. intuition congruence.
Qed.

Lemma NoDup_insert_key (y : K) (l : list K) :
  ~ In y l -> NoDup l -> NoDup (insert_key y l).
Proof.
  induction l as [|z t IH]; simpl; intros Hn Hd.
  - constructor; [tauto | constructor].
  - destruct (kleb y z).
    + constructor; simpl; tauto.
    + inversion Hd as [|? ? Hz Ht]; subst.
      constructor.
      * rewrite In_insert_key. intros [->|Hin]; tauto.
      * apply IH; tauto.
Qed.

Lemma NoDup_sort_keys (l : list K) : NoDup l -> NoDup (sort_keys l).
Proof.
  induction 1 as [|y t Hn Hd IH]; simpl; [constructor|].
  apply NoDup_insert_key; [now rewrite In_sort_keys | exact IH].
Qed.

End Keys.

Lemma In_somes {A} (x : A) (l : list (option A)) : In x (somes l) <-> In (Some x) l.
Proof.
  induction l as [|[y|] t IH]; simpl; rewrite ?IH; intuition congruence.
Qed.

Section Groups.
Context {R K : Type} `{Key K}.
Variable key : R -> option K.

Lemma In_group_keys (k : K) (rows : list R) :
  In k (group_keys key rows) <-> exists r, In r rows /\ key r = Some k.
Proof.
  unfold group_keys. rewrite In_sort_keys, In_unique, In_somes, in_map_iff.
  split; intros [r Hr]; exists r; tauto.
Qed.

Lemma NoDup_group_keys (rows : list R) : NoDup (group_keys key rows).
Proof. apply NoDup_sort_keys, NoDup_unique. Qed.

Lemma In_group_rows (r : R) (rows : list R) (k : K) :
  In r (group_rows key rows k) <-> In r rows /\ key r = Some k.
Proof. unfold group_rows. now rewrite filter_In, okeqb_eq. Qed.

End Groups.

(** a key of a list without duplicates selects exactly its own entry *)
Lemma filter_key_singleton {K V} `{Key K} (f : K -> V) (k : K) (ks : list K) :
  NoDup ks -> In k ks ->
  filter (fun kv => keqb k (fst kv)) (map (fun k' => (k', f k')) ks) = [(k, f k)].
Proof.
  induction 1 as [|y t Hn Hd IH]; simpl; [tauto|].
  intros [->|Hin].
  - rewrite keqb_refl. f_equal.
    clear IH Hd. induction t as [|z t IH]; simpl; [reflexivity|].
    destruct (keqb_spec k z) as [->|Hne]; [simpl in Hn; tauto|].
    apply IH. simpl in Hn. tauto.
  - destruct (keqb_spec k y) as [->|Hne]; [tauto|]. now apply IH.
Qed.

Lemma filter_key_absent {K V} `{Key K} (f : K -> V) (k : K) (ks : list K) :
  ~ In k ks ->
  filter (fun kv => keqb k (fst kv)) (map (fun k' => (k', f k')) ks) = [].
Proof.
  induction ks as [|y t IH]; simpl; [reflexivity|]. intros Hn.
  destruct (keqb_spec k y) as [->|Hne]; [tauto|]. apply IH. tauto.
Qed.

(** ** Sums *)

Lemma nansum_cons (v : fval) (l : list fval) :
  nansum (v :: l) = match v with NaN => nansum l | _ => fadd v (nansum l) end.
Proof. reflexivity. Qed.

Lemma nansum_Fin (l : list Q) : nansum (map Fin l) = Fin (qsum l).
Proof.
  induction l as [|x t IH]; [reflexivity|].
  cbn [map]. rewrite nansum_cons, IH. reflexivity.
Qed.

Lemma qsum_cons (x : Q) (l : list Q) : qsum (x :: l) = x + qsum l.
Proof. reflexivity. Qed.

Lemma qsum_nil : qsum [] = 0.
Proof. reflexivity. Qed.

Lemma qsum_app (l1 l2 : list Q) : qsum (l1 ++ l2) == qsum l1 + qsum l2.
Proof.
  induction l1 as [|x t IH]; simpl; [ring | rewrite IH; ring].
Qed.

Lemma qsum_scale (c : Q) {A} (f : A -> Q) (l : list A) :
  qsum (map (fun a => f a * c) l) == qsum (map f l) * c.
Proof.
  induction l as [|x t IH]; simpl; [ring | rewrite IH; ring].
Qed.

Lemma qsum_ext {A} (f g : A -> Q) (l : list A) :
  (forall a, In a l -> f a == g a) -> qsum (map f l) == qsum (map g l).
Proof.
  induction l as [|x t IH]; simpl; intros Hfg; [reflexivity|].
  rewrite (Hfg x), IH by auto. reflexivity.
Qed.

Lemma qsum_zero {A} (f : A -> Q) (l : list A) :
  (forall a, In a l -> f a == 0) -> qsum (map f l) == 0.
Proof.
  induction l as [|x t IH]; simpl; intros Hf; [reflexivity|].
  rewrite (Hf x), IH by auto. ring.
Qed.

(** ** Comparisons of finite cells *)

Lemma fltb_Fin_true (x y : Q) : fltb (Fin x) (Fin y) = true <-> x < y.
Proof.
  unfold fltb. rewrite Qlt_alt. destruct (x ?= y); split; congruence.
Qed.

Lemma fltb_Fin_false (x y : Q) : fltb (Fin x) (Fin y) = false <-> y <= x.
Proof.
  split.
  - intros Hf. apply Qnot_lt_le. intros Hlt.
    apply fltb_Fin_true in Hlt. congruence.
  - intros Hle. destruct (fltb (Fin x) (Fin y)) eqn:E; [|reflexivity].
    apply fltb_Fin_true in E. exfalso. now apply (Qle_not_lt y x).
Qed.

End FrameFacts.

(* ================================================================== *)
(** * Merging onto a frame whose keys are distinct *)
(* ================================================================== *)

Module MergeFacts.
Import Frame FrameFacts.

Section Keyed.
Context {L K V : Type} `{Key K}.
Variable lkey : L -> option K.

(** a right frame with one row per key, as a groupby produces it *)
Lemma matches_keyed (F : K -> V) (ks : list K) (l : L) (k : K) :
  NoDup ks -> In k ks -> lkey l = Some k ->
  matches lkey fst (map (fun k' => (k', F k')) ks) l = [(k, F k)].
Proof.
  intros Hd Hin Hk. unfold matches. rewrite Hk. simpl.
  now apply filter_key_singleton.
Qed.

Lemma matches_keyed_absent (F : K -> V) (ks : list K) (l : L) :
  (forall k, lkey l = Some k -> ~ In k ks) ->
  matches lkey fst (map (fun k' => (k', F k')) ks) l = [].
Proof.
  intros Hk. unfold matches. destruct (lkey l) as [k|] eqn:E; simpl.
  - apply filter_key_absent. now apply Hk.
  - clear Hk. induction ks as [|y t IH]; simpl; auto.
Qed.

(** distinct keys on the right: at most one match *)
Lemma matches_at_most_one (right : list (K * V)) (l : L) :
  NoDup (map fst right) -> (List.length (matches lkey fst right l) <= 1)%nat.
Proof.
  unfold matches. destruct (lkey l) as [k|]; simpl.
  - induction right as [|[y v] t IH]; simpl; intros Hd; [lia|].
    inversion Hd as [|? ? Hn Hd']; subst.
    destruct (keqb_spec k y) as [->|Hne]; simpl; [|now apply IH].
    assert (Hnil : filter (fun r : K * V => keqb y (fst r)) t = []).
    { clear IH Hd Hd'. induction t as [|[z w] t IH]; simpl; [reflexivity|].
      simpl in Hn. destruct (keqb_spec y z) as [->|Hne]; [tauto|].
      apply IH. tauto. }
    rewrite Hnil. simpl. lia.
  - intros _. induction right as [|y t IH]; simpl; [lia | exact IH].
Qed.

End Keyed.

Section Merges.
Context {L R K : Type} `{Key K}.
Variable lkey : L -> option K.
Variable rkey : R -> K.

Lemma merge_left_at_most_one (left : list L) (right : list R) :
  (forall l, In l left -> (List.length (matches lkey rkey right l) <= 1)%nat) ->
  merge_left lkey rkey left right
  = map (fun l => (l, hd_error (matches lkey rkey right l))) left.
Proof.
  induction left as [|l t IH]; simpl; intros Hm; [reflexivity|].
  rewrite <- IH by auto.
  specialize (Hm l (or_introl eq_refl)).
  destruct (matches lkey rkey right l) as [|r [|r' ms]]; simpl in *; auto; lia.
Qed.

Lemma merge_inner_singleton (g : L -> R) (left : list L) (right : list R) :
  (forall l, In l left -> matches lkey rkey right l = [g l]) ->
  merge_inner lkey rkey left right = map (fun l => (l, g l)) left.
Proof.
  unfold merge_inner.
  induction left as [|l t IH]; intros Hm; [reflexivity|].
  cbn [flat_map map]. rewrite (Hm l (or_introl eq_refl)), IH.
  - reflexivity.
  - intros l' Hl'. apply Hm. now right.
Qed.

Lemma In_merge_left (left : list L) (right : list R) (x : L * option R) :
  In x (merge_left lkey rkey left right) <->
  In (fst x) left /\
  match snd x with
  | Some r => In r right /\ lkey (fst x) = Some (rkey r)
  | None => matches lkey rkey right (fst x) = []
  end.
Proof.
  unfold merge_left. rewrite in_flat_map. destruct x as [l o]. simpl. split.
  - intros [l' [Hl' Hx]].
    destruct (matches lkey rkey right l') as [|m ms] eqn:E.
    + destruct Hx as [Hx|[]]. inversion Hx; subst. tauto.
    + change (In (l, o) (map (fun r => (l', Some r)) (m :: ms))) in Hx.
      rewrite in_map_iff in Hx. destruct Hx as [r [Hr Hin]].
      inversion Hr; subst. split; [assumption|].
      rewrite <- E in Hin. unfold matches in Hin.
      rewrite filter_In, okeqb_eq in Hin. exact Hin.
  - intros [Hl Ho]. exists l. split; [assumption|].
    destruct o as [r|].
    + assert (Hin : In r (matches lkey rkey right l)).
      { unfold matches. rewrite filter_In, okeqb_eq. exact Ho. }
      destruct (matches lkey rkey right l) as [|m ms]; [destruct Hin|].
      change (In (l, Some r) (map (fun r => (l, Some r)) (m :: ms))).
      rewrite in_map_iff. exists r. tauto.
    + rewrite Ho. now left.
Qed.


End Merges.

(** a list that [unique] leaves alone has no duplicates *)
Lemma unique_fixed_NoDup {K} `{Key K} (l : list K) : unique l = l -> NoDup l.
Proof. intros E. rewrite <- E. apply NoDup_unique. Qed.

End MergeFacts.

Import Frame.

(* ================================================================== *)
(** * Age groups (both projection scripts) *)
(* ================================================================== *)

Lemma map_single_year_same (age : Z) :
  Script2.map_single_year_to_custom_group age
  = Script1.map_single_year_to_custom_group age.
Proof. reflexivity. Qed.

(** the tests of the function, read off one after the other *)
Lemma map_single_year_cases (age : Z) :
  let g := Script1.map_single_year_to_custom_group age in
  (g = "0-17" /\ (0 <= age <= 17)%Z) \/
  (g = "18-44" /\ (18 <= age <= 44)%Z) \/
  (g = "45-64" /\ (45 <= age <= 64)%Z) \/
  (g = "65-84" /\ (65 <= age <= 84)%Z) \/
  (g = "85+" /\ (85 <= age)%Z) \/
  (g = "Unknown" /\ (age < 0)%Z).
Proof.
  cbv zeta. unfold Script1.map_single_year_to_custom_group.
  destruct ((0 <=? age) && (age <=? 17))%Z eqn:E1.
  { left. apply andb_true_iff in E1. rewrite !Z.leb_le in E1.
    split; [reflexivity | lia]. }
  destruct ((18 <=? age) && (age <=? 44))%Z eqn:E2.
  { right; left. apply andb_true_iff in E2. rewrite !Z.leb_le in E2.
    split; [reflexivity | lia]. }
  destruct ((45 <=? age) && (age <=? 64))%Z eqn:E3.
  { right; right; left. apply andb_true_iff in E3. rewrite !Z.leb_le in E3.
    split; [reflexivity | lia]. }
  destruct ((65 <=? age) && (age <=? 84))%Z eqn:E4.
  { right; right; right; left.
    apply andb_true_iff in E4. rewrite !Z.leb_le in E4.
    split; [reflexivity | lia]. }
  destruct (age >=? 85)%Z eqn:E5.
  { right; right; right; right; left. rewrite Z.geb_le in E5. split; [reflexivity | lia]. }
  right; right; right; right; right. split; [reflexivity|].
  apply andb_false_iff in E1. apply andb_false_iff in E2.
  apply andb_false_iff in E3. apply andb_false_iff in E4.
  rewrite !Z.leb_gt in *. rewrite Z.geb_leb, Z.leb_gt in E5. lia.
Qed.

Lemma map_single_year_unknown (age : Z) :
  Script1.map_single_year_to_custom_group age = "Unknown" <-> (age < 0)%Z.
Proof.
  destruct (map_single_year_cases age) as [[E H]|[[E H]|[[E H]|[[E H]|[[E H]|[E H]]]]]];
    rewrite E; split; intros; try discriminate; try lia; reflexivity.
Qed.

(** C10.  For every non-negative integer age the mapping returns one of the
    five labels 0-17, 18-44, 45-64, 65-84, 85+, each label exactly on its own
    range (so the ranges are disjoint and cover the non-negative integers);
    Unknown is returned exactly for the negative integers; and the function of
    the second script is the same function. *)
Theorem map_single_year_to_custom_group_partition (age : Z) (Hage : (0 <= age)%Z) :
  let g := Script1.map_single_year_to_custom_group age in
  In g ["0-17"; "18-44"; "45-64"; "65-84"; "85+"] /\
  (g = "0-17" <-> (0 <= age <= 17)%Z) /\
  (g = "18-44" <-> (18 <= age <= 44)%Z) /\
  (g = "45-64" <-> (45 <= age <= 64)%Z) /\
  (g = "65-84" <-> (65 <= age <= 84)%Z) /\
  (g = "85+" <-> (85 <= age)%Z) /\
  g <> "Unknown" /\
  (forall a : Z, Script1.map_single_year_to_custom_group a = "Unknown" <-> (a < 0)%Z) /\
  (forall a : Z, Script2.map_single_year_to_custom_group a
                 = Script1.map_single_year_to_custom_group a).
Proof.
  cbv zeta.
  assert (Hlabels :
    In (Script1.map_single_year_to_custom_group age)
       ["0-17"; "18-44"; "45-64"; "65-84"; "85+"] /\
    (Script1.map_single_year_to_custom_group age = "0-17" <-> (0 <= age <= 17)%Z) /\
    (Script1.map_single_year_to_custom_group age = "18-44" <-> (18 <= age <= 44)%Z) /\
    (Script1.map_single_year_to_custom_group age = "45-64" <-> (45 <= age <= 64)%Z) /\
    (Script1.map_single_year_to_custom_group age = "65-84" <-> (65 <= age <= 84)%Z) /\
    (Script1.map_single_year_to_custom_group age = "85+" <-> (85 <= age)%Z) /\
    Script1.map_single_year_to_custom_group age <> "Unknown").
  { destruct (map_single_year_cases age)
      as [[E H]|[[E H]|[[E H]|[[E H]|[[E H]|[E H]]]]]]; rewrite E;
      (split; [simpl; try tauto; exfalso; lia|]);
      repeat split; intros; try discriminate; try lia; try reflexivity. }
  destruct Hlabels as (H0 & H1 & H2 & H3 & H4 & H5 & H6).
  repeat (split; [assumption|]).
  split; [exact map_single_year_unknown | exact map_single_year_same].
Qed.

Lemma map_single_year_to_custom_group_partition_witness :
  (0 <= 30)%Z /\
  Script1.map_single_year_to_custom_group 30 = "18-44" /\
  Script1.map_single_year_to_custom_group 30 <> "Unknown".
Proof.
  assert (H30 : (0 <= 30)%Z) by lia.
  pose proof (map_single_year_to_custom_group_partition 30 H30) as H.
  cbv zeta in H.
  destruct H as (_ & _ & [_ H18] & _ & _ & _ & Hu & _).
  split; [exact H30 | split; [apply H18; lia | exact Hu]].
Defined.

(* ================================================================== *)
(** * Region of a DA in the second script *)
(* ================================================================== *)

Module Script2Facts.
Import Frame FrameFacts MergeFacts Script2.

Lemma census_keys_distinct : NoDup (map fst region_age_sex_2021).
Proof. apply unique_fixed_NoDup. vm_compute. reflexivity. Qed.

Lemma with_region_rows (df_da : list da_row) :
  map r_da (with_region df_da)
  = filter (fun r => prefix "3518" (DA_UID r) || prefix "3519" (DA_UID r)) df_da.
Proof.
  unfold with_region, assign_region_by_da, durham_prefix, york_prefix.
  induction df_da as [|r t IH]; [reflexivity|].
  cbn [flat_map filter].
  destruct (prefix "3518" (DA_UID r)); [cbn; now rewrite IH|].
  destruct (prefix "3519" (DA_UID r)); cbn; now rewrite IH.
Qed.

Lemma with_region_name (df_da : list da_row) (x : region_row) :
  In x (with_region df_da) ->
  In (r_da x) df_da /\ assign_region_by_da (DA_UID (r_da x)) = Some (REGION_NAME x).
Proof.
  unfold with_region. rewrite in_flat_map. intros [r [Hr Hx]].
  destruct (assign_region_by_da (DA_UID r)) as [reg|] eqn:E; [|destruct Hx].
  destruct Hx as [<-|[]]. simpl. now rewrite E.
Qed.

Lemma assigned_short (uid reg : string) :
  assign_region_by_da uid = Some reg -> short_region_name reg = reg.
Proof.
  unfold assign_region_by_da.
  destruct (prefix durham_prefix uid); [intros [= <-]; reflexivity|].
  destruct (prefix york_prefix uid); [intros [= <-]; reflexivity | discriminate].
Qed.

(** the two merges keep every row exactly once *)
Lemma with_props_rows (df_da : list region_row) :
  with_props df_da = map (prop_row_of df_da) df_da.
Proof.
  unfold with_props.
  rewrite (merge_inner_singleton stratum_key fst
             (fun l => (stratum_of l,
                        nansum (map (fun x => Fin (Pop (r_da x)))
                                    (group_rows stratum_key df_da (stratum_of l)))))).
  - rewrite merge_left_at_most_one.
    + rewrite !map_map. apply map_ext. intros l.
      unfold prop_row_of, census_total, matches.
      generalize region_age_sex_2021. intros table.
      cbn [fst snd r_da REGION_NAME stratum_of stratum_key okeqb]. reflexivity.
    + intros l _. apply matches_at_most_one, census_keys_distinct.
  - intros l Hl. unfold baseline_region_totals, groupby_sum.
    apply (matches_keyed stratum_key
             (fun k => nansum (map (fun x => Fin (Pop (r_da x)))
                                   (group_rows stratum_key df_da k)))).
    + apply NoDup_group_keys.
    + apply In_group_keys. exists l. split; [assumption | reflexivity].
    + reflexivity.
Qed.

End Script2Facts.

(** C9.  In the second script a DA whose identifier starts with 3518 goes to
    Durham and one that starts with 3519 goes to York, every other DA is
    dropped; each kept row stays one row with its population untouched
    (weight 1) through the region assignment and the two merges, so no DA has
    rows in two regions.  The border DAs 35190009 and 35190965 go to York as a
    whole, where the first script splits them 0.125/0.875 and 0.028/0.972
    between Durham and York. *)
Theorem assign_region_by_da_whole (df_da : list Script2.da_row) :
  let df := Script2.with_region df_da in
  map Script2.r_da df
  = filter (fun r => prefix "3518" (Script2.DA_UID r) || prefix "3519" (Script2.DA_UID r))
           df_da /\
  (forall x, In x df ->
     Script2.REGION_NAME x
     = if prefix "3518" (Script2.DA_UID (Script2.r_da x)) then "Durham" else "York") /\
  map (fun q => (Script2.r_da (Script2.q_da q), Script2.REGION_NAME (Script2.q_da q)))
      (Script2.with_props df)
  = map (fun x => (Script2.r_da x, Script2.REGION_NAME x)) df /\
  (forall x y, In x (Script2.with_props df) -> In y (Script2.with_props df) ->
     Script2.DA_UID (Script2.r_da (Script2.q_da x))
     = Script2.DA_UID (Script2.r_da (Script2.q_da y)) ->
     Script2.REGION_NAME (Script2.q_da x) = Script2.REGION_NAME (Script2.q_da y)) /\
  Script2.assign_region_by_da "35190009" = Some "York" /\
  Script2.assign_region_by_da "35190965" = Some "York" /\
  (forall ag sex pop,
     map (fun r => (Script1.Region r, Script1.Pop r))
         (Script1.df_da_clean_of Script1.DA_BORDER_DAs
            (Script1.with_region Script1.DA_BORDER_DAs
               [{| Script1.DA_UID := "35190009"; Script1.AgeGroup := ag;
                   Script1.Sex := sex; Script1.Pop := pop;
                   Script1.DA_prefix := ""; Script1.Region := "" |}]))
     = [("Durham", pop * (125 # 1000)); ("York", pop * (875 # 1000))]) /\
  (forall ag sex pop,
     map (fun r => (Script1.Region r, Script1.Pop r))
         (Script1.df_da_clean_of Script1.DA_BORDER_DAs
            (Script1.with_region Script1.DA_BORDER_DAs
               [{| Script1.DA_UID := "35190965"; Script1.AgeGroup := ag;
                   Script1.Sex := sex; Script1.Pop := pop;
                   Script1.DA_prefix := ""; Script1.Region := "" |}]))
     = [("Durham", pop * (28 # 1000)); ("York", pop * (972 # 1000))]).
Proof.
  cbv zeta.
  assert (Hname : forall x, In x (Script2.with_region df_da) ->
            Script2.REGION_NAME x
            = if prefix "3518" (Script2.DA_UID (Script2.r_da x)) then "Durham" else "York").
  { intros x Hx. apply Script2Facts.with_region_name in Hx. destruct Hx as [_ Hx].
    unfold Script2.assign_region_by_da, Script2.durham_prefix, Script2.york_prefix in Hx.
    destruct (prefix "3518" (Script2.DA_UID (Script2.r_da x))); [now inversion Hx|].
    destruct (prefix "3519" (Script2.DA_UID (Script2.r_da x))); [now inversion Hx|].
    discriminate. }
  assert (Hrows :
    map (fun q => (Script2.r_da (Script2.q_da q), Script2.REGION_NAME (Script2.q_da q)))
        (Script2.with_props (Script2.with_region df_da))
    = map (fun x => (Script2.r_da x, Script2.REGION_NAME x)) (Script2.with_region df_da)).
  { rewrite Script2Facts.with_props_rows, map_map. apply map_ext_in.
    intros x Hx. cbn. f_equal.
    apply Script2Facts.with_region_name in Hx. destruct Hx as [_ Hx].
    now apply Script2Facts.assigned_short in Hx. }
  split; [apply Script2Facts.with_region_rows|].
  split; [exact Hname|].
  split; [exact Hrows|].
  split.
  - intros x y Hx Hy Huid.
    assert (Hin : forall z, In z (Script2.with_props (Script2.with_region df_da)) ->
              exists w, In w (Script2.with_region df_da) /\
                        Script2.r_da w = Script2.r_da (Script2.q_da z) /\
                        Script2.REGION_NAME w = Script2.REGION_NAME (Script2.q_da z)).
    { intros z Hz.
      apply (in_map (fun q => (Script2.r_da (Script2.q_da q),
                               Script2.REGION_NAME (Script2.q_da q)))) in Hz.
      rewrite Hrows, in_map_iff in Hz. destruct Hz as [w [Hw Hin]].
      exists w. inversion Hw. auto. }
    destruct (Hin x Hx) as [wx [Hwx [Ex Rx]]].
    destruct (Hin y Hy) as [wy [Hwy [Ey Ry]]].
    rewrite <- Rx, <- Ry, (Hname wx Hwx), (Hname wy Hwy), Ex, Ey, Huid. reflexivity.
  - repeat split; reflexivity.
Qed.

(* ================================================================== *)
(** * The first script: shares and allocation *)
(* ================================================================== *)

Module Script1Facts.
Import Frame FrameFacts MergeFacts Script1.

(** the merge of step 11 keeps every row once, with the total of its stratum *)
Lemma with_shares_rows (df : list da_row) :
  with_shares df = map (share_row_of df) df.
Proof.
  unfold with_shares.
  assert (Hm : forall l, In l df ->
            matches stratum_key fst (pop_region_age_sex df) l
            = [(stratum_of l, Fin (StratumTotal df (stratum_of l)))]).
  { intros l Hl. unfold pop_region_age_sex, groupby_sum, StratumTotal.
    rewrite <- nansum_Fin, map_map.
    apply (matches_keyed stratum_key
             (fun k => nansum (map (fun r => Fin (Pop r)) (group_rows stratum_key df k)))).
    - apply NoDup_group_keys.
    - apply In_group_keys. exists l. split; [assumption | reflexivity].
    - reflexivity. }
  rewrite merge_left_at_most_one.
  - rewrite map_map. apply map_ext_in. intros l Hl.
    cbn [fst snd]. rewrite (Hm l Hl). reflexivity.
  - intros l Hl. rewrite (Hm l Hl). simpl. lia.
Qed.

(** the rows of one stratum, before and after the shares are attached *)
Lemma share_rows_of_stratum (df : list da_row) (k : string * string * string) :
  group_rows (fun r => stratum_key (s_da r)) (with_shares df) k
  = map (share_row_of df) (group_rows stratum_key df k).
Proof.
  rewrite with_shares_rows. unfold group_rows. now rewrite filter_map_swap.
Qed.

Lemma In_df_year_of (S : list share_row) (T : list agg_row) (y : year_row) :
  In y (df_year_of S T) <->
  exists r o, y = year_row_of r o /\ In r S /\
              match o with
              | Some t => In t T /\ share_join_key r = Some (proj_join_key t)
              | None => matches share_join_key proj_join_key T r = []
              end.
Proof.
  unfold df_year_of. rewrite in_map_iff. split.
  - intros [[r o] [Hy Hin]]. apply In_merge_left in Hin.
    exists r, o. split; [now rewrite <- Hy | exact Hin].
  - intros [r [o [Hy Hin]]]. exists (r, o).
    split; [now rewrite Hy | now apply In_merge_left].
Qed.

End Script1Facts.

Module Script2Merge.
Import Frame FrameFacts MergeFacts Script2.


End Script2Merge.



(* ================================================================== *)
(** * Strata without a target total, strata without population *)
(* ================================================================== *)

Module Script1Edge.
Import Frame FrameFacts MergeFacts Script1 Script1Facts.

Lemma fmul_NaN_r (a : fval) : fmul a NaN = NaN.
Proof. now destruct a. Qed.

Lemma matches_nil {L R K} `{Key K} (lkey : L -> option K) (rkey : R -> K)
      (right : list R) (l : L) :
  (forall r, In r right -> lkey l <> Some (rkey r)) ->
  matches lkey rkey right l = [].
Proof.
  intros Hno. unfold matches.
  induction right as [|r t IH]; [reflexivity|]. cbn [filter].
  destruct (okeqb (lkey l) (rkey r)) eqn:E.
  - apply okeqb_eq in E. exfalso. apply (Hno r); [now left | exact E].
  - apply IH. intros r' Hr'. apply Hno. now right.
Qed.

(** every row of the final check stands for output rows that carry a year
    and a projection region *)
Lemma proj_check_groups (dfp : list year_row) (agg : list agg_row) (c : check_row) :
  In c (proj_check_of dfp agg) ->
  exists y, In y dfp /\
            check_key y = Some (c_YEAR c, c_Region_proj_name c, c_Sex c, c_AgeGroup c).
Proof.
  unfold proj_check_of. rewrite in_map_iff. intros [[[k v] o] [Hc Hin]].
  apply In_merge_left in Hin. destruct Hin as [Hl _]. cbn [fst snd] in *.
  unfold groupby_sum in Hl. rewrite in_map_iff in Hl.
  destruct Hl as [k' [Hk Hin]]. inversion Hk; subst k' v. clear Hk.
  apply In_group_keys in Hin. destruct Hin as [y [Hy Hkey]].
  exists y. split; [assumption|].
  destruct k as [[[yr n] sex] ag]. rewrite <- Hc. exact Hkey.
Qed.

(** sums of shares that are all undefined or infinite *)
Lemma nansum_nonfinite (l : list fval) :
  (forall v, In v l -> forall q, v <> Fin q) ->
  nansum l = Fin 0 \/ nansum l = PInf \/ nansum l = NInf \/ nansum l = NaN.
Proof.
  induction l as [|v t IH]; intros Hnf; [now left|].
  rewrite nansum_cons.
  assert (Ht : forall v, In v t -> forall q, v <> Fin q)
    by (intros w Hw; apply Hnf; now right).
  specialize (IH Ht).
  pose proof (Hnf v (or_introl eq_refl)) as Hv.
  destruct v as [q| | |]; [now elim (Hv q) | | | exact IH];
    destruct IH as [E|[E|[E|E]]]; rewrite E; simpl; tauto.
Qed.

Lemma not_within_tolerance (v : fval) :
  v = Fin 0 \/ v = PInf \/ v = NInf \/ v = NaN -> WithinTolerance v = false.
Proof. intros [E|[E|[E|E]]]; rewrite E; reflexivity. Qed.

Lemma Qsgn_zero (q : Q) : q == 0 -> Qsgn q = Eq.
Proof. intros E. unfold Qsgn. now apply Qeq_alt. Qed.

Lemma share_of_empty_stratum (p T : Q) :
  T == 0 -> forall q, fdiv (Fin p) (Fin T) <> Fin q.
Proof.
  intros E q. unfold fdiv. rewrite (Qsgn_zero T E).
  destruct (Qsgn p); discriminate.
Qed.

End Script1Edge.

(** C6, as the script has it.  A share row whose (region, sex, age group) has
    no row in the year's projection stays in the year's frame, once, with the
    year and the allocated value missing (NaN, not 0); every row of the frame
    without a year has a missing allocated value; and the final check lists
    only groups of rows that carry a year and a projection region, so it does
    not list such rows. *)
Theorem unmatched_stratum_kept_as_nan
  (S : list Script1.share_row) (T : list Script1.agg_row) (r : Script1.share_row)
  (Hr : In r S)
  (Hno : forall t, In t T ->
           Script1.share_join_key r <> Some (Script1.proj_join_key t)) :
  In {| Script1.y_DA_UID := Script1.DA_UID (Script1.s_da r);
        Script1.y_Sex := Script1.Sex (Script1.s_da r);
        Script1.y_AgeGroup := Script1.AgeGroup (Script1.s_da r);
        Script1.y_Region := Script1.Region (Script1.s_da r);
        Script1.y_Region_proj_name := Script1.Region_proj_name r;
        Script1.y_YEAR := None;
        Script1.y_Projected_Pop := Frame.NaN |}
     (Script1.df_year_of S T) /\
  (forall y, In y (Script1.df_year_of S T) -> Script1.y_YEAR y = None ->
     Script1.y_Projected_Pop y = Frame.NaN) /\
  (forall y, Script1.y_YEAR y = None -> Script1.check_key y = None) /\
  (forall dfp agg c, In c (Script1.proj_check_of dfp agg) ->
     exists y, In y dfp /\
       Script1.y_YEAR y = Some (Script1.c_YEAR c) /\
       Script1.y_Region_proj_name y = Some (Script1.c_Region_proj_name c) /\
       Script1.y_Sex y = Script1.c_Sex c /\
       Script1.y_AgeGroup y = Script1.c_AgeGroup c).
Proof.
  split; [|split; [|split]].
  - apply Script1Facts.In_df_year_of. exists r, None.
    split; [|split; [exact Hr | now apply Script1Edge.matches_nil]].
    unfold Script1.year_row_of. now rewrite Script1Edge.fmul_NaN_r.
  - intros y Hy Hyr. apply Script1Facts.In_df_year_of in Hy.
    destruct Hy as [r' [[t'|] [Ey _]]]; subst y; [discriminate|].
    apply Script1Edge.fmul_NaN_r.
  - intros y Hyr. unfold Script1.check_key. now rewrite Hyr.
  - intros dfp agg c Hc. apply Script1Edge.proj_check_groups in Hc.
    destruct Hc as [y [Hy Hk]]. exists y. split; [assumption|].
    unfold Script1.check_key in Hk.
    destruct (Script1.y_YEAR y); [|discriminate].
    destruct (Script1.y_Region_proj_name y); [|discriminate].
    inversion Hk. tauto.
Qed.

Lemma unmatched_stratum_kept_as_nan_witness :
  let r := {| Script1.s_da :=
                {| Script1.DA_UID := "35190002"; Script1.AgeGroup := "0-17";
                   Script1.Sex := "M"; Script1.Pop := 40;
                   Script1.DA_prefix := "3519"; Script1.Region := "York" |};
              Script1.RegionPop := Frame.Fin 40;
              Script1.DA_Share := Frame.Fin 1 |} in
  let t := {| Script1.a_YEAR := 2030;
              Script1.a_REGION_NAME := "Durham Region Health Department";
              Script1.a_Sex := "M"; Script1.a_AgeGroup_custom := "0-17";
              Script1.a_Pop := Frame.Fin 500 |} in
  In r [r] /\
  (forall t', In t' [t] ->
     Script1.share_join_key r <> Some (Script1.proj_join_key t')) /\
  In {| Script1.y_DA_UID := "35190002"; Script1.y_Sex := "M";
        Script1.y_AgeGroup := "0-17"; Script1.y_Region := "York";
        Script1.y_Region_proj_name := Some "York Region Public Health Services";
        Script1.y_YEAR := None;
        Script1.y_Projected_Pop := Frame.NaN |}
     (Script1.df_year_of [r] [t]).
Proof.
  cbv zeta.
  match goal with
  | |- _ /\ ?Hno /\ In _ (Script1.df_year_of [?r] [?t]) =>
      assert (H : Hno) by (intros t' [<-|[]]; discriminate);
      split; [now left | split; [exact H|]];
      exact (proj1 (unmatched_stratum_kept_as_nan [r] [t] r (or_introl eq_refl) H))
  end.
Defined.

(** C6 as stated fails on the first script: York has a share row and no
    target total for 2030, yet its row is part of the output, with a missing
    value, and the final check lists Durham only; nothing else is printed. *)
Lemma unmatched_stratum_in_output :
  ~ (forall out,
       Script1.main Examples.target_500 Examples.durham_and_york = Frame.Ok out ->
       (forall y, In y (Script1.df_projected out) -> Script1.y_Region y <> "York") /\
       ((exists c, In c (Script1.proj_check out) /\
                   Script1.c_Region_proj_name c = "York Region Public Health Services") \/
        Script1.printed_shares_warning out <> [])).
Proof.
  intros Hclaim.
  destruct (Script1.main Examples.target_500 Examples.durham_and_york)
    as [out|e] eqn:E; vm_compute in E; [|discriminate].
  destruct (Hclaim out eq_refl) as [Hout _].
  inversion E; subst out. clear E.
  apply (Hout {| Script1.y_DA_UID := "35190002"; Script1.y_Sex := "M";
                 Script1.y_AgeGroup := "0-17"; Script1.y_Region := "York";
                 Script1.y_Region_proj_name := Some "York Region Public Health Services";
                 Script1.y_YEAR := None; Script1.y_Projected_Pop := Frame.NaN |}).
  - simpl. right. left. reflexivity.
  - reflexivity.
Qed.

(** C4, as the script has it.  In a stratum whose total is 0 the division is
    carried out and raises nothing; no unit gets a finite share, so none gets
    the share 0: a unit with population 0 gets NaN; and the stratum is among
    the rows of the printed warning that shares do not sum to 1. *)
Theorem empty_stratum_share_undefined
  (df : list Script1.da_row) (s : Script1.share_row)
  (Hs : In s (Script1.with_shares df))
  (Hz : Frame.is_fin (Script1.RegionPop s) 0) :
  (forall q, Script1.DA_Share s <> Frame.Fin q) /\
  (Script1.Pop (Script1.s_da s) == 0 -> Script1.DA_Share s = Frame.NaN) /\
  (exists v, In (Script1.stratum_of (Script1.s_da s), v)
                (Script1.shares_warning (Script1.with_shares df))).
Proof.
  pose proof Hs as Hs'.
  rewrite Script1Facts.with_shares_rows, in_map_iff in Hs'.
  destruct Hs' as [r [Es Hr]]. subst s. cbn in Hz. cbn [Script1.s_da Script1.share_row_of
    Script1.DA_Share].
  split; [now apply Script1Edge.share_of_empty_stratum|].
  split.
  - intros Hp. unfold Frame.fdiv.
    now rewrite (Script1Edge.Qsgn_zero _ Hz), (Script1Edge.Qsgn_zero _ Hp).
  - set (k := Script1.stratum_of r).
    exists (Frame.nansum
              (map Script1.DA_Share
                   (Frame.group_rows (fun x => Script1.stratum_key (Script1.s_da x))
                                     (Script1.with_shares df) k))).
    unfold Script1.shares_warning. rewrite filter_In. split.
    + unfold Script1.shares_sum, Frame.groupby_sum. rewrite in_map_iff.
      exists k. split; [reflexivity|].
      apply FrameFacts.In_group_keys.
      exists (Script1.share_row_of df r). split; [exact Hs | reflexivity].
    + cbn [snd]. apply negb_true_iff. apply Script1Edge.not_within_tolerance.
      apply Script1Edge.nansum_nonfinite.
      intros v Hv. rewrite Script1Facts.share_rows_of_stratum, map_map, in_map_iff in Hv.
      destruct Hv as [r' [Ev Hr']]. subst v.
      apply FrameFacts.In_group_rows in Hr'. destruct Hr' as [_ Hk].
      assert (Ek : Script1.stratum_of r' = k)
        by (unfold k, Script1.stratum_key, Script1.stratum_of in *; congruence).
      cbn [Script1.share_row_of Script1.DA_Share].
      apply Script1Edge.share_of_empty_stratum.
      rewrite Ek. exact Hz.
Qed.

Lemma empty_stratum_share_undefined_witness :
  let df := Script1.df_da_clean_of Script1.DA_BORDER_DAs
              (Script1.with_region Script1.DA_BORDER_DAs Examples.empty_stratum) in
  let s := {| Script1.s_da :=
                {| Script1.DA_UID := "35180001"; Script1.AgeGroup := "0-17";
                   Script1.Sex := "M"; Script1.Pop := 0;
                   Script1.DA_prefix := "3518"; Script1.Region := "Durham" |};
              Script1.RegionPop := Frame.Fin 0;
              Script1.DA_Share := Frame.NaN |} in
  In s (Script1.with_shares df) /\
  Frame.is_fin (Script1.RegionPop s) 0 /\
  forall q, Script1.DA_Share s <> Frame.Fin q.
Proof.
  cbv zeta.
  match goal with
  | |- In ?s (Script1.with_shares ?df) /\ _ /\ _ =>
      assert (Hs : In s (Script1.with_shares df)) by (vm_compute; left; reflexivity);
      assert (Hz : Frame.is_fin (Script1.RegionPop s) 0) by reflexivity;
      split; [exact Hs | split; [exact Hz|]];
      exact (proj1 (empty_stratum_share_undefined df s Hs Hz))
  end.
Defined.

(** C4 as stated fails on the first script: the only unit of a stratum with
    total 0 does not get the share 0 *)
Lemma empty_stratum_share_not_zero :
  ~ (forall s,
       In s (Script1.with_shares
               (Script1.df_da_clean_of Script1.DA_BORDER_DAs
                  (Script1.with_region Script1.DA_BORDER_DAs Examples.empty_stratum))) ->
       Frame.is_fin (Script1.RegionPop s) 0 ->
       Frame.is_fin (Script1.DA_Share s) 0).
Proof.
  intros Hclaim.
  apply (Hclaim {| Script1.s_da :=
                     {| Script1.DA_UID := "35180001"; Script1.AgeGroup := "0-17";
                        Script1.Sex := "M"; Script1.Pop := 0;
                        Script1.DA_prefix := "3518"; Script1.Region := "Durham" |};
                   Script1.RegionPop := Frame.Fin 0;
                   Script1.DA_Share := Frame.NaN |}).
  - vm_compute. left. reflexivity.
  - reflexivity.
Qed.

(* ================================================================== *)
(** * Sums of shares *)
(* ================================================================== *)

Module ShareSums.
Import FrameFacts MergeFacts.

Lemma Qsgn_nonzero (q : Q) : ~ q == 0 -> Qsgn q <> Eq.
Proof. intros Hq E. apply Hq. now apply Qeq_alt. Qed.

Lemma fdiv_Fin (p T : Q) : ~ T == 0 -> fdiv (Fin p) (Fin T) = Fin (p / T).
Proof.
  intros HT. unfold fdiv. pose proof (Qsgn_nonzero T HT).
  destruct (Qsgn T); congruence.
Qed.

Lemma nansum_Fin_map {A} (g : A -> Q) (l : list A) :
  nansum (map (fun a => Fin (g a)) l) = Fin (qsum (map g l)).
Proof. rewrite <- nansum_Fin. now rewrite map_map. Qed.

Lemma nansum_all_NaN {A} (l : list A) : nansum (map (fun _ => NaN) l) = Fin 0.
Proof. induction l as [|a t IH]; [reflexivity|]. cbn [map]. now rewrite nansum_cons. Qed.

(** the parts of a total, each divided by the total, add up to 1 *)
Lemma qsum_div_total {A} (g : A -> Q) (l : list A) (T : Q) :
  ~ T == 0 -> qsum (map (fun a => g a / T) l) == qsum (map g l) / T.
Proof. intros HT. unfold Qdiv. apply qsum_scale. Qed.

Lemma within_tolerance_one (v : fval) : is_fin v 1 -> Script1.WithinTolerance v = true.
Proof.
  destruct v as [x| | |]; unfold is_fin; try tauto. intros Hx.
  unfold Script1.WithinTolerance, isclose. apply Qle_bool_iff.
  rewrite Hx. vm_compute. discriminate.
Qed.

(** first script: the shares of a stratum with a non-zero total *)
Lemma script1_stratum_shares (df : list Script1.da_row) (k : string * string * string) :
  ~ Script1.StratumTotal df k == 0 ->
  is_fin (nansum (map Script1.DA_Share
                      (group_rows (fun r => Script1.stratum_key (Script1.s_da r))
                                  (Script1.with_shares df) k))) 1.
Proof.
  intros HT. rewrite Script1Facts.share_rows_of_stratum, map_map.
  rewrite (map_ext_in _ (fun r => Fin (Script1.Pop r / Script1.StratumTotal df k))).
  - rewrite nansum_Fin_map. simpl. rewrite qsum_div_total by exact HT.
    unfold Script1.StratumTotal. field. exact HT.
  - intros r Hr. apply In_group_rows in Hr. destruct Hr as [_ Hk].
    assert (Ek : Script1.stratum_of r = k)
      by (unfold Script1.stratum_key, Script1.stratum_of in *; congruence).
    cbn [Script1.share_row_of Script1.DA_Share]. rewrite Ek. now apply fdiv_Fin.
Qed.

Lemma census_totals_nonzero :
  forallb (fun kv => negb (Qeq_bool (snd kv) 0)) Script2.region_age_sex_2021 = true.
Proof. vm_compute. reflexivity. Qed.

Lemma census_total_cases (k : string * string * string) :
  Script2.census_total k = NaN \/
  exists T, Script2.census_total k = Fin T /\ ~ T == 0.
Proof.
  unfold Script2.census_total.
  destruct (hd_error (filter (fun kv => keqb k (fst kv)) Script2.region_age_sex_2021))
    as [kv|] eqn:E; [right | now left].
  exists (snd kv). split; [reflexivity|].
  assert (Hin : In kv Script2.region_age_sex_2021).
  { destruct (filter (fun kv => keqb k (fst kv)) Script2.region_age_sex_2021)
      as [|x t] eqn:F; [discriminate|].
    inversion E; subst x.
    assert (Hf : In kv (kv :: t)) by now left.
    rewrite <- F in Hf. apply filter_In in Hf. exact (proj1 Hf). }
  pose proof census_totals_nonzero as Hall. rewrite forallb_forall in Hall.
  specialize (Hall kv Hin). apply negb_true_iff in Hall.
  now apply Qeq_bool_neq.
Qed.

(** second script: the rows of a stratum after the proportions are attached *)
Lemma script2_stratum_rows (df_da : list Script2.da_row) (k : string * string * string) :
  let df := Script2.with_region df_da in
  map Script2.Prop_DA_in_Region_2021
      (group_rows (fun q => Script2.stratum_key (Script2.q_da q)) (Script2.with_props df) k)
  = map (fun r => fdiv (Fin (Script2.Pop (Script2.r_da r))) (Script2.census_total k))
        (group_rows Script2.stratum_key df k).
Proof.
  cbv zeta. rewrite Script2Facts.with_props_rows.
  unfold group_rows. rewrite filter_map_swap, map_map.
  assert (Hsame : forall r, In r (Script2.with_region df_da) ->
            Script2.q_da (Script2.prop_row_of (Script2.with_region df_da) r) = r).
  { intros r Hr. apply Script2Facts.with_region_name in Hr. destruct Hr as [_ Hr].
    apply Script2Facts.assigned_short in Hr.
    cbn [Script2.prop_row_of Script2.q_da]. rewrite Hr. now destruct r. }
  rewrite (filter_ext_in _ (fun r => okeqb (Script2.stratum_key r) k)).
  - apply map_ext_in. intros r Hr. apply filter_In in Hr. destruct Hr as [Hr Hk].
    apply okeqb_eq in Hk.
    assert (Ek : Script2.stratum_of r = k)
      by (unfold Script2.stratum_key, Script2.stratum_of in *; congruence).
    pose proof (Hsame r Hr) as Hq. cbn [Script2.prop_row_of Script2.q_da] in Hq.
    cbn [Script2.prop_row_of Script2.Prop_DA_in_Region_2021]. now rewrite Hq, Ek.
  - intros r Hr. now rewrite (Hsame r Hr).
Qed.

End ShareSums.

(** C3, as the scripts have it.  In the first script, where a share is the
    population of the row divided by the total of its stratum, the shares of
    every stratum with a non-zero total sum to 1, so the stratum passes the
    check of step 12 and is not in the warning.  In the second script the
    denominator is the fixed census total of the stratum: the proportions of a
    stratum sum to its total divided by the census total (and to 0 when the
    census table has no entry, every proportion being NaN). *)
Theorem shares_sum_to_one
  (df : list Script1.da_row) (k : string * string * string) (v : fval)
  (Hin : In (k, v) (Script1.shares_sum (Script1.with_shares df)))
  (Hnz : ~ Script1.StratumTotal df k == 0) :
  is_fin v 1 /\
  Script1.WithinTolerance v = true /\
  ~ In (k, v) (Script1.shares_warning (Script1.with_shares df)) /\
  (forall df_da k2,
     let df2 := Script2.with_region df_da in
     match Script2.census_total k2 with
     | Fin T =>
         is_fin (Script2.props_sum (Script2.with_props df2) k2)
                (Script2.StratumTotal df2 k2 / T)
     | _ => Script2.props_sum (Script2.with_props df2) k2 = Fin 0
     end).
Proof.
  assert (Hv : is_fin v 1).
  { unfold Script1.shares_sum, groupby_sum in Hin. rewrite in_map_iff in Hin.
    destruct Hin as [k' [Hk _]]. inversion Hk; subst k'.
    now apply ShareSums.script1_stratum_shares. }
  pose proof (ShareSums.within_tolerance_one v Hv) as Hw.
  split; [exact Hv | split; [exact Hw | split]].
  - unfold Script1.shares_warning. rewrite filter_In. cbn [snd].
    rewrite Hw. intros [_ Hf]. discriminate.
  - intros df_da k2. cbv zeta. unfold Script2.props_sum.
    rewrite (ShareSums.script2_stratum_rows df_da k2).
    destruct (ShareSums.census_total_cases k2) as [E|[T [E HT]]]; rewrite E.
    + rewrite (map_ext _ (fun _ => NaN)); [apply ShareSums.nansum_all_NaN|].
      intros r. reflexivity.
    + rewrite (map_ext _ (fun r => Fin (Script2.Pop (Script2.r_da r) / T))).
      * rewrite ShareSums.nansum_Fin_map. unfold is_fin.
        now apply ShareSums.qsum_div_total.
      * intros r. now apply ShareSums.fdiv_Fin.
Qed.

Lemma shares_sum_to_one_witness :
  let df := Script1.df_da_clean_of Script1.DA_BORDER_DAs
              (Script1.with_region Script1.DA_BORDER_DAs Examples.two_units) in
  let k := ("Durham", "0-17", "M") in
  let v := Fin (10000 # 10000) in
  In (k, v) (Script1.shares_sum (Script1.with_shares df)) /\
  ~ Script1.StratumTotal df k == 0 /\
  is_fin v 1 /\ Script1.WithinTolerance v = true.
Proof.
  cbv zeta.
  match goal with
  | |- In (?k, ?v) (Script1.shares_sum (Script1.with_shares ?df)) /\ ?Hnz /\ _ =>
      assert (Hin : In (k, v) (Script1.shares_sum (Script1.with_shares df)))
        by (vm_compute; left; reflexivity);
      assert (H : Hnz) by (vm_compute; discriminate);
      split; [exact Hin | split; [exact H|]];
      destruct (shares_sum_to_one df k v Hin H) as (H1 & H2 & _); split; assumption
  end.
Defined.

(** C3 as stated fails on the second script: one Durham DA with 100 boys
    0-17 is a stratum with total 100, and its proportions sum to 100/64230,
    which is not within 0.001 of 1 *)
Lemma census_shares_do_not_sum_to_one :
  ~ (forall k,
       0 < Script2.StratumTotal (Script2.with_region Examples.one_durham_da) k ->
       exists s,
         Script2.props_sum
           (Script2.with_props (Script2.with_region Examples.one_durham_da)) k = Fin s /\
         Qle_bool (Qabs (s - 1)) (1 # 1000) = true).
Proof.
  intros Hclaim.
  destruct (Hclaim ("Durham", "0-17", "M")) as [s [Hs Hclose]].
  - vm_compute. reflexivity.
  - vm_compute in Hs. inversion Hs; subst s. vm_compute in Hclose. discriminate.
Qed.

(* ================================================================== *)
(** * Splitting the border DAs *)
(* ================================================================== *)

Module Script1Split.
Import FrameFacts MergeFacts Script1.

Lemma da_pop_app (uid : string) (l1 l2 : list da_row) :
  da_pop uid (l1 ++ l2) == da_pop uid l1 + da_pop uid l2.
Proof.
  unfold da_pop, group_rows. now rewrite filter_app, map_app, qsum_app.
Qed.

Lemma da_pop_cons (uid : string) (r : da_row) (t : list da_row) :
  da_pop uid (r :: t) == da_pop uid [r] + da_pop uid t.
Proof. apply (da_pop_app uid [r] t). Qed.

Section Borders.
Variable borders : list (string * list (string * Q)).
Hypothesis weights_sum_to_one :
  forall uid props, lookup uid borders = Some props -> qsum (map snd props) == 1.

Lemma split_row_pop (uid : string) (r : da_row) (props : list (string * Q)) :
  lookup (DA_UID r) borders = Some props ->
  da_pop uid (split_row borders r) == da_pop uid [r].
Proof.
  intros Hl. unfold split_row. rewrite Hl.
  specialize (weights_sum_to_one _ _ Hl).
  unfold da_pop, group_rows. rewrite filter_map_swap, map_map.
  cbn [filter DA_UID okeqb Pop].
  destruct (keqb (DA_UID r) uid).
  - rewrite filter_true.
    rewrite (qsum_ext _ (fun rp => snd rp * Pop r))
      by (intros; cbn [Pop snd]; ring).
    rewrite qsum_scale, weights_sum_to_one. cbn [map qsum fold_right]. ring.
  - rewrite filter_false. reflexivity.
Qed.

Lemma with_region_marked (df_da : list da_row) : marked borders (with_region borders df_da).
Proof.
  intros r Hr HB. unfold with_region in Hr. rewrite in_map_iff in Hr.
  destruct Hr as [r0 [Er _]]. subst r. cbn [Region DA_UID] in *.
  unfold assign_region, in_dict in HB.
  destruct (lookup (DA_UID r0) borders) as [props|]; [now exists props|].
  destruct (substring 0 4 (DA_UID r0) =? "3519")%string; [discriminate|].
  destruct (substring 0 4 (DA_UID r0) =? "3518")%string; discriminate.
Qed.

Lemma clean_pop (uid : string) (df : list da_row) :
  marked borders df -> da_pop uid (df_da_clean_of borders df) == da_pop uid df.
Proof.
  unfold df_da_clean_of, df_da_no_border, df_border_split.
  induction df as [|r t IH]; intros Hm; [reflexivity|].
  assert (Ht : marked borders t) by (intros x Hx; apply Hm; now right).
  specialize (IH Ht). rewrite da_pop_app in IH.
  rewrite (da_pop_cons uid r t), <- IH.
  cbn [filter]. destruct (Region r =? "Border")%string eqn:E.
  - cbn [negb flat_map]. rewrite !da_pop_app.
    apply String.eqb_eq in E.
    destruct (Hm r (or_introl eq_refl) E) as [props Hp].
    rewrite (split_row_pop uid r props Hp). ring.
  - cbn [negb]. rewrite <- app_comm_cons, (da_pop_cons uid r (_ ++ _)%list), da_pop_app.
    ring.
Qed.

Lemma split_row_uid (r x : da_row) : In x (split_row borders r) -> DA_UID x = DA_UID r.
Proof.
  unfold split_row. destruct (lookup (DA_UID r) borders) as [props|]; [|intros []].
  rewrite in_map_iff. intros [rp [Ex _]]. now subst x.
Qed.

End Borders.

Lemma weights_nonempty (props : list (string * Q)) :
  qsum (map snd props) == 1 -> props <> [].
Proof. intros Hs ->. discriminate. Qed.

Section Memberships.
Variable borders : list (string * list (string * Q)).
Hypothesis props_nonempty :
  forall uid props, lookup uid borders = Some props -> props <> [].

Lemma split_row_nonempty (r : da_row) (props : list (string * Q)) :
  lookup (DA_UID r) borders = Some props ->
  exists x, In x (split_row borders r).
Proof.
  intros Hl. unfold split_row. rewrite Hl.
  destruct props as [|rp t].
  - now elim (props_nonempty _ _ Hl).
  - eexists. now left.
Qed.

(** the same DAs before and after *)
Lemma clean_uids (uid : string) (df : list da_row) :
  marked borders df ->
  (In uid (map DA_UID (df_da_clean_of borders df)) <-> In uid (map DA_UID df)).
Proof.
  intros Hm. unfold df_da_clean_of, df_da_no_border, df_border_split.
  rewrite !in_map_iff. split.
  - intros [x [Ex Hx]]. apply in_app_or in Hx. destruct Hx as [Hx|Hx].
    + apply filter_In in Hx. exists x. tauto.
    + apply in_flat_map in Hx. destruct Hx as [r [Hr Hx]].
      apply filter_In in Hr. apply split_row_uid in Hx.
      exists r. split; [congruence | tauto].
  - intros [r [Er Hr]].
    destruct (Region r =? "Border")%string eqn:E.
    + destruct (Hm r Hr) as [props Hp]; [now apply String.eqb_eq|].
      destruct (split_row_nonempty r props Hp) as [x Hx].
      exists x. split; [rewrite (split_row_uid borders r x Hx); exact Er|].
      apply in_or_app. right. apply in_flat_map. exists r.
      split; [apply filter_In; tauto | exact Hx].
    + exists r. split; [exact Er|]. apply in_or_app. left.
      apply filter_In. rewrite E. tauto.
Qed.

End Memberships.

Lemma series_get_groupby {R K} `{Key K} (key : R -> option K) (val : R -> fval)
      (rows : list R) (k : K) :
  In k (group_keys key rows) ->
  series_get (groupby_sum key val rows) k
  = Some (nansum (map val (group_rows key rows k))).
Proof.
  intros Hin. unfold series_get, groupby_sum.
  rewrite (filter_key_singleton
             (fun k' => nansum (map val (group_rows key rows k'))) k);
    [reflexivity | apply NoDup_group_keys | exact Hin].
Qed.

Lemma In_pop_keys (df : list da_row) (uid : string) :
  In uid (group_keys (fun r => Some (DA_UID r)) df) <-> In uid (map DA_UID df).
Proof.
  rewrite In_group_keys, in_map_iff. split; intros [r Hr]; exists r.
  - destruct Hr as [Hr E]. inversion E. tauto.
  - destruct Hr as [E Hr]. subst uid. tauto.
Qed.

Lemma pop_by_da_keys (df : list da_row) :
  map fst (pop_by_da df) = group_keys (fun r => Some (DA_UID r)) df.
Proof.
  unfold pop_by_da, groupby_sum. rewrite map_map. cbn [fst]. apply map_id.
Qed.

Lemma series_get_pop (df : list da_row) (uid : string) :
  In uid (map DA_UID df) -> series_get (pop_by_da df) uid = Some (Fin (da_pop uid df)).
Proof.
  intros Hin. unfold pop_by_da. rewrite series_get_groupby by now apply In_pop_keys.
  unfold da_pop. now rewrite ShareSums.nansum_Fin_map.
Qed.

Lemma fltb_zero (q : Q) : q == 0 -> fltb (Fin q) (Fin (1 # 100000)) = true.
Proof.
  intros Hq. unfold fltb.
  assert (Hlt : q < 1 # 100000) by (rewrite Hq; reflexivity).
  pose proof (proj1 (Qlt_alt _ _) Hlt) as Hc. now rewrite Hc.
Qed.

End Script1Split.

Module Script1SplitCheck.
Import FrameFacts MergeFacts Script1 Script1Split.

Lemma pop_diff_value (borders : list (string * list (string * Q))) (df : list da_row) :
  (forall uid, In uid (map DA_UID (df_da_clean_of borders df)) <-> In uid (map DA_UID df)) ->
  exists keys,
    (forall uid, In uid keys <-> In uid (map DA_UID df)) /\
    pop_diff_of df (df_da_clean_of borders df)
    = Fin (qsum (map (fun uid => Qabs (da_pop uid df
                                       + - da_pop uid (df_da_clean_of borders df)))
                     keys)).
Proof.
  intros Huids.
  assert (Hkeys : forall uid,
            In uid (sort_keys (unique (map fst (pop_by_da df)
                                       ++ map fst (pop_by_da (df_da_clean_of borders df)))))
            <-> In uid (map DA_UID df)).
  { intros uid.
    rewrite In_sort_keys, In_unique, in_app_iff, !pop_by_da_keys, !In_pop_keys, Huids.
    tauto. }
  exists (sort_keys (unique (map fst (pop_by_da df)
                             ++ map fst (pop_by_da (df_da_clean_of borders df))))).
  split; [exact Hkeys|].
  unfold pop_diff_of, series_sub. rewrite map_map. cbn [snd].
  rewrite <- ShareSums.nansum_Fin_map. f_equal.
  apply map_ext_in. intros uid Hin. apply Hkeys in Hin.
  assert (Hcl : In uid (map DA_UID (df_da_clean_of borders df))) by now apply Huids.
  now rewrite (series_get_pop df uid Hin), (series_get_pop _ uid Hcl).
Qed.

Lemma qsum_ge_term {A} (g : A -> Q) (l : list A) (a : A) :
  (forall x, 0 <= g x) -> In a l -> g a <= qsum (map g l).
Proof.
  intros Hg. induction l as [|x t IH]; intros Hin; [destruct Hin|].
  cbn [map]. rewrite FrameFacts.qsum_cons.
  assert (Ht : 0 <= qsum (map g t)).
  { clear IH Hin. induction t as [|y t IH]; cbn [map]; [apply Qle_refl|].
    rewrite FrameFacts.qsum_cons.
    apply (Qle_trans _ (0 + 0)); [discriminate | apply Qplus_le_compat; auto]. }
  destruct Hin as [->|Hin].
  - apply (Qle_trans _ (g a + 0)); [rewrite Qplus_0_r; apply Qle_refl|].
    apply Qplus_le_compat; [apply Qle_refl | exact Ht].
  - apply (Qle_trans _ (0 + g a)); [rewrite Qplus_0_l; apply Qle_refl|].
    apply Qplus_le_compat; [apply Hg | now apply IH].
Qed.

(** one DA whose population changed by 1e-5 or more fails the test of step 10 *)
Lemma pop_diff_detects (borders : list (string * list (string * Q))) (df : list da_row)
      (uid : string) :
  (forall uid, In uid (map DA_UID (df_da_clean_of borders df)) <-> In uid (map DA_UID df)) ->
  In uid (map DA_UID df) ->
  (1 # 100000) <= Qabs (da_pop uid df + - da_pop uid (df_da_clean_of borders df)) ->
  fltb (pop_diff_of df (df_da_clean_of borders df)) (Fin (1 # 100000)) = false.
Proof.
  intros Huids Hin Hbig.
  destruct (pop_diff_value borders df Huids) as [keys [Hkeys Hdiff]].
  rewrite Hdiff. apply FrameFacts.fltb_Fin_false.
  apply (Qle_trans _ _ _ Hbig).
  apply (qsum_ge_term
           (fun uid => Qabs (da_pop uid df + - da_pop uid (df_da_clean_of borders df)))).
  - intros x. apply Qabs_nonneg.
  - now apply Hkeys.
Qed.

End Script1SplitCheck.

(** C2.  Whatever the table of border DAs, provided the weights of each DA
    sum to 1: after the split every DA has the population it had before (the
    two per-DA sums of step 10 are equal), the total absolute difference is 0
    and the assertion of step 10 passes.  And for any table that gives every
    border DA at least one membership: a DA whose population differs by 1e-5
    or more after the split stops the script at that assertion, with an
    AssertionError, so that nothing after it runs; as does any total
    difference that is not below 1e-5. *)
Theorem split_preserves_population
  (borders : list (string * list (string * Q))) (df_da0 : list Script1.da_row)
  (Hw : forall uid props, Script1.lookup uid borders = Some props ->
                          qsum (map snd props) == 1) :
  let df_da := Script1.with_region borders df_da0 in
  let clean := Script1.df_da_clean_of borders df_da in
  (forall uid, In uid (map Script1.DA_UID df_da) ->
     Script1.series_get (Script1.pop_by_da df_da) uid
       = Some (Fin (Script1.da_pop uid df_da)) /\
     Script1.series_get (Script1.pop_by_da clean) uid
       = Some (Fin (Script1.da_pop uid clean)) /\
     Script1.da_pop uid clean == Script1.da_pop uid df_da) /\
  is_fin (Script1.pop_diff_of df_da clean) 0 /\
  fltb (Script1.pop_diff_of df_da clean) (Fin (1 # 100000)) = true /\
  (forall borders' df_proj df uid,
     let df' := Script1.with_region borders' (Script1.clean_da df) in
     (forall u props, Script1.lookup u borders' = Some props -> props <> []) ->
     In uid (map Script1.DA_UID df') ->
     (1 # 100000)
     <= Qabs (Script1.da_pop uid df'
              + - Script1.da_pop uid (Script1.df_da_clean_of borders' df')) ->
     Script1.run borders' df_proj df
     = Raise (AssertionError "Population total changed after splitting border DAs!")) /\
  (forall borders' df_proj df,
     let df' := Script1.with_region borders' (Script1.clean_da df) in
     fltb (Script1.pop_diff_of df' (Script1.df_da_clean_of borders' df'))
          (Fin (1 # 100000)) = false ->
     Script1.run borders' df_proj df
     = Raise (AssertionError "Population total changed after splitting border DAs!")).
Proof.
  cbv zeta.
  assert (Hne : forall uid props, Script1.lookup uid borders = Some props -> props <> []).
  { intros uid props Hl. apply Script1Split.weights_nonempty. now apply (Hw uid). }
  pose proof (Script1Split.with_region_marked borders df_da0) as Hm.
  pose proof (fun uid => Script1Split.clean_uids borders Hne uid _ Hm) as Huids.
  pose proof (fun uid => Script1Split.clean_pop borders Hw uid _ Hm) as Hpop.
  destruct (Script1SplitCheck.pop_diff_value borders _ Huids) as [keys [_ Hdiff]].
  assert (Hzero : qsum (map (fun uid =>
                    Qabs (Script1.da_pop uid (Script1.with_region borders df_da0)
                          + - Script1.da_pop uid
                                (Script1.df_da_clean_of borders
                                   (Script1.with_region borders df_da0)))) keys) == 0).
  { apply FrameFacts.qsum_zero. intros uid _. rewrite (Hpop uid).
    setoid_replace (Script1.da_pop uid (Script1.with_region borders df_da0)
                    + - Script1.da_pop uid (Script1.with_region borders df_da0))
      with 0 by ring.
    reflexivity. }
  assert (Hstop : forall borders' df_proj df,
            fltb (Script1.pop_diff_of
                    (Script1.with_region borders' (Script1.clean_da df))
                    (Script1.df_da_clean_of borders'
                       (Script1.with_region borders' (Script1.clean_da df))))
                 (Fin (1 # 100000)) = false ->
            Script1.run borders' df_proj df
            = Raise (AssertionError "Population total changed after splitting border DAs!")).
  { intros borders' df_proj df Hfail. unfold Script1.run, assert_. now rewrite Hfail. }
  split; [|split; [|split; [|split]]].
  - intros uid Huid. split; [now apply Script1Split.series_get_pop|].
    split; [apply Script1Split.series_get_pop; now apply Huids | apply Hpop].
  - rewrite Hdiff. exact Hzero.
  - rewrite Hdiff. now apply Script1Split.fltb_zero.
  - intros borders' df_proj df uid Hne' Hin Hbig. apply Hstop.
    apply (Script1SplitCheck.pop_diff_detects borders' _ uid); [|exact Hin | exact Hbig].
    intros u. apply (Script1Split.clean_uids borders' Hne').
    apply Script1Split.with_region_marked.
  - exact Hstop.
Qed.

Lemma split_preserves_population_witness :
  (forall uid props, Script1.lookup uid Script1.DA_BORDER_DAs = Some props ->
                     qsum (map snd props) == 1) /\
  is_fin (Script1.pop_diff_of
            (Script1.with_region Script1.DA_BORDER_DAs
               [Examples.da1 "35190009" "0-17" "M" 80; Examples.da1 "35180002" "0-17" "M" 40])
            (Script1.df_da_clean_of Script1.DA_BORDER_DAs
               (Script1.with_region Script1.DA_BORDER_DAs
                  [Examples.da1 "35190009" "0-17" "M" 80;
                   Examples.da1 "35180002" "0-17" "M" 40]))) 0.
Proof.
  assert (Hw : forall uid props, Script1.lookup uid Script1.DA_BORDER_DAs = Some props ->
                                 qsum (map snd props) == 1).
  { intros uid props. unfold Script1.DA_BORDER_DAs. cbn [Script1.lookup].
    destruct (uid =? "35190009")%string; [intros [= <-]; reflexivity|].
    destruct (uid =? "35190965")%string; [intros [= <-]; reflexivity | discriminate]. }
  split; [exact Hw|].
  exact (proj1 (proj2 (split_preserves_population Script1.DA_BORDER_DAs
                         [Examples.da1 "35190009" "0-17" "M" 80;
                          Examples.da1 "35180002" "0-17" "M" 40] Hw))).
Defined.

(* ================================================================== *)
(** * The final checks of the two projection scripts *)
(* ================================================================== *)

Module FinalCheck.
Import FrameFacts Script1.

(** below a finite bound: transitivity on the left *)
Lemma fltb_trans_bound (v m : fval) (c : Q) :
  fltb v m = true -> fltb m (Fin c) = true -> fltb v (Fin c) = true.
Proof.
  destruct v as [x| | |], m as [y| | |]; simpl; try discriminate; try reflexivity.
  change (fltb (Fin x) (Fin y) = true -> fltb (Fin y) (Fin c) = true
          -> fltb (Fin x) (Fin c) = true).
  rewrite !fltb_Fin_true. apply Qlt_trans.
Qed.

(** what is not above a value below the bound is below the bound *)
Lemma fltb_below_bound (v m : fval) (c : Q) :
  v <> NaN -> m <> NaN ->
  fltb v m = false -> fltb v (Fin c) = true -> fltb m (Fin c) = true.
Proof.
  destruct v as [x| | |], m as [y| | |]; simpl; try discriminate; try reflexivity;
    try congruence.
  intros _ _.
  change (fltb (Fin x) (Fin y) = false -> fltb (Fin x) (Fin c) = true
          -> fltb (Fin y) (Fin c) = true).
  rewrite fltb_Fin_false, !fltb_Fin_true. apply Qle_lt_trans.
Qed.

Lemma nanmax_cons (v : fval) (l : list fval) :
  nanmax (v :: l)
  = match v, nanmax l with
    | NaN, _ => nanmax l
    | _, NaN => v
    | _, _ => fmax v (nanmax l)
    end.
Proof. reflexivity. Qed.

Lemma fmax_not_NaN (v m : fval) : v <> NaN -> m <> NaN -> fmax v m <> NaN.
Proof. unfold fmax. destruct (fltb v m); auto. Qed.

Lemma nanmax_NaN (l : list fval) : nanmax l = NaN -> forall v, In v l -> v = NaN.
Proof.
  induction l as [|x t IH]; intros Hm v Hv; [destruct Hv|].
  rewrite nanmax_cons in Hm.
  destruct x as [q| | |].
  - destruct (nanmax t) eqn:E; try discriminate;
      exfalso; revert Hm; apply fmax_not_NaN; discriminate.
  - destruct (nanmax t) eqn:E; try discriminate;
      exfalso; revert Hm; apply fmax_not_NaN; discriminate.
  - destruct (nanmax t) eqn:E; try discriminate;
      exfalso; revert Hm; apply fmax_not_NaN; discriminate.
  - destruct Hv as [<-|Hv]; [reflexivity | now apply IH].
Qed.

(** a maximum below the bound bounds every cell that is not NaN *)
Lemma nanmax_below (l : list fval) (c : Q) :
  fltb (nanmax l) (Fin c) = true ->
  forall v, In v l -> v = NaN \/ fltb v (Fin c) = true.
Proof.
  induction l as [|x t IH]; intros Hm v Hv; [destruct Hv|].
  rewrite nanmax_cons in Hm.
  assert (Hx : x = NaN \/ x <> NaN) by (destruct x; auto; right; discriminate).
  destruct Hx as [->|Hx].
  { destruct Hv as [<-|Hv]; [now left | now apply IH]. }
  assert (Ht : nanmax t = NaN \/ nanmax t <> NaN)
    by (destruct (nanmax t); auto; right; discriminate).
  destruct Ht as [Et|Ht].
  { rewrite Et in Hm.
    assert (Hm' : fltb x (Fin c) = true) by (destruct x; congruence).
    destruct Hv as [<-|Hv]; [now right | left; now apply (nanmax_NaN t Et)]. }
  assert (Hm' : fltb (fmax x (nanmax t)) (Fin c) = true).
  { destruct x; try congruence; destruct (nanmax t); congruence. }
  clear Hm. unfold fmax in Hm'.
  destruct (fltb x (nanmax t)) eqn:E.
  - destruct Hv as [<-|Hv]; [right; now apply (fltb_trans_bound _ _ c E) | now apply IH].
  - destruct Hv as [<-|Hv]; [now right|].
    apply IH; [|exact Hv]. now apply (fltb_below_bound x).
Qed.

(** the first script: when it runs to its end, every group of the final
    check differs from its regional total by less than 0.01 (a difference that
    is NaN is skipped by the maximum) *)
Lemma first_script_checks_every_group
      (borders : list (string * list (string * Q)))
      (df_proj : list proj_row) (df_da : list da_row) (out : output) :
  run borders df_proj df_da = Ok out ->
  forall c, In c (proj_check out) ->
    c_Difference c = NaN \/ fltb (fabs (c_Difference c)) (Fin (1 # 100)) = true.
Proof.
  unfold run, assert_, bind. intros Hrun c Hc.
  destruct (fltb (pop_diff_of _ _) _); [|discriminate].
  destruct (df_projected_of _ _) as [dfp|e]; [|discriminate].
  destruct (fltb (max_diff_of _) _) eqn:Hmax; [|discriminate].
  inversion Hrun; subst out. cbn [proj_check] in Hc.
  unfold max_diff_of in Hmax.
  destruct (nanmax_below _ _ Hmax (fabs (c_Difference c))) as [Hn|Hb].
  - apply in_map_iff. now exists c.
  - left. destruct (c_Difference c); simpl in Hn; congruence.
  - now right.
Qed.

End FinalCheck.


(* ================================================================== *)
(** * The three approaches: sums over the groups of an FSA *)
(* ================================================================== *)

Module GroupSums.
Import FrameFacts MergeFacts.



Lemma qsum_plus {A} (f g : A -> Q) (l : list A) :
  qsum (map (fun a => f a + g a) l) == qsum (map f l) + qsum (map g l).
Proof.
  induction l as [|a t IH]; cbn [map]; rewrite ?qsum_cons, ?qsum_nil; [ring|].
  rewrite IH. ring.
Qed.

Section Partition.
Context {R K : Type} `{Key K}.
Variable key : R -> option K.
Variable w : R -> Q.

(** among distinct keys at most one is the key of a given row *)
Lemma indicator_sum (o : option K) (x : Q) (ks : list K) :
  NoDup ks ->
  qsum (map (fun k => if okeqb o k then x else 0) ks)
  == if key_in o ks then x else 0.
Proof.
  destruct o as [k0|]; cbn [key_in okeqb].
  - induction 1 as [|k t Hn Hd IH]; cbn [map existsb]; rewrite ?qsum_cons, ?qsum_nil;
      [reflexivity|].
    rewrite IH.
    destruct (keqb_spec k0 k) as [->|Hne]; cbn [orb].
    + assert (Hex : existsb (keqb k) t = false).
      { destruct (existsb (keqb k) t) eqn:E; [|reflexivity].
        apply existsb_exists in E. destruct E as [y [Hy Ey]].
        apply keqb_eq in Ey. subst y. contradiction. }
      rewrite Hex. ring.
    + ring.
  - intros _. apply qsum_zero. intros; reflexivity.
Qed.

(** the sums of the groups of distinct keys add up to the sum over the rows
    that belong to one of them *)
Lemma qsum_partition (rows : list R) (ks : list K) :
  NoDup ks ->
  qsum (map (fun k => qsum (map w (group_rows key rows k))) ks)
  == qsum (map w (filter (fun r => key_in (key r) ks) rows)).
Proof.
  intros Hd. induction rows as [|a t IH].
  - cbn [group_rows filter map]. apply qsum_zero. intros; reflexivity.
  - rewrite (qsum_ext _ (fun k => (if okeqb (key a) k then w a else 0)
                                  + qsum (map w (group_rows key t k)))).
    + rewrite qsum_plus, IH, (indicator_sum (key a) (w a) ks Hd).
      cbn [filter]. destruct (key_in (key a) ks); cbn [map]; rewrite ?qsum_cons; ring.
    + intros k _. unfold group_rows. cbn [filter].
      destruct (okeqb (key a) k); cbn [map]; rewrite ?qsum_cons; ring.
Qed.

End Partition.

End GroupSums.

Module ApproachFacts.
Import FrameFacts MergeFacts GroupSums Approaches.


Section Analysis.
Context {R : Type}.
Variable fkey : R -> option string.
Variable fqkey : R -> option (string * Z).
Variable val : R -> fval.
Variable rows : list R.
Hypothesis fq_in_f : forall r f q, fqkey r = Some (f, q) -> fkey r = Some f.

(** the merge of the two groupbys: one row per (FSA, quintile) group *)
Lemma analysis_rows :
  pop_analysis_rows (groupby_sum fqkey val rows) (groupby_sum fkey val rows)
  = map (pop_analysis_row_of fkey fqkey val rows) (group_keys fqkey rows).
Proof.
  unfold pop_analysis_rows.
  rewrite (merge_inner_singleton _ fst
             (fun c => (fst (fst c),
                        nansum (map val (group_rows fkey rows (fst (fst c))))))).
  - unfold groupby_sum. rewrite !map_map. apply map_ext. intros k. reflexivity.
  - intros c Hc. unfold groupby_sum in Hc. rewrite in_map_iff in Hc.
    destruct Hc as [k [Ec Hk]]. subst c. cbn [fst].
    unfold groupby_sum.
    apply (matches_keyed (fun c : string * Z * fval => Some (fst (fst c)))
             (fun f => nansum (map val (group_rows fkey rows f)))).
    + apply NoDup_group_keys.
    + apply In_group_keys in Hk. destruct Hk as [r [Hr Hkey]].
      apply In_group_keys. exists r. split; [exact Hr|].
      destruct k as [f q]. now apply (fq_in_f r f q).
    + reflexivity.
Qed.


Lemma NoDup_keys_of (f : string) : NoDup (keys_of fqkey rows f).
Proof. apply NoDup_filter, NoDup_group_keys. Qed.

Lemma In_keys_of (f : string) (k : string * Z) :
  In k (keys_of fqkey rows f) <-> fst k = f /\ exists r, In r rows /\ fqkey r = Some k.
Proof.
  unfold keys_of. rewrite filter_In, In_group_keys, keqb_eq. tauto.
Qed.

Hypothesis no_infinity : forall r, In r rows -> val r <> PInf /\ val r <> NInf.


Variable f : string.
Hypothesis with_quintile :
  forall r, In r rows -> fkey r = Some f -> exists q, fqkey r = Some (f, q).





End Analysis.

End ApproachFacts.

Module ApproachSums.
Import FrameFacts MergeFacts GroupSums Approaches ApproachFacts.




End ApproachSums.

Module Tolerance.
Import FrameFacts.




End Tolerance.



(** C7 as stated fails in approach 2: in an FSA whose DAs have no population
    every percentage is NaN, and the percentages add up to 0, not to 100 *)
Lemma empty_fsa_percentages :
  ~ (forall v,
       In ("L1A", v)
          (Approaches.pct_sums
             (Approaches.dominant_pop_analysis "households_dwellings_q_DA21"
                                               Examples.empty_fsa)) ->
       is_fin v 100).
Proof.
  intros Hclaim. specialize (Hclaim (Fin 0)).
  assert (H : is_fin (Fin 0) 100) by (apply Hclaim; vm_compute; left; reflexivity).
  vm_compute in H. discriminate.
Qed.


(* ================================================================== *)
(** * Count shares and population shares of a quintile group *)
(* ================================================================== *)

Module CountVsPop.
Import FrameFacts MergeFacts GroupSums Approaches ApproachFacts.

Lemma da_analysis_rows (dim_col : string) (df : list final_row) :
  da_analysis_of dim_col df
  = map (count_row_of dim_col df) (group_keys (fsa_quintile_key dim_col) df).
Proof.
  unfold da_analysis_of.
  rewrite (merge_inner_singleton _ fst
             (fun c => (fst (fst c),
                        List.length (group_rows fsa_key df (fst (fst c)))))).
  - unfold groupby_size. rewrite !map_map. apply map_ext. intros k. reflexivity.
  - intros c Hc. unfold groupby_size in Hc. rewrite in_map_iff in Hc.
    destruct Hc as [k [Ec Hk]]. subst c. cbn [fst].
    unfold groupby_size.
    apply (matches_keyed (fun c : string * Z * nat => Some (fst (fst c)))
             (fun f => List.length (group_rows fsa_key df f))).
    + apply NoDup_group_keys.
    + apply In_group_keys in Hk. destruct Hk as [r [Hr Hkey]].
      apply In_group_keys. exists r. split; [exact Hr|].
      unfold fsa_quintile_key in Hkey. unfold fsa_key.
      destruct (column dim_col (f_onmarg r)); [|discriminate].
      now inversion Hkey.
    + reflexivity.
Qed.

Lemma dominant_rows (dim_col : string) (df : list final_row) :
  dominant_pop_analysis dim_col df
  = map (pop_analysis_row_of fsa_key (fsa_quintile_key dim_col)
                             (fun r => Fin (f_Sum_of_Pop r)) df)
        (group_keys (fsa_quintile_key dim_col) df).
Proof.
  unfold dominant_pop_analysis. apply analysis_rows.
  intros r f q. unfold fsa_quintile_key, fsa_key.
  destruct (column dim_col (f_onmarg r)); congruence.
Qed.

(** a group has a DA, so its FSA has one *)
Lemma fsa_count_positive (dim_col : string) (df : list final_row) (k : string * Z) :
  In k (group_keys (fsa_quintile_key dim_col) df) ->
  ~ inject_Z (Z.of_nat (List.length (group_rows fsa_key df (fst k)))) == 0.
Proof.
  intros Hk. apply In_group_keys in Hk. destruct Hk as [r [Hr Hkey]].
  assert (Hin : In r (group_rows fsa_key df (fst k))).
  { apply In_group_rows. split; [exact Hr|].
    unfold fsa_quintile_key in Hkey. unfold fsa_key.
    destruct (column dim_col (f_onmarg r)); [|discriminate].
    inversion Hkey. reflexivity. }
  destruct (group_rows fsa_key df (fst k)) as [|x t]; [destruct Hin|].
  unfold Qeq. cbn [List.length inject_Z Qnum Qden]. lia.
Qed.

Lemma pct_of_empty_total (a T : Q) :
  T == 0 -> forall q, fmul (fdiv (Fin a) (Fin T)) (Fin 100) <> Fin q.
Proof.
  intros HT q. unfold fdiv. rewrite (Script1Edge.Qsgn_zero T HT).
  destruct (Qsgn a); discriminate.
Qed.

(** equal shares in both modes for two groups: equal means *)
Lemma equal_shares_equal_means (n1 n2 N a1 a2 T : Q) :
  ~ N == 0 -> ~ T == 0 ->
  n1 / N * 100 == a1 / T * 100 ->
  n2 / N * 100 == a2 / T * 100 ->
  a1 * n2 == a2 * n1.
Proof.
  intros HN HT H1 H2.
  assert (E1 : a1 == (a1 / T * 100) * (T / 100)) by (field; exact HT).
  assert (E2 : a2 == (a2 / T * 100) * (T / 100)) by (field; exact HT).
  rewrite <- H1 in E1. rewrite <- H2 in E2.
  rewrite E1, E2. field. exact HN.
Qed.

End CountVsPop.

(** C8, as the script has it.  The shares of approaches 1 and 2 belong to the
    (FSA, quintile) groups.  When two groups of one FSA have unequal mean
    populations (population of the group over its number of DAs, compared
    cross-multiplied), at least one of the two has a count percentage that
    differs from its population percentage. *)
Theorem count_and_magnitude_shares_differ
  (df : list Approaches.final_row) (dim_col : string)
  (c1 c2 : Approaches.count_row) (p1 p2 : Approaches.pop_analysis_row)
  (Hc1 : In c1 (Approaches.da_analysis_of dim_col df))
  (Hc2 : In c2 (Approaches.da_analysis_of dim_col df))
  (Hp1 : In p1 (Approaches.dominant_pop_analysis dim_col df))
  (Hp2 : In p2 (Approaches.dominant_pop_analysis dim_col df))
  (Hk1 : (Approaches.n_DominantFSA c1, Approaches.n_Quintile c1)
         = (Approaches.a_FSA p1, Approaches.a_Quintile p1))
  (Hk2 : (Approaches.n_DominantFSA c2, Approaches.n_Quintile c2)
         = (Approaches.a_FSA p2, Approaches.a_Quintile p2))
  (Hfsa : Approaches.n_DominantFSA c1 = Approaches.n_DominantFSA c2)
  (Hmean : ~ finpart (Approaches.a_Pop p1) * inject_Z (Z.of_nat (Approaches.DA_Count c2))
             == finpart (Approaches.a_Pop p2) * inject_Z (Z.of_nat (Approaches.DA_Count c1))) :
  ~ (feqb (Approaches.DA_Percentage c1) (Approaches.Pop_Percentage p1) = true /\
     feqb (Approaches.DA_Percentage c2) (Approaches.Pop_Percentage p2) = true).
Proof.
  rewrite CountVsPop.da_analysis_rows, in_map_iff in Hc1, Hc2.
  rewrite CountVsPop.dominant_rows, in_map_iff in Hp1, Hp2.
  destruct Hc1 as [k1 [E1 Hin1]]. destruct Hc2 as [k2 [E2 Hin2]].
  destruct Hp1 as [k1' [F1 _]]. destruct Hp2 as [k2' [F2 _]].
  subst c1 c2 p1 p2.
  cbn [Approaches.count_row_of Approaches.pop_analysis_row_of
       Approaches.n_DominantFSA Approaches.n_Quintile Approaches.a_FSA
       Approaches.a_Quintile Approaches.DA_Count Approaches.a_Pop
       Approaches.DA_Percentage Approaches.Pop_Percentage] in *.
  assert (Ek1 : k1' = k1) by (destruct k1, k1'; cbn in Hk1; congruence).
  assert (Ek2 : k2' = k2) by (destruct k2, k2'; cbn in Hk2; congruence).
  subst k1' k2'. clear Hk1 Hk2.
  pose proof (CountVsPop.fsa_count_positive dim_col df k1 Hin1) as HN.
  rewrite <- Hfsa in *.
  rewrite !ShareSums.nansum_Fin_map in *. cbn [finpart] in Hmean.
  unfold Approaches.of_nat.
  rewrite !(ShareSums.fdiv_Fin _ _ HN). cbn [fmul].
  set (T := qsum (map Approaches.f_Sum_of_Pop
                      (group_rows Approaches.fsa_key df (fst k1)))) in *.
  intros [H1 H2].
  assert (HT : T == 0 \/ ~ T == 0).
  { destruct (Qeq_dec T 0); [now left | now right]. }
  destruct HT as [HT|HT].
  - destruct (fmul (fdiv (Fin _) (Fin T)) (Fin 100)) as [q| | |] eqn:E;
      try discriminate H1.
    now apply CountVsPop.pct_of_empty_total in E.
  - rewrite (ShareSums.fdiv_Fin _ _ HT) in H1. rewrite (ShareSums.fdiv_Fin _ _ HT) in H2.
    cbn [fmul feqb] in H1, H2.
    apply Qeq_bool_iff in H1. apply Qeq_bool_iff in H2.
    apply Hmean. now apply (CountVsPop.equal_shares_equal_means _ _ _ _ _ T HN HT).
Qed.

Lemma count_and_magnitude_shares_differ_witness :
  let df := Examples.two_quintiles in
  let dim := "households_dwellings_q_DA21" in
  let c1 := {| Approaches.n_DominantFSA := "L1A"; Approaches.n_Quintile := 1;
               Approaches.DA_Count := 1; Approaches.Total_DAs := 2;
               Approaches.DA_Proportion := Fin (1 # 2);
               Approaches.DA_Percentage := Fin (100 # 2) |} in
  let c2 := {| Approaches.n_DominantFSA := "L1A"; Approaches.n_Quintile := 2;
               Approaches.DA_Count := 1; Approaches.Total_DAs := 2;
               Approaches.DA_Proportion := Fin (1 # 2);
               Approaches.DA_Percentage := Fin (100 # 2) |} in
  let p1 := {| Approaches.a_FSA := "L1A"; Approaches.a_Quintile := 1;
               Approaches.a_Pop := Fin 10; Approaches.Total_Population := Fin 40;
               Approaches.Pop_Percentage := Fin (1000 # 40) |} in
  let p2 := {| Approaches.a_FSA := "L1A"; Approaches.a_Quintile := 2;
               Approaches.a_Pop := Fin 30; Approaches.Total_Population := Fin 40;
               Approaches.Pop_Percentage := Fin (3000 # 40) |} in
  In c1 (Approaches.da_analysis_of dim df) /\
  In c2 (Approaches.da_analysis_of dim df) /\
  In p1 (Approaches.dominant_pop_analysis dim df) /\
  In p2 (Approaches.dominant_pop_analysis dim df) /\
  ~ finpart (Approaches.a_Pop p1) * inject_Z (Z.of_nat (Approaches.DA_Count c2))
    == finpart (Approaches.a_Pop p2) * inject_Z (Z.of_nat (Approaches.DA_Count c1)) /\
  ~ (feqb (Approaches.DA_Percentage c1) (Approaches.Pop_Percentage p1) = true /\
     feqb (Approaches.DA_Percentage c2) (Approaches.Pop_Percentage p2) = true).
Proof.
  cbv zeta.
  match goal with
  | |- In ?c1 ?A /\ In ?c2 _ /\ In ?p1 ?B /\ In ?p2 _ /\ ?M /\ _ =>
      assert (Hc1 : In c1 A) by (vm_compute; left; reflexivity);
      assert (Hc2 : In c2 A) by (vm_compute; right; left; reflexivity);
      assert (Hp1 : In p1 B) by (vm_compute; left; reflexivity);
      assert (Hp2 : In p2 B) by (vm_compute; right; left; reflexivity);
      assert (Hm : M) by (vm_compute; discriminate);
      repeat (split; [assumption|]);
      exact (count_and_magnitude_shares_differ
               Examples.two_quintiles "households_dwellings_q_DA21" c1 c2 p1 p2
               Hc1 Hc2 Hp1 Hp2 eq_refl eq_refl eq_refl Hm)
  end.
Defined.

(** C8 as stated fails on approaches 1 and 2: the DAs of the FSA have unequal
    populations (10 and 30 in quintile 1, 20 and 20 in quintile 2), and yet
    every group has the same percentage by count and by population, 50 *)
Lemma equal_shares_with_unequal_units :
  let df := Examples.unequal_units in
  let dim := "households_dwellings_q_DA21" in
  (exists r1 r2, In r1 df /\ In r2 df /\
     ~ Approaches.f_Sum_of_Pop r1 == Approaches.f_Sum_of_Pop r2) /\
  ~ (exists c p,
       In c (Approaches.da_analysis_of dim df) /\
       In p (Approaches.dominant_pop_analysis dim df) /\
       (Approaches.n_DominantFSA c, Approaches.n_Quintile c)
       = (Approaches.a_FSA p, Approaches.a_Quintile p) /\
       feqb (Approaches.DA_Percentage c) (Approaches.Pop_Percentage p) = false).
Proof.
  cbv zeta. split.
  - exists (Examples.final1 "35180001" (Some 1%Z) 10 "L1A"),
           (Examples.final1 "35180002" (Some 1%Z) 30 "L1A").
    split; [now left | split; [right; now left |]].
    vm_compute. discriminate.
  - intros [c [p [Hc [Hp [Hk Hne]]]]].
    vm_compute in Hc. vm_compute in Hp.
    destruct Hc as [<-|[<-|[]]]; destruct Hp as [<-|[<-|[]]];
      vm_compute in Hk; vm_compute in Hne; congruence.
Qed.

(* ================================================================== *)
(** * Further facts: frames with distinct keys *)
(* ================================================================== *)

Module KeyFacts.
Import FrameFacts MergeFacts.

Lemma NoDup_map_eq {A B} (f : A -> B) (l : list A) (a b : A) :
  NoDup (map f l) -> In a l -> In b l -> f a = f b -> a = b.
Proof.
  induction l as [|x t IH]; intros Hd Ha Hb E; [destruct Ha|].
  cbn [map] in Hd. inversion Hd as [|? ? Hn Hd']; subst.
  destruct Ha as [->|Ha], Hb as [->|Hb]; auto.
  - exfalso. apply Hn. rewrite E. now apply in_map.
  - exfalso. apply Hn. rewrite <- E. now apply in_map.
Qed.

Lemma NoDup_map_filter {A B C} (f : A -> B) (g : A -> C) (p : A -> bool) (l : list A) :
  NoDup (map f l) ->
  (forall a b, In a l -> In b l -> p a = true -> p b = true -> g a = g b -> f a = f b) ->
  NoDup (map g (filter p l)).
Proof.
  induction l as [|x t IH]; intros Hd Hinj; [constructor|].
  cbn [map] in Hd. inversion Hd as [|? ? Hn Hd']; subst.
  assert (IH' : NoDup (map g (filter p t))).
  { apply IH; [exact Hd'|]. intros a b Ha Hb. apply Hinj; now right. }
  cbn [filter]. destruct (p x) eqn:Px; [|exact IH'].
  cbn [map]. constructor; [|exact IH'].
  intros Hin. rewrite in_map_iff in Hin. destruct Hin as [y [Ey Hy]].
  apply filter_In in Hy. destruct Hy as [Hy Py].
  apply Hn. rewrite (Hinj x y); [now apply in_map | now left | now right | | | ]; auto.
Qed.

Section AnyKey.
Context {L R K : Type} `{Key K}.
Variable lkey : L -> option K.
Variable rkey : R -> K.

Lemma matches_at_most_one_key (right : list R) (l : L) :
  NoDup (map rkey right) -> (List.length (matches lkey rkey right l) <= 1)%nat.
Proof.
  unfold matches. destruct (lkey l) as [k|]; cbn [okeqb].
  - induction right as [|y t IH]; cbn [map filter]; intros Hd; [simpl; lia|].
    inversion Hd as [|? ? Hn Hd']; subst.
    destruct (keqb_spec k (rkey y)) as [->|Hne]; [|now apply IH].
    assert (Hnil : filter (fun r => keqb (rkey y) (rkey r)) t = []).
    { clear IH Hd Hd'. induction t as [|z t IH]; [reflexivity|]. cbn [filter].
      destruct (keqb_spec (rkey y) (rkey z)) as [E|Hne].
      - exfalso. apply Hn. rewrite E. now left.
      - apply IH. intros Hin. apply Hn. now right. }
    rewrite Hnil. simpl. lia.
  - intros _. rewrite filter_false. simpl. lia.
Qed.

Lemma matches_unique (right : list R) (l : L) (r : R) :
  NoDup (map rkey right) -> In r right -> lkey l = Some (rkey r) ->
  matches lkey rkey right l = [r].
Proof.
  intros Hd Hr Hk.
  pose proof (matches_at_most_one_key right l Hd) as Hlen.
  assert (Hin : In r (matches lkey rkey right l)).
  { unfold matches. rewrite filter_In, okeqb_eq. tauto. }
  destruct (matches lkey rkey right l) as [|x [|y t]]; cbn in Hlen; try lia.
  - destruct Hin.
  - destruct Hin as [->|[]]. reflexivity.
Qed.

Lemma merge_left_length (left : list L) (right : list R) :
  NoDup (map rkey right) ->
  List.length (merge_left lkey rkey left right) = List.length left.
Proof.
  intros Hd. rewrite merge_left_at_most_one.
  - apply length_map.
  - intros l _. now apply matches_at_most_one_key.
Qed.

End AnyKey.

(** in a list of frames built from distinct labels, the rows that only one
    label can produce come from that label's frame *)
Lemma filter_concat_one {A Y} (F : Y -> list A) (p : A -> bool) (ys : list Y) (y0 : Y) :
  NoDup ys -> In y0 ys ->
  (forall y, In y ys -> y <> y0 -> filter p (F y) = []) ->
  filter p (List.concat (map F ys)) = filter p (F y0).
Proof.
  induction ys as [|y t IH]; intros Hd Hin Hother; [destruct Hin|].
  inversion Hd as [|? ? Hn Hd']; subst.
  cbn [map List.concat]. rewrite filter_app.
  destruct Hin as [->|Hin].
  - assert (Ht : filter p (List.concat (map F t)) = []).
    { clear IH Hd Hd'. induction t as [|z t IH]; [reflexivity|].
      cbn [map List.concat]. rewrite filter_app, IH.
      + rewrite (Hother z); [reflexivity | right; now left |].
        intros ->. apply Hn. now left.
      + intros Hin. apply Hn. now right.
      + intros u Hu. apply Hother. destruct Hu as [->|Hu]; [now left | right; now right]. }
    now rewrite Ht, app_nil_r.
  - rewrite (Hother y); [|now left | intros ->; contradiction].
    cbn [app]. apply IH; auto. intros u Hu. apply Hother. now right.
Qed.

End KeyFacts.

(* ================================================================== *)
(** * The first script: the aggregated projection *)
(* ================================================================== *)

Module Script1Agg.
Import FrameFacts MergeFacts KeyFacts GroupSums Script1.

Lemma agg_row_key (k : Z * string * string * string) (v : fval) :
  agg_check_key (let '(y, reg, sex, ag) := k in
                 {| a_YEAR := y; a_REGION_NAME := reg; a_Sex := sex;
                    a_AgeGroup_custom := ag; a_Pop := v |}) = k.
Proof. destruct k as [[[y reg] sex] ag]. reflexivity. Qed.

Lemma agg_row_pop (k : Z * string * string * string) (v : fval) :
  a_Pop (let '(y, reg, sex, ag) := k in
         {| a_YEAR := y; a_REGION_NAME := reg; a_Sex := sex;
            a_AgeGroup_custom := ag; a_Pop := v |}) = v.
Proof. destruct k as [[[y reg] sex] ag]. reflexivity. Qed.

Lemma agg_keys (df_proj : list proj_row) :
  map agg_check_key (df_proj_agg_of df_proj)
  = group_keys agg_key (with_custom_group df_proj).
Proof.
  unfold df_proj_agg_of, groupby_sum. rewrite !map_map.
  rewrite (map_ext _ (fun k => k)); [apply map_id|].
  intros k. cbn [fst snd]. apply agg_row_key.
Qed.

Lemma agg_keys_distinct (df_proj : list proj_row) :
  NoDup (map agg_check_key (df_proj_agg_of df_proj)).
Proof. rewrite agg_keys. apply NoDup_group_keys. Qed.

Lemma agg_pops (df_proj : list proj_row) :
  map a_Pop (df_proj_agg_of df_proj)
  = map (fun k => Fin (qsum (map (fun r => p_Pop (fst r))
                                 (group_rows agg_key (with_custom_group df_proj) k))))
        (group_keys agg_key (with_custom_group df_proj)).
Proof.
  unfold df_proj_agg_of, groupby_sum. rewrite !map_map.
  apply map_ext. intros k. cbn [fst snd]. rewrite agg_row_pop.
  apply ShareSums.nansum_Fin_map.
Qed.


(** every row with a numeric age is in the group of its own key *)
Lemma all_rows_grouped (df_proj : list proj_row) :
  filter (fun r => key_in (agg_key r) (group_keys agg_key (with_custom_group df_proj)))
         (with_custom_group df_proj)
  = with_custom_group df_proj.
Proof.
  rewrite (filter_ext_in _ (fun _ => true)); [apply filter_true|].
  intros r Hr. cbn [agg_key key_in]. apply existsb_exists.
  eexists. split; [|apply keqb_refl].
  apply In_group_keys. exists r. split; [exact Hr | reflexivity].
Qed.

Lemma with_custom_group_rows (df_proj : list proj_row) :
  map fst (with_custom_group df_proj)
  = filter (fun r => match p_Age_numeric r with Some _ => true | None => false end) df_proj.
Proof.
  unfold with_custom_group. induction df_proj as [|r t IH]; [reflexivity|].
  cbn [flat_map filter]. destruct (p_Age_numeric r); cbn; now rewrite IH.
Qed.

End Script1Agg.

(** X1.  Step 5 of the first script loses no population: the aggregated
    projection has one row per (year, region, sex, age group), and its
    populations add up to the population of the projection rows that have a
    numeric age. *)
Theorem aggregation_keeps_population (df_proj : list Script1.proj_row) :
  NoDup (map Script1.agg_check_key (Script1.df_proj_agg_of df_proj)) /\
  is_fin (nansum (map Script1.a_Pop (Script1.df_proj_agg_of df_proj)))
         (qsum (map Script1.p_Pop
                    (filter (fun r => match Script1.p_Age_numeric r with
                                      | Some _ => true
                                      | None => false
                                      end) df_proj))).
Proof.
  split; [apply Script1Agg.agg_keys_distinct|].
  rewrite Script1Agg.agg_pops, ShareSums.nansum_Fin_map. unfold is_fin.
  rewrite (GroupSums.qsum_partition Script1.agg_key (fun r => Script1.p_Pop (fst r)))
    by apply FrameFacts.NoDup_group_keys.
  rewrite Script1Agg.all_rows_grouped, <- Script1Agg.with_custom_group_rows, map_map.
  reflexivity.
Qed.

(* ================================================================== *)
(** * The first script: what the final check finds *)
(* ================================================================== *)

Module Script1Conserve.
Import FrameFacts MergeFacts KeyFacts GroupSums Script1 Script1Facts.

Lemma filter_none {A} (p : A -> bool) (l : list A) :
  (forall x, In x l -> p x = false) -> filter p l = [].
Proof.
  induction l as [|x t IH]; intros Hp; [reflexivity|].
  cbn [filter]. rewrite (Hp x (or_introl eq_refl)). apply IH. intros; apply Hp; now right.
Qed.

Lemma map_filter_same {A B} (f g : A -> B) (p q : A -> bool) (l : list A) :
  (forall x, In x l -> p x = q x) ->
  (forall x, In x l -> q x = true -> f x = g x) ->
  map f (filter p l) = map g (filter q l).
Proof.
  induction l as [|x t IH]; intros Hpq Hfg; [reflexivity|].
  cbn [filter]. rewrite (Hpq x (or_introl eq_refl)).
  assert (IH' : map f (filter p t) = map g (filter q t))
    by (apply IH; intros; [apply Hpq | apply Hfg]; auto; now right).
  destruct (q x) eqn:Q; [|exact IH'].
  cbn [map]. rewrite IH', (Hfg x); auto. now left.
Qed.

Lemma region_map_proj_inj (a b n : string) :
  region_map_proj a = Some n -> region_map_proj b = Some n -> a = b.
Proof.
  unfold region_map_proj.
  destruct (String.eqb_spec a "York"), (String.eqb_spec b "York");
    destruct (String.eqb_spec a "Durham"), (String.eqb_spec b "Durham");
    intros Ha Hb; subst; try discriminate; try reflexivity; congruence.
Qed.

Section Agg.
Variable S : list share_row.
Variable agg : list agg_row.
Hypothesis agg_distinct : NoDup (map agg_check_key agg).

Lemma year_keys_distinct (y : Z) :
  NoDup (map proj_join_key (filter (fun t => (a_YEAR t =? y)%Z) agg)).
Proof.
  apply (NoDup_map_filter agg_check_key); [exact agg_distinct|].
  intros a b _ _ Ha Hb E. apply Z.eqb_eq in Ha. apply Z.eqb_eq in Hb.
  unfold agg_check_key. unfold proj_join_key in E. congruence.
Qed.

Lemma df_year_rows (y : Z) :
  df_year_of S (filter (fun t => (a_YEAR t =? y)%Z) agg)
  = map (fun r => year_row_of r
                    (hd_error (matches share_join_key proj_join_key
                                       (filter (fun t => (a_YEAR t =? y)%Z) agg) r))) S.
Proof.
  unfold df_year_of. rewrite merge_left_at_most_one.
  - now rewrite map_map.
  - intros l _. apply matches_at_most_one_key, year_keys_distinct.
Qed.

(** a row of one year's frame carries that year or none *)
Lemma df_year_other (y y0 : Z) (n sex ag : string) (x : year_row) :
  y <> y0 ->
  In x (df_year_of S (filter (fun t => (a_YEAR t =? y)%Z) agg)) ->
  okeqb (check_key x) (y0, n, sex, ag) = false.
Proof.
  intros Hne Hx. apply In_df_year_of in Hx.
  destruct Hx as [r [[t|] [Ex [_ Hm]]]]; subst x.
  - destruct Hm as [Ht _]. apply filter_In in Ht. destruct Ht as [_ Hy].
    apply Z.eqb_eq in Hy.
    destruct (okeqb (check_key (year_row_of r (Some t))) (y0, n, sex, ag)) eqn:E;
      [|reflexivity].
    apply okeqb_eq in E. unfold check_key in E. cbn in E.
    destruct (Region_proj_name r); [|discriminate]. congruence.
  - reflexivity.
Qed.

Variable t0 : agg_row.
Hypothesis t0_in : In t0 agg.

(** the rows of the final check's group of [t0] *)
Lemma group_of_target :
  group_rows check_key (List.concat (result_rows_of S agg)) (agg_check_key t0)
  = map (fun r => year_row_of r (Some t0))
        (filter (fun r => okeqb (share_join_key r) (proj_join_key t0)) S).
Proof.
  unfold group_rows, result_rows_of.
  rewrite (filter_concat_one
             (fun year => df_year_of S (filter (fun t => (a_YEAR t =? year)%Z) agg))
             _ _ (a_YEAR t0)).
  - rewrite df_year_rows, filter_map_swap.
    assert (Ht0 : In t0 (filter (fun t => (a_YEAR t =? a_YEAR t0)%Z) agg))
      by (apply filter_In; split; [exact t0_in | apply Z.eqb_refl]).
    assert (Hrow : forall r, share_join_key r = Some (proj_join_key t0) ->
              hd_error (matches share_join_key proj_join_key
                                (filter (fun t => (a_YEAR t =? a_YEAR t0)%Z) agg) r)
              = Some t0).
    { intros r Hk.
      now rewrite (matches_unique share_join_key proj_join_key _ r t0
                     (year_keys_distinct (a_YEAR t0)) Ht0 Hk). }
    apply map_filter_same.
    + intros r _.
      destruct (okeqb (share_join_key r) (proj_join_key t0)) eqn:E.
      * apply okeqb_eq in E. rewrite (Hrow r E). apply okeqb_eq.
        unfold check_key, share_join_key in *. cbn.
        destruct (Region_proj_name r) as [n|]; [|discriminate].
        inversion E as [E']. unfold agg_check_key, proj_join_key in *. congruence.
      * destruct (okeqb (check_key _) _) eqn:C; [|reflexivity].
        apply okeqb_eq in C. unfold check_key in C. cbn in C.
        destruct (hd_error _) as [t|]; cbn in C; [|discriminate].
        rewrite <- E. symmetry. apply okeqb_eq.
        unfold share_join_key.
        destruct (Region_proj_name r) as [n|]; [|discriminate].
        unfold agg_check_key, proj_join_key in *. congruence.
    + intros r Hr E. apply okeqb_eq in E. now rewrite (Hrow r E).
  - apply NoDup_unique.
  - apply In_unique. now apply in_map.
  - intros y _ Hne. apply filter_none. intros x Hx.
    destruct (agg_check_key t0) as [[[y0 n] sex] ag] eqn:K.
    apply (df_year_other y y0 n sex ag x); [|exact Hx].
    unfold agg_check_key in K. congruence.
Qed.

End Agg.

(** the share rows that join a target are the rows of one stratum *)
Lemma share_rows_of_target (df : list da_row) (t0 : agg_row) (reg : string) :
  region_map_proj reg = Some (a_REGION_NAME t0) ->
  filter (fun r => okeqb (share_join_key r) (proj_join_key t0)) (with_shares df)
  = map (share_row_of df)
        (group_rows stratum_key df (reg, a_AgeGroup_custom t0, a_Sex t0)).
Proof.
  intros Hreg. rewrite with_shares_rows, filter_map_swap. unfold group_rows.
  f_equal. apply filter_ext. intros r.
  apply eq_true_iff_eq. rewrite !okeqb_eq.
  unfold share_join_key, Region_proj_name, proj_join_key, stratum_key.
  cbn [share_row_of s_da].
  destruct (region_map_proj (Region r)) as [n|] eqn:En; split; intros E.
  - inversion E; subst.
    now rewrite (region_map_proj_inj (Region r) reg _ En Hreg).
  - inversion E; subst. congruence.
  - discriminate.
  - inversion E; subst. congruence.
Qed.


End Script1Conserve.

Module Script1Check.
Import FrameFacts MergeFacts KeyFacts GroupSums Script1 Script1Facts Script1Conserve.

(** a group of the final check is the group of a row of the projection *)
Lemma check_group_target (S : list share_row) (agg : list agg_row)
      (k : Z * string * string * string) :
  In k (group_keys check_key (List.concat (result_rows_of S agg))) ->
  exists t0, In t0 agg /\ agg_check_key t0 = k.
Proof.
  intros Hk. apply In_group_keys in Hk. destruct Hk as [y [Hy Hkey]].
  apply in_concat in Hy. destruct Hy as [frame [Hf Hy]].
  unfold result_rows_of in Hf. rewrite in_map_iff in Hf.
  destruct Hf as [year [<- _]].
  apply In_df_year_of in Hy. destruct Hy as [r [[t|] [Ey [_ Hm]]]]; subst y.
  - destruct Hm as [Ht Hjoin]. apply filter_In in Ht. destruct Ht as [Ht _].
    exists t. split; [exact Ht|].
    unfold check_key in Hkey. cbn in Hkey.
    unfold share_join_key in Hjoin.
    destruct (Region_proj_name r) as [n|]; [|discriminate].
    unfold agg_check_key, proj_join_key in *. congruence.
  - discriminate.
Qed.

Lemma df_projected_frames (S : list share_row) (agg : list agg_row) (dfp : list year_row) :
  df_projected_of S agg = Ok dfp -> dfp = List.concat (result_rows_of S agg).
Proof.
  unfold df_projected_of, concat_frames.
  destruct (result_rows_of S agg); [discriminate | now intros [= <-]].
Qed.

(** a row of the final check: its group, its target and its sum *)
Lemma check_row_parts (S : list share_row) (agg : list agg_row) (c : check_row) :
  NoDup (map agg_check_key agg) ->
  In c (proj_check_of (List.concat (result_rows_of S agg)) agg) ->
  exists t0,
    In t0 agg /\
    agg_check_key t0 = (c_YEAR c, c_Region_proj_name c, c_Sex c, c_AgeGroup c) /\
    c_Pop c = a_Pop t0 /\
    c_Projected_Pop c
    = nansum (map (fun r => fmul (DA_Share r) (a_Pop t0))
                  (filter (fun r => okeqb (share_join_key r) (proj_join_key t0)) S)) /\
    c_Difference c = fsub (c_Projected_Pop c) (c_Pop c).
Proof.
  intros Hd Hc. unfold proj_check_of in Hc. rewrite in_map_iff in Hc.
  destruct Hc as [[[k v] o] [Ec Hin]]. apply In_merge_left in Hin.
  cbn [fst snd] in *. destruct Hin as [Hg Ho].
  unfold groupby_sum in Hg. rewrite in_map_iff in Hg.
  destruct Hg as [k' [Ek Hk]]. inversion Ek; subst k' v. clear Ek.
  destruct (check_group_target S agg k Hk) as [t0 [Ht0 Ekey]].
  exists t0.
  assert (Eo : o = Some t0).
  { destruct o as [t|].
    - destruct Ho as [Ht Et]. inversion Et as [Et'].
      f_equal. apply (NoDup_map_eq agg_check_key agg); auto. congruence.
    - rewrite (matches_unique (fun kv : Z * string * string * string * fval => Some (fst kv))
                 agg_check_key agg _ t0 Hd Ht0) in Ho; [discriminate|].
      cbn. now rewrite Ekey. }
  subst o.
  rewrite <- Ekey, (group_of_target S agg Hd t0 Ht0), map_map in Ec.
  cbn [year_row_of y_Projected_Pop] in Ec.
  destruct (agg_check_key t0) as [[[y n] sex] ag] eqn:K. subst c. cbn.
  repeat split; try reflexivity. exact Ht0.
Qed.

End Script1Check.



(* ================================================================== *)
(** * The first script from end to end *)
(* ================================================================== *)

Module Script1Run.
Import FrameFacts MergeFacts KeyFacts GroupSums Script1 Script1Facts Script1Conserve
       Script1Check.

Lemma builtin_weights (uid : string) (props : list (string * Q)) :
  lookup uid DA_BORDER_DAs = Some props -> qsum (map snd props) == 1.
Proof.
  unfold DA_BORDER_DAs. cbn [lookup].
  destruct (uid =? "35190009")%string; [intros [= <-]; reflexivity|].
  destruct (uid =? "35190965")%string; [intros [= <-]; reflexivity | discriminate].
Qed.

(** weights that sum to 1 leave nothing for step 10 to find *)
Lemma pop_diff_zero (borders : list (string * list (string * Q))) (df_da0 : list da_row) :
  (forall uid props, lookup uid borders = Some props -> qsum (map snd props) == 1) ->
  fltb (pop_diff_of (with_region borders df_da0)
                    (df_da_clean_of borders (with_region borders df_da0)))
       (Fin (1 # 100000)) = true.
Proof.
  intros Hw.
  assert (Hne : forall uid props, lookup uid borders = Some props -> props <> []).
  { intros uid props Hl. apply Script1Split.weights_nonempty. now apply (Hw uid). }
  pose proof (Script1Split.with_region_marked borders df_da0) as Hm.
  pose proof (fun uid => Script1Split.clean_uids borders Hne uid _ Hm) as Huids.
  destruct (Script1SplitCheck.pop_diff_value borders _ Huids) as [keys [_ Hdiff]].
  rewrite Hdiff. apply Script1Split.fltb_zero.
  apply qsum_zero. intros uid _.
  rewrite (Script1Split.clean_pop borders Hw uid _ Hm).
  setoid_replace (da_pop uid (with_region borders df_da0)
                  + - da_pop uid (with_region borders df_da0)) with 0 by ring.
  reflexivity.
Qed.

(** the script past step 10, for the built-in table *)
Lemma main_after_split (df_proj0 : list proj_row) (df_da0 : list da_row) :
  main df_proj0 df_da0
  = let df_proj_agg := df_proj_agg_of (clean_proj df_proj0) in
    let df_da_clean :=
      with_shares (df_da_clean_of DA_BORDER_DAs
                     (with_region DA_BORDER_DAs (clean_da df_da0))) in
    bind (df_projected_of df_da_clean df_proj_agg) (fun df_projected =>
    let proj_check := proj_check_of df_projected df_proj_agg in
    assert_ (fltb (max_diff_of proj_check) (Fin (1 # 100)))
            "Large differences found - check calculations."
      (Ok {| df_projected := df_projected;
             printed_shares_warning := shares_warning df_da_clean;
             proj_check := proj_check |})).
Proof.
  unfold main, run, assert_ at 1.
  now rewrite (pop_diff_zero DA_BORDER_DAs (clean_da df_da0) builtin_weights).
Qed.


(** a cell at or above the bound keeps the maximum from being below it *)
Lemma nanmax_not_below (l : list fval) (q c : Q) :
  In (Fin q) l -> c <= q -> fltb (nanmax l) (Fin c) = false.
Proof.
  intros Hin Hle.
  destruct (fltb (nanmax l) (Fin c)) eqn:E; [|reflexivity].
  destruct (FinalCheck.nanmax_below l c E (Fin q) Hin) as [Hn|Hb]; [discriminate|].
  apply fltb_Fin_true in Hb. exfalso. now apply (Qle_not_lt c q).
Qed.

End Script1Run.

(** X3.  With the script's own table of border DAs the test of step 10 is
    passed whatever the two sheets hold: the first script never stops at the
    assertion that the population changed in the split. *)
Theorem builtin_split_never_fails
  (df_proj : list Script1.proj_row) (df_da : list Script1.da_row) :
  fltb (Script1.pop_diff_of
          (Script1.with_region Script1.DA_BORDER_DAs (Script1.clean_da df_da))
          (Script1.df_da_clean_of Script1.DA_BORDER_DAs
             (Script1.with_region Script1.DA_BORDER_DAs (Script1.clean_da df_da))))
       (Fin (1 # 100000)) = true /\
  Script1.main df_proj df_da
  <> Raise (AssertionError "Population total changed after splitting border DAs!").
Proof.
  split; [apply Script1Run.pop_diff_zero, Script1Run.builtin_weights|].
  rewrite Script1Run.main_after_split. cbv zeta. unfold bind, assert_.
  destruct (Script1.df_projected_of _ _) as [dfp|e] eqn:E.
  - destruct (fltb _ _); discriminate.
  - unfold Script1.df_projected_of, concat_frames in E.
    destruct (Script1.result_rows_of _ _); [|discriminate].
    inversion E. discriminate.
Qed.

Module Script1Outcome.
Import FrameFacts MergeFacts KeyFacts GroupSums Script1 Script1Facts Script1Conserve
       Script1Check Script1Run.

Section Agg.
Variable S : list share_row.
Variable agg : list agg_row.
Hypothesis agg_distinct : NoDup (map agg_check_key agg).

Lemma frames_ok (t : agg_row) :
  In t agg -> df_projected_of S agg = Ok (List.concat (result_rows_of S agg)).
Proof.
  intros Ht. unfold df_projected_of, concat_frames.
  destruct (result_rows_of S agg) eqn:E; [|reflexivity].
  unfold result_rows_of in E. apply map_eq_nil in E.
  assert (Hin : In (a_YEAR t) (unique (map a_YEAR agg)))
    by (apply In_unique; now apply in_map).
  rewrite E in Hin. destruct Hin.
Qed.

(** a share row that joins a projection row gives a row of the final check *)
Lemma check_row_exists (r : share_row) (t : agg_row) :
  In r S -> In t agg -> share_join_key r = Some (proj_join_key t) ->
  exists c, In c (proj_check_of (List.concat (result_rows_of S agg)) agg) /\
            (c_YEAR c, c_Region_proj_name c, c_Sex c, c_AgeGroup c) = agg_check_key t.
Proof.
  intros Hr Ht Hjoin.
  set (dfp := List.concat (result_rows_of S agg)).
  assert (Hy : In (year_row_of r (Some t)) dfp).
  { apply in_concat.
    exists (df_year_of S (filter (fun t' => (a_YEAR t' =? a_YEAR t)%Z) agg)). split.
    - unfold result_rows_of. apply in_map_iff. exists (a_YEAR t).
      split; [reflexivity|]. apply In_unique. now apply in_map.
    - apply In_df_year_of. exists r, (Some t). split; [reflexivity|].
      split; [exact Hr|]. split; [|exact Hjoin].
      apply filter_In. split; [exact Ht | apply Z.eqb_refl]. }
  assert (Hkey : check_key (year_row_of r (Some t)) = Some (agg_check_key t)).
  { unfold check_key, share_join_key in *. cbn.
    destruct (Region_proj_name r) as [n|]; [|discriminate].
    unfold agg_check_key, proj_join_key in *. congruence. }
  assert (Hk : In (agg_check_key t) (group_keys check_key dfp)).
  { apply In_group_keys. now exists (year_row_of r (Some t)). }
  set (v := nansum (map y_Projected_Pop (group_rows check_key dfp (agg_check_key t)))).
  assert (Hin : In ((agg_check_key t, v), Some t)
                   (merge_left (fun kv : Z * string * string * string * fval =>
                                  Some (fst kv))
                               agg_check_key
                               (groupby_sum check_key y_Projected_Pop dfp) agg)).
  { apply In_merge_left. cbn [fst snd]. split; [|split; [exact Ht | reflexivity]].
    unfold groupby_sum. apply in_map_iff. exists (agg_check_key t). now split. }
  eexists. split.
  - unfold proj_check_of. apply in_map_iff. eexists. split; [reflexivity | exact Hin].
  - cbn [fst snd]. destruct (agg_check_key t) as [[[y n] sex] ag]. reflexivity.
Qed.

End Agg.



End Script1Outcome.



Module Script1Abort.
Import FrameFacts MergeFacts KeyFacts GroupSums Script1 Script1Facts Script1Conserve
       Script1Check Script1Run.

(** the shares of a stratum whose rows all hold 0 times a target: nothing is
    left to add up *)
Lemma empty_stratum_allocation (df : list da_row) (k : string * string * string) (v : fval) :
  (forall r, In r df -> stratum_of r = k -> Pop r == 0) ->
  nansum (map (fun r => fmul (DA_Share (share_row_of df r)) v)
              (group_rows stratum_key df k)) = Fin 0.
Proof.
  intros Hz.
  assert (HT : StratumTotal df k == 0).
  { unfold StratumTotal. apply qsum_zero. intros r Hr.
    apply In_group_rows in Hr. destruct Hr as [Hr Hk]. apply (Hz r Hr).
    unfold stratum_key, stratum_of in *. congruence. }
  rewrite (map_ext_in _ (fun _ => NaN)); [apply ShareSums.nansum_all_NaN|].
  intros r Hr. apply In_group_rows in Hr. destruct Hr as [Hr Hk].
  assert (Ek : stratum_of r = k) by (unfold stratum_key, stratum_of in *; congruence).
  cbn [share_row_of DA_Share]. rewrite Ek.
  unfold fdiv. rewrite (Script1Edge.Qsgn_zero _ HT), (Script1Edge.Qsgn_zero _ (Hz r Hr Ek)).
  reflexivity.
Qed.

End Script1Abort.

(** X5.  A stratum without people stops the first script.  If a cleaned DA row
    joins a row of the aggregated projection, every DA row of its stratum
    (region, age group, sex) holds the population 0, and the regional
    projection of that row is at least 0.01 in absolute value, then the shares
    of the stratum are 0/0, the group sums to 0 instead of the projection, and
    the script ends at the assertion of step 15. *)
Theorem empty_stratum_stops_first_script
  (df_proj : list Script1.proj_row) (df_da : list Script1.da_row)
  (r : Script1.da_row) (t : Script1.agg_row) (P : Q)
  (Hr : In r (Script1.df_da_clean_of Script1.DA_BORDER_DAs
                (Script1.with_region Script1.DA_BORDER_DAs (Script1.clean_da df_da))))
  (Ht : In t (Script1.df_proj_agg_of (Script1.clean_proj df_proj)))
  (Hreg : Script1.region_map_proj (Script1.Region r) = Some (Script1.a_REGION_NAME t))
  (Hsex : Script1.Sex r = Script1.a_Sex t)
  (Hage : Script1.AgeGroup r = Script1.a_AgeGroup_custom t)
  (Hzero : forall r',
     In r' (Script1.df_da_clean_of Script1.DA_BORDER_DAs
              (Script1.with_region Script1.DA_BORDER_DAs (Script1.clean_da df_da))) ->
     Script1.stratum_of r' = Script1.stratum_of r -> Script1.Pop r' == 0)
  (HP : Script1.a_Pop t = Fin P)
  (Hbig : 1 # 100 <= Qabs P) :
  Script1.main df_proj df_da
  = Raise (AssertionError "Large differences found - check calculations.").
Proof.
  set (df := Script1.df_da_clean_of Script1.DA_BORDER_DAs
               (Script1.with_region Script1.DA_BORDER_DAs (Script1.clean_da df_da))) in *.
  set (agg := Script1.df_proj_agg_of (Script1.clean_proj df_proj)) in *.
  pose proof (Script1Agg.agg_keys_distinct (Script1.clean_proj df_proj)) as Hd.
  fold agg in Hd.
  rewrite Script1Run.main_after_split. cbv zeta. fold df agg.
  rewrite (Script1Outcome.frames_ok (Script1.with_shares df) agg t Ht).
  cbn [bind]. unfold assert_.
  destruct (Script1Outcome.check_row_exists (Script1.with_shares df) agg
              (Script1.share_row_of df r) t) as [c [Hc Ekey]].
  { rewrite Script1Facts.with_shares_rows. now apply in_map. }
  { exact Ht. }
  { unfold Script1.share_join_key, Script1.Region_proj_name, Script1.proj_join_key.
    cbn [Script1.share_row_of Script1.s_da]. rewrite Hreg. congruence. }
  destruct (Script1Check.check_row_parts _ _ c Hd Hc)
    as [t0 [Ht0 [Ekey0 [Epop [Eproj Ediff]]]]].
  assert (Et : t0 = t).
  { apply (KeyFacts.NoDup_map_eq Script1.agg_check_key agg t0 t Hd Ht0 Ht). congruence. }
  subst t0.
  rewrite (Script1Conserve.share_rows_of_target df t (Script1.Region r) Hreg), map_map in Eproj.
  rewrite (Script1Abort.empty_stratum_allocation df _ (Script1.a_Pop t)) in Eproj.
  2:{ intros r' Hr' Ek. apply (Hzero r' Hr').
      unfold Script1.stratum_of in *. congruence. }
  rewrite Eproj, Epop, HP in Ediff. unfold Script1.max_diff_of.
  rewrite (Script1Run.nanmax_not_below _ (Qabs (0 + - P)) (1 # 100)); [reflexivity| |].
  - apply in_map_iff. exists c. split; [|exact Hc]. rewrite Ediff. reflexivity.
  - setoid_replace (0 + - P) with (- P) by ring. rewrite Qabs_opp. exact Hbig.
Qed.

Lemma empty_stratum_stops_first_script_witness :
  Script1.main Examples.target_500 Examples.empty_stratum
  = Raise (AssertionError "Large differences found - check calculations.").
Proof.
  match goal with
  | |- Script1.main ?P ?D = _ =>
      let d := eval vm_compute in
                 (Script1.df_da_clean_of Script1.DA_BORDER_DAs
                    (Script1.with_region Script1.DA_BORDER_DAs (Script1.clean_da D))) in
      let a := eval vm_compute in (Script1.df_proj_agg_of (Script1.clean_proj P)) in
      match d with
      | ?r0 :: _ =>
          match a with
          | ?t0 :: _ => apply (empty_stratum_stops_first_script P D r0 t0 500)
          end
      end
  end.
  - vm_compute. left. reflexivity.
  - vm_compute. left. reflexivity.
  - reflexivity.
  - reflexivity.
  - reflexivity.
  - intros r' Hr' _. vm_compute in Hr'. destruct Hr' as [<-|[]]. reflexivity.
  - vm_compute. reflexivity.
  - vm_compute. discriminate.
Defined.

Module Script1Rows.
Import FrameFacts MergeFacts KeyFacts Script1 Script1Facts Script1Conserve Script1Check
       Script1Run.

Lemma length_concat_const {A Y} (F : Y -> list A) (n : nat) (ys : list Y) :
  (forall y, List.length (F y) = n) ->
  List.length (List.concat (map F ys)) = (List.length ys * n)%nat.
Proof.
  intros HF. induction ys as [|y t IH]; [reflexivity|].
  cbn [map List.concat List.length]. rewrite length_app, HF, IH. lia.
Qed.

(** the output of a run that ends well *)
Lemma main_output (df_proj0 : list proj_row) (df_da0 : list da_row) (out : output) :
  main df_proj0 df_da0 = Ok out ->
  df_projected out
  = List.concat
      (result_rows_of
         (with_shares (df_da_clean_of DA_BORDER_DAs
                         (with_region DA_BORDER_DAs (clean_da df_da0))))
         (df_proj_agg_of (clean_proj df_proj0))).
Proof.
  rewrite main_after_split. cbv zeta. unfold bind, assert_.
  destruct (df_projected_of _ _) as [dfp|e] eqn:E; [|discriminate].
  apply df_projected_frames in E.
  destruct (fltb _ _); [|discriminate].
  intros [= <-]. exact E.
Qed.

End Script1Rows.

(** X6.  The output of the first script has one row for every row of the
    cleaned DA frame (border rows split in two) and every year of the
    aggregated projection: the yearly left merge neither drops a DA row, also
    one of an unknown region, nor repeats one. *)
Theorem one_row_per_da_and_year
  (df_proj : list Script1.proj_row) (df_da : list Script1.da_row) (out : Script1.output)
  (Hout : Script1.main df_proj df_da = Ok out) :
  List.length (Script1.df_projected out)
  = (List.length (unique (map Script1.a_YEAR
                             (Script1.df_proj_agg_of (Script1.clean_proj df_proj))))
     * List.length (Script1.df_da_clean_of Script1.DA_BORDER_DAs
                      (Script1.with_region Script1.DA_BORDER_DAs
                         (Script1.clean_da df_da))))%nat.
Proof.
  rewrite (Script1Rows.main_output _ _ _ Hout). unfold Script1.result_rows_of.
  apply Script1Rows.length_concat_const. intros y.
  rewrite (Script1Conserve.df_year_rows _ _
             (Script1Agg.agg_keys_distinct (Script1.clean_proj df_proj))).
  now rewrite length_map, Script1Facts.with_shares_rows, length_map.
Qed.

Lemma one_row_per_da_and_year_witness :
  exists out,
    Script1.main Examples.target_500 Examples.durham_and_york = Ok out /\
    List.length (Script1.df_projected out) = 2%nat.
Proof.
  match goal with
  | |- exists out, ?M = Ok out /\ _ =>
      let v := eval vm_compute in M in
      match v with
      | Ok ?o =>
          exists o;
          assert (E : M = Ok o) by (vm_compute; reflexivity);
          split; [exact E|];
          exact (eq_trans (one_row_per_da_and_year _ _ o E) eq_refl)
      end
  end.
Defined.

Module RegionFacts.

(** [s.startswith(p)] and [s[:len(p)] == p] *)
Lemma prefix_substring (p s : string) :
  prefix p s = (substring 0 (String.length p) s =? p).
Proof.
  destruct (prefix p s) eqn:E.
  - apply prefix_correct in E. symmetry. now apply String.eqb_eq.
  - symmetry. apply String.eqb_neq. intros H. apply prefix_correct in H. congruence.
Qed.

End RegionFacts.

(** X7.  The two scripts give a DA the same region unless it is one of the two
    border DAs: off the table [DA_BORDER_DAs], the first script's
    [assign_region] on the first four characters and the second script's
    [assign_region_by_da] agree on Durham and on York, and a DA that the first
    script calls Unknown is a DA that the second script drops. *)
Theorem scripts_agree_off_border (da_uid : string)
  (Hoff : Script1.in_dict da_uid Script1.DA_BORDER_DAs = false) :
  let region := Script1.assign_region Script1.DA_BORDER_DAs da_uid (substring 0 4 da_uid) in
  (region = "Durham" <-> Script2.assign_region_by_da da_uid = Some "Durham") /\
  (region = "York" <-> Script2.assign_region_by_da da_uid = Some "York") /\
  (region = "Unknown" <-> Script2.assign_region_by_da da_uid = None).
Proof.
  cbv zeta. unfold Script1.assign_region, Script2.assign_region_by_da.
  rewrite Hoff, !RegionFacts.prefix_substring.
  unfold Script2.durham_prefix, Script2.york_prefix. cbn [String.length].
  destruct (String.eqb_spec (substring 0 4 da_uid) "3519") as [E9|N9];
    destruct (String.eqb_spec (substring 0 4 da_uid) "3518") as [E8|N8];
    try (rewrite E9 in E8; discriminate);
    repeat split; intros H; try discriminate H; reflexivity.
Qed.

Lemma scripts_agree_off_border_witness :
  let region := Script1.assign_region Script1.DA_BORDER_DAs "35180001"
                  (substring 0 4 "35180001") in
  (region = "Durham" <-> Script2.assign_region_by_da "35180001" = Some "Durham") /\
  (region = "York" <-> Script2.assign_region_by_da "35180001" = Some "York") /\
  (region = "Unknown" <-> Script2.assign_region_by_da "35180001" = None).
Proof. apply (scripts_agree_off_border "35180001"). reflexivity. Defined.

Module ShareBounds.
Import FrameFacts.

Lemma qsum_nonneg {A} (g : A -> Q) (l : list A) :
  (forall x, In x l -> 0 <= g x) -> 0 <= qsum (map g l).
Proof.
  induction l as [|x t IH]; intros Hg; cbn [map]; [apply Qle_refl|].
  rewrite qsum_cons. apply (Qle_trans _ (0 + 0)); [discriminate|].
  apply Qplus_le_compat; [apply Hg; now left | apply IH; intros; apply Hg; now right].
Qed.

Lemma qsum_ge_member {A} (g : A -> Q) (l : list A) (a : A) :
  (forall x, In x l -> 0 <= g x) -> In a l -> g a <= qsum (map g l).
Proof.
  induction l as [|x t IH]; intros Hg Hin; [destruct Hin|].
  cbn [map]. rewrite qsum_cons.
  assert (Ht : forall y, In y t -> 0 <= g y) by (intros; apply Hg; now right).
  destruct Hin as [->|Hin].
  - apply (Qle_trans _ (g a + 0)); [rewrite Qplus_0_r; apply Qle_refl|].
    apply Qplus_le_compat; [apply Qle_refl | now apply qsum_nonneg].
  - apply (Qle_trans _ (0 + g a)); [rewrite Qplus_0_l; apply Qle_refl|].
    apply Qplus_le_compat; [apply Hg; now left | now apply IH].
Qed.

(** a part of a total of non-negative parts, divided by the total *)
Lemma part_of_total (p T : Q) :
  0 <= p -> p <= T ->
  fdiv (Fin p) (Fin T) = NaN \/
  exists q, fdiv (Fin p) (Fin T) = Fin q /\ 0 <= q /\ q <= 1.
Proof.
  intros Hp HpT. destruct (Qeq_dec T 0) as [E|N].
  - left. unfold fdiv. rewrite (Script1Edge.Qsgn_zero T E).
    assert (Ep : p == 0) by (apply Qle_antisym; [now rewrite <- E | exact Hp]).
    now rewrite (Script1Edge.Qsgn_zero p Ep).
  - right. exists (p / T). split; [now apply ShareSums.fdiv_Fin|].
    assert (HT : 0 < T).
    { destruct (Qle_lt_or_eq 0 T (Qle_trans _ _ _ Hp HpT)) as [H|H]; [exact H|].
      exfalso. apply N. now symmetry. }
    split.
    + apply Qle_shift_div_l; [exact HT|]. now rewrite Qmult_0_l.
    + apply Qle_shift_div_r; [exact HT|]. now rewrite Qmult_1_l.
Qed.

End ShareBounds.

(** X8.  With populations that are not negative, the share of a row of the
    cleaned DA frame is a number between 0 and 1, or NaN (when its stratum
    holds nobody): step 11 never gives an infinite share, a negative one or
    one above 1. *)
Theorem share_is_a_fraction (df : list Script1.da_row) (s : Script1.share_row)
  (Hpos : forall r, In r df -> 0 <= Script1.Pop r)
  (Hs : In s (Script1.with_shares df)) :
  Script1.DA_Share s = NaN \/
  exists q, Script1.DA_Share s = Fin q /\ 0 <= q /\ q <= 1.
Proof.
  rewrite Script1Facts.with_shares_rows, in_map_iff in Hs.
  destruct Hs as [r [<- Hr]]. cbn [Script1.share_row_of Script1.DA_Share].
  assert (Hg : In r (group_rows Script1.stratum_key df (Script1.stratum_of r))).
  { apply FrameFacts.In_group_rows. split; [exact Hr | reflexivity]. }
  assert (Hall : forall x, In x (group_rows Script1.stratum_key df (Script1.stratum_of r)) ->
                           0 <= Script1.Pop x).
  { intros x Hx. apply FrameFacts.In_group_rows in Hx. apply Hpos, Hx. }
  apply ShareBounds.part_of_total; [now apply Hpos|].
  unfold Script1.StratumTotal. now apply ShareBounds.qsum_ge_member.
Qed.

Lemma share_is_a_fraction_witness :
  exists s, In s (Script1.with_shares Examples.two_units) /\
    (Script1.DA_Share s = NaN \/
     exists q, Script1.DA_Share s = Fin q /\ 0 <= q /\ q <= 1).
Proof.
  assert (Hpos : forall r, In r Examples.two_units -> 0 <= Script1.Pop r).
  { intros r Hr. vm_compute in Hr. destruct Hr as [<-|[<-|[]]]; vm_compute; discriminate. }
  match eval vm_compute in (Script1.with_shares Examples.two_units) with
  | ?s0 :: _ =>
      assert (Hs : In s0 (Script1.with_shares Examples.two_units))
        by (vm_compute; left; reflexivity);
      exists s0; split; [exact Hs|];
      exact (share_is_a_fraction Examples.two_units s0 Hpos Hs)
  end.
Defined.

(* ================================================================== *)
(** * The second script: what the sums of step 5 hold *)
(* ================================================================== *)

Module Script2Totals.
Import FrameFacts MergeFacts KeyFacts Script2 Script2Facts.

Lemma grouped_row_key (k : Z * string * string * string) (v : fval) :
  year_stratum (let '(y, reg, ag, sex) := k in
                {| p_Year := y; p_REGION_NAME := reg; p_AgeGroup := ag;
                   p_Sex := sex; p_Pop := v |}) = k.
Proof. destruct k as [[[y reg] ag] sex]. reflexivity. Qed.

Lemma grouped_keys (df_proj : list proj_row) :
  map year_stratum (df_proj_grouped df_proj)
  = group_keys proj_key (filter (fun r => isin (p_AgeGroup r) target_age_groups) df_proj).
Proof.
  unfold df_proj_grouped, groupby_sum. rewrite !map_map.
  rewrite (map_ext _ (fun k => k)); [apply map_id|].
  intros k. cbn [fst snd]. apply grouped_row_key.
Qed.

Lemma grouped_keys_distinct (df_proj : list proj_row) :
  NoDup (map year_stratum (df_proj_grouped df_proj)).
Proof. rewrite grouped_keys. apply NoDup_group_keys. Qed.

(** the grouped projection holds target age groups only: the second filter
    keeps it whole *)
Lemma grouped_target (df_proj : list proj_row) (p : proj_row) :
  In p (df_proj_grouped df_proj) -> isin (p_AgeGroup p) target_age_groups = true.
Proof.
  intros Hp. apply (in_map year_stratum) in Hp. rewrite grouped_keys in Hp.
  apply In_group_keys in Hp. destruct Hp as [r [Hr Hk]].
  apply filter_In in Hr. destruct Hr as [_ Hr].
  unfold proj_key, year_stratum in Hk. injection Hk as Ey En Ea Es. rewrite <- Ea. exact Hr.
Qed.

Lemma grouped_filter (df_proj : list proj_row) :
  filter (fun r => isin (p_AgeGroup r) target_age_groups) (df_proj_grouped df_proj)
  = df_proj_grouped df_proj.
Proof.
  rewrite (filter_ext_in _ (fun _ => true)); [apply filter_true|].
  intros p Hp. now apply (grouped_target df_proj).
Qed.

Lemma df_combined_rows (P : list proj_row) (D : list prop_row) :
  df_combined_of P D
  = List.concat (map (rows_for D)
                     (filter (fun r => isin (p_AgeGroup r) target_age_groups) P)).
Proof.
  unfold df_combined_of.
  generalize (filter (fun r => isin (p_AgeGroup r) target_age_groups) P). intros ys.
  unfold merge_left. induction ys as [|p t IH]; [reflexivity|].
  cbn [flat_map map List.concat]. rewrite map_app. f_equal; [|exact IH].
  unfold rows_for. destruct (matches proj_join_key da_join_key D p) as [|m ms].
  - reflexivity.
  - cbn [map fst snd]. f_equal. rewrite map_map. reflexivity.
Qed.

Lemma rows_for_proj (D : list prop_row) (p : proj_row) (c : combined_row) :
  In c (rows_for D p) -> c_proj c = p.
Proof.
  unfold rows_for. destruct (matches proj_join_key da_join_key D p) as [|m ms].
  - intros [<-|[]]. reflexivity.
  - rewrite in_map_iff. intros [d [<- _]]. reflexivity.
Qed.

(** the group of a row of the grouped projection in the sums of step 5 *)
Lemma group_of_row (df_proj : list proj_row) (D : list prop_row) (p : proj_row) :
  In p (df_proj_grouped df_proj) ->
  group_rows (fun c => proj_key (c_proj c))
             (df_combined_of (df_proj_grouped df_proj) D) (year_stratum p)
  = rows_for D p.
Proof.
  intros Hp. unfold group_rows.
  rewrite df_combined_rows, grouped_filter.
  pose proof (grouped_keys_distinct df_proj) as Hd.
  rewrite (filter_concat_one (rows_for D) _ _ p).
  - rewrite (filter_ext_in _ (fun _ => true)); [apply filter_true|].
    intros c Hc. rewrite (rows_for_proj D p c Hc). apply okeqb_eq. reflexivity.
  - now apply NoDup_map_inv in Hd.
  - exact Hp.
  - intros y Hy Hne. apply Script1Conserve.filter_none. intros c Hc.
    rewrite (rows_for_proj D y c Hc).
    destruct (okeqb (proj_key y) (year_stratum p)) eqn:E; [|reflexivity].
    apply okeqb_eq in E. exfalso. apply Hne.
    apply (NoDup_map_eq year_stratum _ y p Hd Hy Hp).
    unfold proj_key in E. unfold year_stratum in *. congruence.
Qed.

(** the DA rows that join a projection row are the rows of its stratum *)
Lemma matches_of_stratum (df_da : list da_row) (p : proj_row) (short : string) :
  region_name_map (p_REGION_NAME p) = Some short ->
  matches proj_join_key da_join_key (with_props (with_region df_da)) p
  = map (prop_row_of (with_region df_da))
        (group_rows stratum_key (with_region df_da) (short, p_AgeGroup p, p_Sex p)).
Proof.
  intros Hs. rewrite with_props_rows. unfold matches, group_rows.
  rewrite filter_map_swap. f_equal. apply filter_ext_in. intros r Hr.
  apply with_region_name in Hr. destruct Hr as [_ Hr]. apply assigned_short in Hr.
  apply eq_true_iff_eq. rewrite !okeqb_eq.
  unfold proj_join_key, da_join_key, stratum_key. rewrite Hs.
  cbn [prop_row_of q_da r_da REGION_NAME]. rewrite Hr.
  split; intros E; inversion E; subst; reflexivity.
Qed.

Lemma stratum_group_total (df_da : list da_row) (p : proj_row) (short : string) (P T : Q) :
  region_name_map (p_REGION_NAME p) = Some short ->
  p_Pop p = Fin P ->
  census_total (short, p_AgeGroup p, p_Sex p) = Fin T ->
  is_fin (nansum (map c_Projected_Pop (rows_for (with_props (with_region df_da)) p)))
         (P * StratumTotal (with_region df_da) (short, p_AgeGroup p, p_Sex p) / T).
Proof.
  intros Hs HP HT.
  assert (HT0 : ~ T == 0).
  { destruct (ShareSums.census_total_cases (short, p_AgeGroup p, p_Sex p))
      as [E|[T' [E HT']]]; congruence. }
  unfold rows_for, StratumTotal. rewrite (matches_of_stratum df_da p short Hs).
  set (k := (short, p_AgeGroup p, p_Sex p)) in *.
  assert (Hval : forall r, In r (group_rows stratum_key (with_region df_da) k) ->
            c_Projected_Pop (combined_row_of p (Some (prop_row_of (with_region df_da) r)))
            = Fin (P * (Pop (r_da r) / T))).
  { intros r Hr. apply In_group_rows in Hr. destruct Hr as [Hr Hk].
    apply with_region_name in Hr. destruct Hr as [_ Hr]. apply assigned_short in Hr.
    cbn [combined_row_of c_Projected_Pop prop_row_of Prop_DA_in_Region_2021].
    unfold stratum_of. cbn [r_da REGION_NAME]. rewrite Hr, HP.
    replace (REGION_NAME r, AgeGroup (r_da r), Sex (r_da r)) with k
      by (unfold stratum_key in Hk; congruence).
    rewrite HT, (ShareSums.fdiv_Fin _ _ HT0). reflexivity. }
  destruct (group_rows stratum_key (with_region df_da) k) as [|x l] eqn:G.
  - cbn. rewrite HP. cbn. unfold Qdiv. ring.
  - change (map (prop_row_of (with_region df_da)) (x :: l))
      with (prop_row_of (with_region df_da) x :: map (prop_row_of (with_region df_da)) l).
    cbv iota beta.
    change (prop_row_of (with_region df_da) x :: map (prop_row_of (with_region df_da)) l)
      with (map (prop_row_of (with_region df_da)) (x :: l)).
    rewrite !map_map, (map_ext_in _ _ _ Hval), ShareSums.nansum_Fin_map.
    unfold is_fin.
    rewrite (qsum_ext _ (fun r => Pop (r_da r) / T * P)) by (intros; ring).
    rewrite qsum_scale, ShareSums.qsum_div_total by exact HT0.
    field. exact HT0.
Qed.

End Script2Totals.

(** X9.  What the second script allocates to a stratum.  For a row of the
    grouped projection of a region the script knows, with the population P,
    whose stratum (region, age group, sex) has the census total T, the sums
    of step 5 hold, for the row's year and stratum, P times the 2021
    population of the stratum's DAs divided by T: the regional projection is
    reproduced only when the DAs add up to the census total. *)
Theorem second_script_group_total
  (df_proj : list Script2.proj_row) (df_da : list Script2.da_row)
  (p : Script2.proj_row) (short : string) (P T : Q)
  (Hp : In p (Script2.df_proj_grouped df_proj))
  (Hs : Script2.region_name_map (Script2.p_REGION_NAME p) = Some short)
  (HP : Script2.p_Pop p = Fin P)
  (HT : Script2.census_total (short, Script2.p_AgeGroup p, Script2.p_Sex p) = Fin T) :
  exists out v,
    Script2.main df_proj df_da = Ok out /\
    In (Script2.year_stratum p, v) (Script2.totals2 out) /\
    is_fin v (P * Script2.StratumTotal (Script2.with_region df_da)
                    (short, Script2.p_AgeGroup p, Script2.p_Sex p) / T).
Proof.
  unfold Script2.main. cbv zeta. eexists. eexists. split; [reflexivity|].
  cbn [Script2.totals2]. unfold Script2.region_age_sex_year_totals2, groupby_sum.
  split.
  - apply in_map_iff. exists (Script2.year_stratum p). split; [reflexivity|].
    apply FrameFacts.In_group_keys.
    pose proof (Script2Totals.group_of_row df_proj
                  (Script2.with_props (Script2.with_region df_da)) p Hp) as Hg.
    assert (Hne : exists c, In c (Script2.rows_for
                                    (Script2.with_props (Script2.with_region df_da)) p)).
    { unfold Script2.rows_for.
      destruct (matches _ _ _ p) as [|m ms]; eexists; left; reflexivity. }
    destruct Hne as [c Hc]. rewrite <- Hg in Hc.
    apply FrameFacts.In_group_rows in Hc. exists c. exact Hc.
  - rewrite (Script2Totals.group_of_row df_proj _ p Hp).
    now apply Script2Totals.stratum_group_total.
Qed.

Lemma second_script_group_total_witness :
  exists p out v,
    In p (Script2.df_proj_grouped Examples.durham_500) /\
    Script2.main Examples.durham_500 Examples.one_durham_da = Ok out /\
    In (Script2.year_stratum p, v) (Script2.totals2 out) /\
    is_fin v (500 * 100 / 64230).
Proof.
  match eval vm_compute in (Script2.df_proj_grouped Examples.durham_500) with
  | ?p0 :: _ =>
      match eval vm_compute in (Script2.p_Pop p0) with
      | Fin ?P0 =>
          assert (Hp : In p0 (Script2.df_proj_grouped Examples.durham_500))
            by (vm_compute; left; reflexivity);
          destruct (second_script_group_total Examples.durham_500 Examples.one_durham_da
                      p0 "Durham" P0 64230 Hp eq_refl eq_refl eq_refl)
            as [out [v [Hout [Hin Hv]]]];
          exists p0, out, v
      end
  end.
  repeat (split; [assumption|]).
  destruct v as [x| | |]; try contradiction.
  unfold is_fin in *. rewrite Hv. vm_compute. reflexivity.
Defined.

(* ================================================================== *)
(** * Approach 1: what its validation compares *)
(* ================================================================== *)

Module CountFacts.
Import FrameFacts MergeFacts GroupSums Approaches ApproachFacts CountVsPop.

Lemma combine_map {A B C} (g : A -> B) (h : A -> C) (l : list A) :
  combine (map g l) (map h l) = map (fun x => (g x, h x)) l.
Proof. induction l as [|x t IH]; [reflexivity|]. cbn [map combine]. now rewrite IH. Qed.

Lemma list_sum_cons (x : nat) (l : list nat) : list_sum (x :: l) = (x + list_sum l)%nat.
Proof. reflexivity. Qed.

Lemma list_sum_plus {A} (f g : A -> nat) (l : list A) :
  list_sum (map (fun a => f a + g a)%nat l) = (list_sum (map f l) + list_sum (map g l))%nat.
Proof.
  induction l as [|a t IH]; [reflexivity|]. cbn [map]. rewrite !list_sum_cons, IH. lia.
Qed.

Lemma list_sum_zero {A} (l : list A) : list_sum (map (fun _ => 0%nat) l) = 0%nat.
Proof. induction l as [|a t IH]; [reflexivity|]. cbn [map]. now rewrite list_sum_cons, IH. Qed.

Section Counting.
Context {R K : Type} `{Key K}.
Variable key : R -> option K.

Lemma indicator_count (o : option K) (ks : list K) :
  NoDup ks ->
  list_sum (map (fun k => if okeqb o k then 1 else 0)%nat ks)
  = if key_in o ks then 1%nat else 0%nat.
Proof.
  destruct o as [k0|]; cbn [key_in okeqb].
  - induction 1 as [|k t Hn Hd IH]; cbn [map existsb]; [reflexivity|].
    rewrite list_sum_cons, IH.
    destruct (keqb_spec k0 k) as [->|Hne]; cbn [orb]; [|reflexivity].
    assert (Hex : existsb (keqb k) t = false).
    { destruct (existsb (keqb k) t) eqn:E; [|reflexivity].
      apply existsb_exists in E. destruct E as [y [Hy Ey]].
      apply keqb_eq in Ey. subst y. contradiction. }
    now rewrite Hex.
  - intros _. apply list_sum_zero.
Qed.

(** the sizes of the groups of distinct keys add up to the number of rows
    that belong to one of them *)
Lemma size_partition (rows : list R) (ks : list K) :
  NoDup ks ->
  list_sum (map (fun k => List.length (group_rows key rows k)) ks)
  = List.length (filter (fun r => key_in (key r) ks) rows).
Proof.
  intros Hd. induction rows as [|a t IH].
  - cbn [group_rows filter List.length]. apply list_sum_zero.
  - rewrite (map_ext _ (fun k => ((if okeqb (key a) k then 1 else 0)
                                  + List.length (group_rows key t k))%nat)).
    + rewrite list_sum_plus, IH, (indicator_count (key a) ks Hd).
      cbn [filter]. destruct (key_in (key a) ks); reflexivity.
    + intros k. unfold group_rows. cbn [filter].
      destruct (okeqb (key a) k); reflexivity.
Qed.

End Counting.

(** two filters, one inside the other, keep as many rows only when they keep
    the same rows *)
Lemma length_filter_sub {A} (p q : A -> bool) (l : list A) :
  (forall x, p x = true -> q x = true) ->
  List.length (filter p l) = List.length (filter q l) <->
  (forall x, In x l -> q x = true -> p x = true).
Proof.
  intros Hpq.
  assert (Hle : forall l', (List.length (filter p l') <= List.length (filter q l'))%nat).
  { induction l' as [|x t IH]; [reflexivity|]. cbn [filter].
    destruct (p x) eqn:P; [rewrite (Hpq x P); cbn; lia|].
    destruct (q x); cbn; lia. }
  induction l as [|x t IH]; [split; [intros _ y []|reflexivity]|].
  cbn [filter]. destruct (p x) eqn:P.
  - rewrite (Hpq x P). cbn [List.length]. split.
    + intros E y [<-|Hy] Hq; [exact P|]. apply IH; [lia | exact Hy | exact Hq].
    + intros Hall. f_equal. apply IH. intros y Hy. apply Hall. now right.
  - destruct (q x) eqn:Q.
    + cbn [List.length]. split.
      * intros E. pose proof (Hle t). lia.
      * intros Hall. rewrite (Hall x (or_introl eq_refl) Q) in P. discriminate.
    + split.
      * intros E y [<-|Hy] Hq; [congruence|]. apply IH; assumption.
      * intros Hall. apply IH. intros y Hy. apply Hall. now right.
Qed.

Section Validation.
Variable dim_col : string.
Variable df : list final_row.

Let by_fsa := fun r : count_row => Some (n_DominantFSA r).
Let fq := fsa_quintile_key dim_col.

Lemma fq_fsa (r : final_row) (f : string) (q : Z) :
  fq r = Some (f, q) -> f_DominantFSA r = f /\ column dim_col (f_onmarg r) = Some q.
Proof.
  unfold fq, fsa_quintile_key. destruct (column dim_col (f_onmarg r)); [|discriminate].
  intros [= <- <-]. now split.
Qed.

Lemma result_rows_of_fsa (f : string) :
  group_rows by_fsa (da_analysis_of dim_col df) f
  = map (count_row_of dim_col df) (keys_of fq df f).
Proof.
  rewrite da_analysis_rows. unfold group_rows, keys_of. now rewrite filter_map_swap.
Qed.

Lemma result_fsas (f : string) :
  In f (group_keys by_fsa (da_analysis_of dim_col df)) <->
  exists r, In r df /\ f_DominantFSA r = f /\ column dim_col (f_onmarg r) <> None.
Proof.
  rewrite In_group_keys, da_analysis_rows. split.
  - intros [c [Hc Hf]]. rewrite in_map_iff in Hc. destruct Hc as [[f' q] [<- Hk]].
    apply In_group_keys in Hk. destruct Hk as [r [Hr Hkey]].
    destruct (fq_fsa r f' q Hkey) as [Ef Eq].
    exists r. unfold by_fsa in Hf. cbn in Hf. split; [exact Hr|]. split; congruence.
  - intros [r [Hr [Hf Hq]]].
    destruct (column dim_col (f_onmarg r)) as [q|] eqn:Eq; [|congruence].
    exists (count_row_of dim_col df (f, q)). split; [|reflexivity].
    apply in_map. apply In_group_keys. exists r. split; [exact Hr|].
    unfold fsa_quintile_key. now rewrite Eq, Hf.
Qed.

(** the rows that the (FSA, quintile) groups of one FSA count *)
Lemma counted_rows (f : string) (r : final_row) :
  In r df ->
  key_in (fq r) (keys_of fq df f)
  = okeqb (fsa_key r) f && match column dim_col (f_onmarg r) with
                           | Some _ => true
                           | None => false
                           end.
Proof.
  intros Hr. apply eq_true_iff_eq. rewrite andb_true_iff, okeqb_eq.
  unfold fsa_key. destruct (fq r) as [[f' q]|] eqn:E; cbn [key_in].
  - destruct (fq_fsa r f' q E) as [Ef Eq]. rewrite Eq, existsb_exists. split.
    + intros [k [Hk Ek]]. apply keqb_eq in Ek. subst k.
      apply In_keys_of in Hk. cbn [fst] in Hk. split; [|reflexivity].
      destruct Hk as [<- _]. now rewrite Ef.
    + intros [Hf _]. exists (f', q). split; [|apply keqb_refl].
      apply In_keys_of. cbn [fst]. split; [congruence|]. now exists r.
  - unfold fq, fsa_quintile_key in E.
    destruct (column dim_col (f_onmarg r)); [discriminate|].
    split; [discriminate | intros [_ H]; discriminate].
Qed.

Lemma check_value (f : string) :
  list_sum (map DA_Count (group_rows by_fsa (da_analysis_of dim_col df) f))
  = List.length
      (filter (fun r => okeqb (fsa_key r) f
                        && match column dim_col (f_onmarg r) with
                           | Some _ => true
                           | None => false
                           end) df).
Proof.
  rewrite result_rows_of_fsa, map_map. cbn [count_row_of DA_Count].
  rewrite (size_partition fq df _ (NoDup_keys_of fq df f)).
  f_equal. apply filter_ext_in. intros r Hr. now apply counted_rows.
Qed.

Lemma original_value (f : string) :
  In f (group_keys by_fsa (da_analysis_of dim_col df)) ->
  match group_rows by_fsa (da_analysis_of dim_col df) f with
  | r :: _ => Total_DAs r
  | [] => 0%nat
  end = List.length (group_rows fsa_key df f).
Proof.
  intros Hf. rewrite result_rows_of_fsa.
  apply result_fsas in Hf. destruct Hf as [r [Hr [Ef Hq]]].
  destruct (column dim_col (f_onmarg r)) as [q|] eqn:Eq; [|congruence].
  assert (Hk : In (f, q) (keys_of fq df f)).
  { apply In_keys_of. split; [reflexivity|]. exists r. split; [exact Hr|].
    unfold fq, fsa_quintile_key. now rewrite Eq, Ef. }
  destruct (keys_of fq df f) as [|k t] eqn:Ek; [destruct Hk|].
  cbn [map count_row_of Total_DAs].
  assert (Hk0 : In k (keys_of fq df f)) by (rewrite Ek; now left).
  apply In_keys_of in Hk0. destruct Hk0 as [-> _]. reflexivity.
Qed.

End Validation.

End CountFacts.

(** X10.  The validation printed after approach 1 passes exactly when no FSA
    of the result mixes DAs that have a quintile with DAs that have none.
    The counts of an FSA leave out its DAs whose quintile is missing, while
    Total_DAs counts them all; so [DA count validation passed] is True if and
    only if every DA that shares its dominant FSA with a DA that has a
    quintile has one itself. *)
Theorem da_count_validation_passes_iff (dim_col : string) (df : list Approaches.final_row) :
  Approaches.da_count_validation (Approaches.da_analysis_of dim_col df) = true <->
  (forall r r', In r df -> In r' df ->
     Approaches.f_DominantFSA r = Approaches.f_DominantFSA r' ->
     Approaches.column dim_col (Approaches.f_onmarg r') <> None ->
     Approaches.column dim_col (Approaches.f_onmarg r) <> None).
Proof.
  unfold Approaches.da_count_validation, Approaches.total_das_check,
    Approaches.total_das_original.
  rewrite CountFacts.combine_map, forallb_forall. split.
  - intros Hall r r' Hr Hr' Ef Hq'.
    set (f := Approaches.f_DominantFSA r').
    assert (Hf : In f (group_keys (fun c => Some (Approaches.n_DominantFSA c))
                                  (Approaches.da_analysis_of dim_col df))).
    { apply CountFacts.result_fsas. exists r'. now repeat split. }
    specialize (Hall _ (in_map _ _ _ Hf)). cbn [fst snd] in Hall.
    apply Nat.eqb_eq in Hall.
    rewrite CountFacts.check_value, (CountFacts.original_value dim_col df f Hf) in Hall.
    unfold group_rows in Hall.
    apply CountFacts.length_filter_sub with (x := r) in Hall.
    + apply andb_true_iff in Hall. destruct Hall as [_ Hq].
      destruct (Approaches.column dim_col (Approaches.f_onmarg r)); discriminate.
    + intros x Hx. apply andb_true_iff in Hx. tauto.
    + exact Hr.
    + apply FrameFacts.okeqb_eq. unfold Approaches.fsa_key. now rewrite Ef.
  - intros Hall p Hp. rewrite in_map_iff in Hp. destruct Hp as [f [<- Hf]].
    cbn [fst snd]. apply Nat.eqb_eq.
    rewrite CountFacts.check_value, (CountFacts.original_value dim_col df f Hf).
    unfold group_rows. apply CountFacts.length_filter_sub.
    + intros x Hx. apply andb_true_iff in Hx. tauto.
    + intros r Hr Hk. apply andb_true_iff. split; [exact Hk|].
      apply CountFacts.result_fsas in Hf. destruct Hf as [r' [Hr' [Ef Hq']]].
      apply FrameFacts.okeqb_eq in Hk. unfold Approaches.fsa_key in Hk.
      assert (Hq : Approaches.column dim_col (Approaches.f_onmarg r) <> None).
      { apply (Hall r r' Hr Hr'); [congruence | exact Hq']. }
      destruct (Approaches.column dim_col (Approaches.f_onmarg r)); congruence.
Qed.

Lemma da_count_validation_passes_iff_witness :
  Approaches.da_count_validation
    (Approaches.da_analysis_of "material_resources_q_DA21" Examples.unequal_units) = true.
Proof.
  apply da_count_validation_passes_iff.
  intros r r' Hr _ _ _. vm_compute in Hr.
  destruct Hr as [<-|[<-|[<-|[<-|[]]]]]; discriminate.
Defined.

Module CountBounds.
Import FrameFacts Approaches.

Lemma length_filter_le {A} (p q : A -> bool) (l : list A) :
  (forall x, p x = true -> q x = true) ->
  (List.length (filter p l) <= List.length (filter q l))%nat.
Proof.
  intros Hpq. induction l as [|x t IH]; [reflexivity|]. cbn [filter].
  destruct (p x) eqn:P; [rewrite (Hpq x P); cbn; lia|].
  destruct (q x); cbn; lia.
Qed.

(** a group of an FSA is not empty and is part of the FSA *)
Lemma group_in_fsa (dim_col : string) (df : list final_row) (k : string * Z) :
  In k (group_keys (fsa_quintile_key dim_col) df) ->
  (0 < List.length (group_rows (fsa_quintile_key dim_col) df k)
   <= List.length (group_rows fsa_key df (fst k)))%nat.
Proof.
  intros Hk. apply In_group_keys in Hk. destruct Hk as [r [Hr Hkey]]. split.
  - assert (Hin : In r (group_rows (fsa_quintile_key dim_col) df k))
      by (apply In_group_rows; now split).
    destruct (group_rows (fsa_quintile_key dim_col) df k); [destruct Hin | cbn; lia].
  - unfold group_rows. apply length_filter_le. intros x Hx.
    apply okeqb_eq in Hx. apply okeqb_eq.
    unfold fsa_quintile_key in Hx. unfold fsa_key.
    destruct (column dim_col (f_onmarg x)); [|discriminate].
    destruct k as [f q]. now inversion Hx.
Qed.

Lemma ratio_of_counts (n m : nat) :
  (0 < n <= m)%nat ->
  exists q, fmul (fdiv (of_nat n) (of_nat m)) (Fin 100) = Fin q /\ 0 < q /\ q <= 100.
Proof.
  intros [Hn Hm]. unfold of_nat.
  assert (Hm0 : 0 < inject_Z (Z.of_nat m)).
  { unfold Qlt. cbn. lia. }
  assert (Hn0 : 0 < inject_Z (Z.of_nat n)).
  { unfold Qlt. cbn. lia. }
  assert (Hnm : inject_Z (Z.of_nat n) <= inject_Z (Z.of_nat m)).
  { rewrite <- Zle_Qle. lia. }
  rewrite ShareSums.fdiv_Fin by (intros E; rewrite E in Hm0; discriminate).
  eexists. split; [reflexivity|]. split.
  - apply Qmult_lt_0_compat; [|reflexivity].
    apply Qlt_shift_div_l; [exact Hm0|]. now rewrite Qmult_0_l.
  - setoid_replace 100 with (1 * 100) at 2 by ring.
    apply Qmult_le_compat_r; [|discriminate].
    apply Qle_shift_div_r; [exact Hm0|]. now rewrite Qmult_1_l.
Qed.

End CountBounds.

(** X11.  Every row of the result of approach 1 counts at least one DA and at
    most the DAs of its FSA, so its DA_Percentage is a number above 0 and at
    most 100: approach 1 never gives NaN or an infinity, whatever the frame. *)
Theorem da_percentage_bounds (dim_col : string) (df : list Approaches.final_row)
  (c : Approaches.count_row)
  (Hc : In c (Approaches.da_analysis_of dim_col df)) :
  (0 < Approaches.DA_Count c <= Approaches.Total_DAs c)%nat /\
  exists q, Approaches.DA_Percentage c = Fin q /\ 0 < q /\ q <= 100.
Proof.
  rewrite CountVsPop.da_analysis_rows, in_map_iff in Hc.
  destruct Hc as [k [<- Hk]].
  pose proof (CountBounds.group_in_fsa dim_col df k Hk) as Hb.
  split; [exact Hb|].
  cbn [Approaches.count_row_of Approaches.DA_Percentage].
  now apply CountBounds.ratio_of_counts.
Qed.

Lemma da_percentage_bounds_witness :
  exists c, In c (Approaches.da_analysis_of "material_resources_q_DA21"
                    Examples.unequal_units) /\
    (0 < Approaches.DA_Count c <= Approaches.Total_DAs c)%nat /\
    exists q, Approaches.DA_Percentage c = Fin q /\ 0 < q /\ q <= 100.
Proof.
  match eval vm_compute in (Approaches.da_analysis_of "material_resources_q_DA21"
                              Examples.unequal_units) with
  | ?c0 :: _ =>
      assert (Hc : In c0 (Approaches.da_analysis_of "material_resources_q_DA21"
                            Examples.unequal_units))
        by (vm_compute; left; reflexivity);
      exists c0; split; [exact Hc|];
      exact (da_percentage_bounds _ _ c0 Hc)
  end.
Defined.

(* ================================================================== *)
(** * The frame of approaches 1 and 2 *)
(* ================================================================== *)

Module FinalFrame.
Import FrameFacts MergeFacts KeyFacts Approaches.

(** rows that are kept or dropped one by one keep their keys distinct *)
Lemma NoDup_flat_map_sub {A B K} (F : A -> list B) (k : A -> K) (k' : B -> K)
      (l : list A) :
  (forall x, In x l -> F x = [] \/ exists y, F x = [y] /\ k' y = k x) ->
  NoDup (map k l) -> NoDup (map k' (flat_map F l)).
Proof.
  induction l as [|x t IH]; intros HF Hd; [constructor|].
  cbn [map] in Hd. inversion Hd as [|? ? Hn Hd']; subst.
  assert (IH' : NoDup (map k' (flat_map F t))).
  { apply IH; [|exact Hd']. intros y Hy. apply HF. now right. }
  cbn [flat_map].
  destruct (HF x (or_introl eq_refl)) as [E|[y [E Ek]]]; rewrite E; [exact IH'|].
  cbn [app map]. constructor; [|exact IH'].
  intros Hin. apply Hn. rewrite <- Ek.
  rewrite in_map_iff in Hin. destruct Hin as [b [Eb Hb]].
  apply in_flat_map in Hb. destruct Hb as [a [Ha Hb]].
  destruct (HF a (or_intror Ha)) as [E'|[y' [E' Ek']]]; rewrite E' in Hb; [destruct Hb|].
  destruct Hb as [<-|[]]. rewrite <- Eb, Ek'. now apply in_map.
Qed.

Lemma NoDup_map_inj_in {A B} (f : A -> B) (l : list A) :
  (forall a b, In a l -> In b l -> f a = f b -> a = b) -> NoDup l -> NoDup (map f l).
Proof.
  induction l as [|x t IH]; intros Hinj Hd; [constructor|].
  inversion Hd as [|? ? Hn Hd']; subst. cbn [map]. constructor.
  - intros Hin. rewrite in_map_iff in Hin. destruct Hin as [y [Ey Hy]].
    apply Hn. rewrite (Hinj x y); [exact Hy | now left | now right | now symmetry].
  - apply IH; [|exact Hd']. intros a b Ha Hb. apply Hinj; now right.
Qed.

Section Sources.
Variable onmarg_df : list onmarg_row.
Variable da_fsa_df : list da_fsa_row.
Variable pop_df : list pop_row.

Lemma onmarg_with_pop_distinct :
  NoDup (map DAUID onmarg_df) -> NoDup (map DA_UID pop_df) ->
  NoDup (map (fun r => DAUID (fst r)) (onmarg_with_pop onmarg_df pop_df)).
Proof.
  intros Ho Hp. unfold onmarg_with_pop.
  rewrite merge_left_at_most_one
    by (intros l _; now apply matches_at_most_one_key).
  rewrite flat_map_concat_map, map_map, <- flat_map_concat_map.
  apply (NoDup_flat_map_sub _ DAUID); [|exact Ho].
  intros x _. cbn [fst snd].
  destruct (hd_error _) as [p|]; [|now left].
  destruct (Sum_of_Pop p); [right | now left].
  eexists. split; reflexivity.
Qed.

(** one dominant FSA per DA: one row per DA in the lookup table *)
Lemma dominant_fsa_distinct :
  (forall a b, In a da_fsa_df -> In b da_fsa_df -> DAuid a = DAuid b ->
               DominantFSA a = DominantFSA b) ->
  NoDup (map fst (da_to_dominant_fsa da_fsa_df)).
Proof.
  intros Hone. unfold da_to_dominant_fsa.
  apply NoDup_map_inj_in; [|apply NoDup_unique].
  intros x y Hx Hy E.
  apply (proj1 (In_unique _ _)) in Hx. apply (proj1 (In_unique _ _)) in Hy.
  apply in_map_iff in Hx. apply in_map_iff in Hy.
  destruct Hx as [a [<- Ha]]. destruct Hy as [b [<- Hb]].
  cbn [fst] in E. now rewrite E, (Hone a b Ha Hb E).
Qed.

End Sources.

End FinalFrame.

(** X12.  No DA is counted twice by approaches 1 and 2.  When the ON-Marg
    sheet and the population file list every DA once and the mapping file
    names one dominant FSA per DA, [final_df] holds every DA at most once: the
    two left merges of steps 3 and 4 do not repeat a row. *)
Theorem final_df_counts_a_da_once
  (onmarg_df : list Approaches.onmarg_row) (da_fsa_df : list Approaches.da_fsa_row)
  (pop_df : list Approaches.pop_row)
  (Honmarg : NoDup (map Approaches.DAUID onmarg_df))
  (Hpop : NoDup (map Approaches.DA_UID pop_df))
  (Hone : forall a b, In a da_fsa_df -> In b da_fsa_df ->
            Approaches.DAuid a = Approaches.DAuid b ->
            Approaches.DominantFSA a = Approaches.DominantFSA b) :
  NoDup (map (fun r => Approaches.DAUID (Approaches.f_onmarg r))
             (Approaches.final_df_of onmarg_df da_fsa_df pop_df)).
Proof.
  unfold Approaches.final_df_of.
  rewrite MergeFacts.merge_left_at_most_one.
  - rewrite flat_map_concat_map, map_map, <- flat_map_concat_map.
    apply (FinalFrame.NoDup_flat_map_sub _ (fun r => Approaches.DAUID (fst r))).
    + intros x _. cbn [fst snd].
      destruct (hd_error _) as [[uid [fsa|]]|]; [right | now left | now left].
      eexists. split; reflexivity.
    + now apply FinalFrame.onmarg_with_pop_distinct.
  - intros l _. apply KeyFacts.matches_at_most_one_key.
    now apply FinalFrame.dominant_fsa_distinct.
Qed.

Lemma final_df_counts_a_da_once_witness :
  NoDup (map (fun r => Approaches.DAUID (Approaches.f_onmarg r))
             (Approaches.final_df_of Examples.onmarg_two Examples.da_fsa_two
                                     Examples.pop_two)).
Proof.
  apply final_df_counts_a_da_once.
  - apply MergeFacts.unique_fixed_NoDup. reflexivity.
  - apply MergeFacts.unique_fixed_NoDup. reflexivity.
  - intros a b Ha Hb _. vm_compute in Ha, Hb.
    destruct Ha as [<-|[<-|[<-|[]]]]; destruct Hb as [<-|[<-|[<-|[]]]]; reflexivity.
Defined.

(* ================================================================== *)
(** * Approach 3: the two totals it prints *)
(* ================================================================== *)

Module AllocationTotals.
Import FrameFacts MergeFacts GroupSums Approaches.



Section Sources.
Variable onmarg_df : list onmarg_row.
Variable pop_df : list pop_row.
Variable da_fsa_df : list da_fsa_row.

Hypothesis onmarg_distinct : NoDup (map DAUID onmarg_df).
Hypothesis pop_covered : forall p, In p pop_df -> In (DA_UID p) (map DAUID onmarg_df).


Hypothesis proportions :
  forall p v, In p pop_df -> Sum_of_Pop p = Some v ->
    qsum (map (fun d => finpart (of_option (Proportion d)))
              (filter (fun d => DAuid d =? DA_UID p) da_fsa_df)) == 1.


End Sources.

End AllocationTotals.



(* ================================================================== *)
(** * The result frames of the three approaches *)
(* ================================================================== *)

Module ResultKeys.
Import FrameFacts MergeFacts Approaches ApproachFacts.

Lemma analysis_keys {R} (fkey : R -> option string) (fqkey : R -> option (string * Z))
      (val : R -> fval) (rows : list R) :
  (forall r f q, fqkey r = Some (f, q) -> fkey r = Some f) ->
  map (fun r => (a_FSA r, a_Quintile r))
      (pop_analysis_rows (groupby_sum fqkey val rows) (groupby_sum fkey val rows))
  = group_keys fqkey rows.
Proof.
  intros Hcons. rewrite (analysis_rows fkey fqkey val rows Hcons), map_map.
  rewrite (map_ext _ (fun k => k)); [apply map_id|].
  intros [f q]. reflexivity.
Qed.

Lemma alloc_key_fsa (dim_col : string) (r : alloc_row) (f : string) (q : Z) :
  alloc_quintile_key dim_col r = Some (f, q) -> l_FSA r = Some f.
Proof.
  unfold alloc_quintile_key. destruct (l_FSA r); [|discriminate].
  destruct (column dim_col (l_onmarg r)); [|discriminate]. congruence.
Qed.

Lemma final_key_fsa (dim_col : string) (r : final_row) (f : string) (q : Z) :
  fsa_quintile_key dim_col r = Some (f, q) -> fsa_key r = Some f.
Proof.
  unfold fsa_quintile_key, fsa_key.
  destruct (column dim_col (f_onmarg r)); [|discriminate]. congruence.
Qed.

End ResultKeys.

(** X14.  Each result frame of the three approaches has one row per (FSA,
    quintile): the merge of the sums per group with the totals per FSA repeats
    no group, so the frames can be pivoted on FSA and quintile. *)
Theorem results_have_one_row_per_group
  (dim_col : string) (df : list Approaches.final_row) (prop_df : list Approaches.alloc_row) :
  NoDup (map (fun c => (Approaches.n_DominantFSA c, Approaches.n_Quintile c))
             (Approaches.da_analysis_of dim_col df)) /\
  NoDup (map (fun r => (Approaches.a_FSA r, Approaches.a_Quintile r))
             (Approaches.dominant_pop_analysis dim_col df)) /\
  NoDup (map (fun r => (Approaches.a_FSA r, Approaches.a_Quintile r))
             (Approaches.proportional_analysis dim_col prop_df)).
Proof.
  split; [|split].
  - rewrite CountVsPop.da_analysis_rows, map_map.
    rewrite (map_ext _ (fun k => k)); [|intros [f q]; reflexivity].
    rewrite map_id. apply FrameFacts.NoDup_group_keys.
  - unfold Approaches.dominant_pop_analysis.
    rewrite (ResultKeys.analysis_keys _ _ _ _ (ResultKeys.final_key_fsa dim_col)).
    apply FrameFacts.NoDup_group_keys.
  - unfold Approaches.proportional_analysis.
    rewrite (ResultKeys.analysis_keys _ _ _ _ (ResultKeys.alloc_key_fsa dim_col)).
    apply FrameFacts.NoDup_group_keys.
Qed.
